(** * Usage statistics of the Serverless framework: [Utils.logStat]

    A shallow embedding of [logStat] from [lib/classes/Utils.js] and of the
    JavaScript operations it relies on, followed by the properties of the
    statistics payload it assembles.

    Conventions of the embedding:
    - configuration data that the source inspects with truthiness tests,
      [typeof] or method calls is a dynamic [value]; an operation that
      JavaScript rejects with a [TypeError] returns [Throw TypeError];
    - objects the source dereferences unconditionally ([serverless],
      [serverless.service], [processedInput], a function of the service)
      are records with the source's field names;
    - JavaScript numbers are IEEE 754 doubles, i.e. Rocq's primitive floats;
      array lengths and the event counters are natural numbers (they are
      integers far below 2^53 in the source);
    - a string is the sequence of the bytes of its UTF-8 encoding: one
      byte for an ASCII character, two to four for any other. *)

From Stdlib Require Import Bool Arith ZArith List String Ascii Lia.
From Stdlib Require Import Permutation DecimalString.
From Stdlib Require Import PrimFloat FloatOps SpecFloat.
Import ListNotations.

Set Warnings "-register-all".

Open Scope string_scope.
Open Scope list_scope.

(** ** JavaScript values *)

Inductive value : Type :=
| VUndefined
| VNull
| VBool (b : bool)
| VNum (n : float)
| VStr (s : string)
| VArr (items : list value)
| VObj (props : list (string * value)).

(** ** Completion of a computation: a result, or a thrown exception *)

(** [TypeError] is raised by the language itself; [Thrown] carries what a
    collaborator of [logStat] threw. *)
Inductive exn : Type :=
| TypeError
| Thrown (reason : value).

Inductive result (A : Type) : Type :=
| Ok (a : A)
| Throw (e : exn).

Arguments Ok {A} a.
Arguments Throw {A} e.

Definition bind {A B : Type} (c : result A) (k : A -> result B) : result B :=
  match c with
  | Ok a => k a
  | Throw e => Throw e
  end.

Notation "x <- c ;; k" := (bind c (fun x => k))
  (at level 61, c at next level, right associativity).

(** The short-circuit operators [&&] and [||] on conditions: the right
    operand is evaluated (and may throw) only when the left one does not
    already decide the result. *)
Definition andThen (a b : result bool) : result bool :=
  x <- a ;; if x then b else Ok false.

Definition orElse (a b : result bool) : result bool :=
  x <- a ;; if x then Ok true else b.

Notation "a &&& b" := (andThen a b) (at level 40, left associativity).
Notation "a ||| b" := (orElse a b) (at level 50, left associativity).

(** [forEach] with a callback that updates local variables and may throw. *)
Fixpoint forEach {A S : Type} (f : S -> A -> result S) (l : list A) (s : S)
  : result S :=
  match l with
  | [] => Ok s
  | x :: rest => s' <- f s x ;; forEach f rest s'
  end.

(** ** JavaScript operations used by [logStat] *)

Definition truthyNumber (n : float) : bool :=
  negb (PrimFloat.is_zero n || PrimFloat.is_nan n).

Definition truthy (v : value) : bool :=
  match v with
  | VUndefined | VNull => false
  | VBool b => b
  | VNum n => truthyNumber n
  | VStr s => negb (s =? "")
  | VArr _ | VObj _ => true
  end.

Definition typeof (v : value) : string :=
  match v with
  | VUndefined => "undefined"
  | VNull | VArr _ | VObj _ => "object"
  | VBool _ => "boolean"
  | VNum _ => "number"
  | VStr _ => "string"
  end.

(** Own properties of an object: the list is in the order in which
    [Object.keys] reports the keys, and a key is read at its first entry. *)
Fixpoint lookup (k : string) (props : list (string * value)) : value :=
  match props with
  | [] => VUndefined
  | (k', v) :: rest => if k' =? k then v else lookup k rest
  end.

Definition hasOwnProperty (k : string) (props : list (string * value)) : bool :=
  existsb (fun kv => fst kv =? k) props.

(** [prop v k] is the value of [v.k] for the property names [logStat]
    reads (none of them is a property of the String, Number, Boolean or
    Array prototypes, so only objects carry them); on [undefined] and
    [null], where the access throws, it is [undefined]. *)
Definition prop (v : value) (k : string) : value :=
  match v with
  | VObj props => lookup k props
  | _ => VUndefined
  end.

(** [v.k] as JavaScript evaluates it. *)
Definition get (v : value) (k : string) : result value :=
  match v with
  | VUndefined | VNull => Throw TypeError
  | _ => Ok (prop v k)
  end.

Definition indexKeys (n : nat) : list string :=
  map (fun i => NilZero.string_of_uint (Nat.to_uint i)) (seq 0 n).

(** [s.length], the number of UTF-16 code units of [s]: two for a
    character of four bytes, one for any other. *)
Definition codeUnitsAt (c : ascii) : nat :=
  let n := nat_of_ascii c in
  if (n <? 128)%nat then 1
  else if (n <? 192)%nat then 0
  else if (n <? 240)%nat then 1
  else 2.

Fixpoint codeUnits (s : string) : nat :=
  match s with
  | EmptyString => 0
  | String c rest => codeUnitsAt c + codeUnits rest
  end.

Definition ownKeys (v : value) : list string :=
  match v with
  | VObj props => map fst props
  | VArr items => indexKeys (List.length items)
  | VStr s => indexKeys (codeUnits s)
  | _ => []
  end.

(** [Object.keys(v)] *)
Definition Object_keys (v : value) : result (list string) :=
  match v with
  | VUndefined | VNull => Throw TypeError
  | _ => Ok (ownKeys v)
  end.

(** lodash [isLength]: the number is an integer from [0] to [2^53 - 1]. *)
Definition asLength (v : value) : option nat :=
  match v with
  | VNum n =>
      match Prim2SF n with
      | S754_zero _ => Some 0
      | S754_finite false m e =>
          let whole :=
            (if 0 <=? e then true else Z.pos m mod 2 ^ (- e) =? 0)%Z in
          let z :=
            (if 0 <=? e then Z.pos m * 2 ^ e else Z.pos m / 2 ^ (- e))%Z in
          if whole && (z <=? 9007199254740991)%Z then Some (Z.to_nat z)
          else None
      | _ => None
      end
  | _ => None
  end.

(** lodash [_.size]: the [length] of an array, of a string and of an
    object whose [length] is a length (an array-like object), the number
    of own keys of any other object, and [0] for the other values. (A
    string with combining marks, variation selectors, joiners or
    characters of four bytes is counted by lodash in symbols, not in code
    units; such strings are outside this definition.) *)
Definition lodash_size (v : value) : nat :=
  match v with
  | VObj props =>
      match asLength (lookup "length" props) with
      | Some n => n
      | None => List.length props
      end
  | VArr items => List.length items
  | VStr s => codeUnits s
  | _ => 0
  end.

(** ** Letter case *)

(** The characters outside ASCII that [toUpperCase] changes, each with its
    upper case: the full case mappings of Unicode 14.0, which apply
    whatever the locale and the neighbouring characters are. *)
Definition upperCaseTable : list (string * string) :=
  [("µ", "Μ"); ("ß", "SS"); ("à", "À"); ("á", "Á"); ("â", "Â"); ("ã", "Ã");
   ("ä", "Ä"); ("å", "Å"); ("æ", "Æ"); ("ç", "Ç"); ("è", "È"); ("é", "É");
   ("ê", "Ê"); ("ë", "Ë"); ("ì", "Ì"); ("í", "Í"); ("î", "Î"); ("ï", "Ï");
   ("ð", "Ð"); ("ñ", "Ñ"); ("ò", "Ò"); ("ó", "Ó"); ("ô", "Ô"); ("õ", "Õ");
   ("ö", "Ö"); ("ø", "Ø"); ("ù", "Ù"); ("ú", "Ú"); ("û", "Û"); ("ü", "Ü");
   ("ý", "Ý"); ("þ", "Þ"); ("ÿ", "Ÿ"); ("ā", "Ā"); ("ă", "Ă"); ("ą", "Ą");
   ("ć", "Ć"); ("ĉ", "Ĉ"); ("ċ", "Ċ"); ("č", "Č"); ("ď", "Ď"); ("đ", "Đ");
   ("ē", "Ē"); ("ĕ", "Ĕ"); ("ė", "Ė"); ("ę", "Ę"); ("ě", "Ě"); ("ĝ", "Ĝ");
   ("ğ", "Ğ"); ("ġ", "Ġ"); ("ģ", "Ģ"); ("ĥ", "Ĥ"); ("ħ", "Ħ"); ("ĩ", "Ĩ");
   ("ī", "Ī"); ("ĭ", "Ĭ"); ("į", "Į"); ("ı", "I"); ("ĳ", "Ĳ"); ("ĵ", "Ĵ");
   ("ķ", "Ķ"); ("ĺ", "Ĺ"); ("ļ", "Ļ"); ("ľ", "Ľ"); ("ŀ", "Ŀ"); ("ł", "Ł");
   ("ń", "Ń"); ("ņ", "Ņ"); ("ň", "Ň"); ("ŉ", "ʼN"); ("ŋ", "Ŋ"); ("ō", "Ō");
   ("ŏ", "Ŏ"); ("ő", "Ő"); ("œ", "Œ"); ("ŕ", "Ŕ"); ("ŗ", "Ŗ"); ("ř", "Ř");
   ("ś", "Ś"); ("ŝ", "Ŝ"); ("ş", "Ş"); ("š", "Š"); ("ţ", "Ţ"); ("ť", "Ť");
   ("ŧ", "Ŧ"); ("ũ", "Ũ"); ("ū", "Ū"); ("ŭ", "Ŭ"); ("ů", "Ů"); ("ű", "Ű");
   ("ų", "Ų"); ("ŵ", "Ŵ"); ("ŷ", "Ŷ"); ("ź", "Ź"); ("ż", "Ż"); ("ž", "Ž");
   ("ſ", "S"); ("ƀ", "Ƀ"); ("ƃ", "Ƃ"); ("ƅ", "Ƅ"); ("ƈ", "Ƈ"); ("ƌ", "Ƌ");
   ("ƒ", "Ƒ"); ("ƕ", "Ƕ"); ("ƙ", "Ƙ"); ("ƚ", "Ƚ"); ("ƞ", "Ƞ"); ("ơ", "Ơ");
   ("ƣ", "Ƣ"); ("ƥ", "Ƥ"); ("ƨ", "Ƨ"); ("ƭ", "Ƭ"); ("ư", "Ư"); ("ƴ", "Ƴ");
   ("ƶ", "Ƶ"); ("ƹ", "Ƹ"); ("ƽ", "Ƽ"); ("ƿ", "Ƿ"); ("ǅ", "Ǆ"); ("ǆ", "Ǆ");
   ("ǈ", "Ǉ"); ("ǉ", "Ǉ"); ("ǋ", "Ǌ"); ("ǌ", "Ǌ"); ("ǎ", "Ǎ"); ("ǐ", "Ǐ");
   ("ǒ", "Ǒ"); ("ǔ", "Ǔ"); ("ǖ", "Ǖ"); ("ǘ", "Ǘ"); ("ǚ", "Ǚ"); ("ǜ", "Ǜ");
   ("ǝ", "Ǝ"); ("ǟ", "Ǟ"); ("ǡ", "Ǡ"); ("ǣ", "Ǣ"); ("ǥ", "Ǥ"); ("ǧ", "Ǧ");
   ("ǩ", "Ǩ"); ("ǫ", "Ǫ"); ("ǭ", "Ǭ"); ("ǯ", "Ǯ"); ("ǰ", "J̌"); ("ǲ", "Ǳ");
   ("ǳ", "Ǳ"); ("ǵ", "Ǵ"); ("ǹ", "Ǹ"); ("ǻ", "Ǻ"); ("ǽ", "Ǽ"); ("ǿ", "Ǿ");
   ("ȁ", "Ȁ"); ("ȃ", "Ȃ"); ("ȅ", "Ȅ"); ("ȇ", "Ȇ"); ("ȉ", "Ȉ"); ("ȋ", "Ȋ");
   ("ȍ", "Ȍ"); ("ȏ", "Ȏ"); ("ȑ", "Ȑ"); ("ȓ", "Ȓ"); ("ȕ", "Ȕ"); ("ȗ", "Ȗ");
   ("ș", "Ș"); ("ț", "Ț"); ("ȝ", "Ȝ"); ("ȟ", "Ȟ"); ("ȣ", "Ȣ"); ("ȥ", "Ȥ");
   ("ȧ", "Ȧ"); ("ȩ", "Ȩ"); ("ȫ", "Ȫ"); ("ȭ", "Ȭ"); ("ȯ", "Ȯ"); ("ȱ", "Ȱ");
   ("ȳ", "Ȳ"); ("ȼ", "Ȼ"); ("ȿ", "Ȿ"); ("ɀ", "Ɀ"); ("ɂ", "Ɂ"); ("ɇ", "Ɇ");
   ("ɉ", "Ɉ"); ("ɋ", "Ɋ"); ("ɍ", "Ɍ"); ("ɏ", "Ɏ"); ("ɐ", "Ɐ"); ("ɑ", "Ɑ");
   ("ɒ", "Ɒ"); ("ɓ", "Ɓ"); ("ɔ", "Ɔ"); ("ɖ", "Ɖ"); ("ɗ", "Ɗ"); ("ə", "Ə");
   ("ɛ", "Ɛ"); ("ɜ", "Ɜ"); ("ɠ", "Ɠ"); ("ɡ", "Ɡ"); ("ɣ", "Ɣ"); ("ɥ", "Ɥ");
   ("ɦ", "Ɦ"); ("ɨ", "Ɨ"); ("ɩ", "Ɩ"); ("ɪ", "Ɪ"); ("ɫ", "Ɫ"); ("ɬ", "Ɬ");
   ("ɯ", "Ɯ"); ("ɱ", "Ɱ"); ("ɲ", "Ɲ"); ("ɵ", "Ɵ"); ("ɽ", "Ɽ"); ("ʀ", "Ʀ");
   ("ʂ", "Ʂ"); ("ʃ", "Ʃ"); ("ʇ", "Ʇ"); ("ʈ", "Ʈ"); ("ʉ", "Ʉ"); ("ʊ", "Ʊ");
   ("ʋ", "Ʋ"); ("ʌ", "Ʌ"); ("ʒ", "Ʒ"); ("ʝ", "Ʝ"); ("ʞ", "Ʞ"); ("ͅ", "Ι");
   ("ͱ", "Ͱ"); ("ͳ", "Ͳ"); ("ͷ", "Ͷ"); ("ͻ", "Ͻ"); ("ͼ", "Ͼ"); ("ͽ", "Ͽ");
   ("ΐ", "Ϊ́"); ("ά", "Ά"); ("έ", "Έ"); ("ή", "Ή"); ("ί", "Ί");
   ("ΰ", "Ϋ́"); ("α", "Α"); ("β", "Β"); ("γ", "Γ"); ("δ", "Δ");
   ("ε", "Ε"); ("ζ", "Ζ"); ("η", "Η"); ("θ", "Θ"); ("ι", "Ι"); ("κ", "Κ");
   ("λ", "Λ"); ("μ", "Μ"); ("ν", "Ν"); ("ξ", "Ξ"); ("ο", "Ο"); ("π", "Π");
   ("ρ", "Ρ"); ("ς", "Σ"); ("σ", "Σ"); ("τ", "Τ"); ("υ", "Υ"); ("φ", "Φ");
   ("χ", "Χ"); ("ψ", "Ψ"); ("ω", "Ω"); ("ϊ", "Ϊ"); ("ϋ", "Ϋ"); ("ό", "Ό");
   ("ύ", "Ύ"); ("ώ", "Ώ"); ("ϐ", "Β"); ("ϑ", "Θ"); ("ϕ", "Φ"); ("ϖ", "Π");
   ("ϗ", "Ϗ"); ("ϙ", "Ϙ"); ("ϛ", "Ϛ"); ("ϝ", "Ϝ"); ("ϟ", "Ϟ"); ("ϡ", "Ϡ");
   ("ϣ", "Ϣ"); ("ϥ", "Ϥ"); ("ϧ", "Ϧ"); ("ϩ", "Ϩ"); ("ϫ", "Ϫ"); ("ϭ", "Ϭ");
   ("ϯ", "Ϯ"); ("ϰ", "Κ"); ("ϱ", "Ρ"); ("ϲ", "Ϲ"); ("ϳ", "Ϳ"); ("ϵ", "Ε");
   ("ϸ", "Ϸ"); ("ϻ", "Ϻ"); ("а", "А"); ("б", "Б"); ("в", "В"); ("г", "Г");
   ("д", "Д"); ("е", "Е"); ("ж", "Ж"); ("з", "З"); ("и", "И"); ("й", "Й");
   ("к", "К"); ("л", "Л"); ("м", "М"); ("н", "Н"); ("о", "О"); ("п", "П");
   ("р", "Р"); ("с", "С"); ("т", "Т"); ("у", "У"); ("ф", "Ф"); ("х", "Х");
   ("ц", "Ц"); ("ч", "Ч"); ("ш", "Ш"); ("щ", "Щ"); ("ъ", "Ъ"); ("ы", "Ы");
   ("ь", "Ь"); ("э", "Э"); ("ю", "Ю"); ("я", "Я"); ("ѐ", "Ѐ"); ("ё", "Ё");
   ("ђ", "Ђ"); ("ѓ", "Ѓ"); ("є", "Є"); ("ѕ", "Ѕ"); ("і", "І"); ("ї", "Ї");
   ("ј", "Ј"); ("љ", "Љ"); ("њ", "Њ"); ("ћ", "Ћ"); ("ќ", "Ќ"); ("ѝ", "Ѝ");
   ("ў", "Ў"); ("џ", "Џ"); ("ѡ", "Ѡ"); ("ѣ", "Ѣ"); ("ѥ", "Ѥ"); ("ѧ", "Ѧ");
   ("ѩ", "Ѩ"); ("ѫ", "Ѫ"); ("ѭ", "Ѭ"); ("ѯ", "Ѯ"); ("ѱ", "Ѱ"); ("ѳ", "Ѳ");
   ("ѵ", "Ѵ"); ("ѷ", "Ѷ"); ("ѹ", "Ѹ"); ("ѻ", "Ѻ"); ("ѽ", "Ѽ"); ("ѿ", "Ѿ");
   ("ҁ", "Ҁ"); ("ҋ", "Ҋ"); ("ҍ", "Ҍ"); ("ҏ", "Ҏ"); ("ґ", "Ґ"); ("ғ", "Ғ");
   ("ҕ", "Ҕ"); ("җ", "Җ"); ("ҙ", "Ҙ"); ("қ", "Қ"); ("ҝ", "Ҝ"); ("ҟ", "Ҟ");
   ("ҡ", "Ҡ"); ("ң", "Ң"); ("ҥ", "Ҥ"); ("ҧ", "Ҧ"); ("ҩ", "Ҩ"); ("ҫ", "Ҫ");
   ("ҭ", "Ҭ"); ("ү", "Ү"); ("ұ", "Ұ"); ("ҳ", "Ҳ"); ("ҵ", "Ҵ"); ("ҷ", "Ҷ");
   ("ҹ", "Ҹ"); ("һ", "Һ"); ("ҽ", "Ҽ"); ("ҿ", "Ҿ"); ("ӂ", "Ӂ"); ("ӄ", "Ӄ");
   ("ӆ", "Ӆ"); ("ӈ", "Ӈ"); ("ӊ", "Ӊ"); ("ӌ", "Ӌ"); ("ӎ", "Ӎ"); ("ӏ", "Ӏ");
   ("ӑ", "Ӑ"); ("ӓ", "Ӓ"); ("ӕ", "Ӕ"); ("ӗ", "Ӗ"); ("ә", "Ә"); ("ӛ", "Ӛ");
   ("ӝ", "Ӝ"); ("ӟ", "Ӟ"); ("ӡ", "Ӡ"); ("ӣ", "Ӣ"); ("ӥ", "Ӥ"); ("ӧ", "Ӧ");
   ("ө", "Ө"); ("ӫ", "Ӫ"); ("ӭ", "Ӭ"); ("ӯ", "Ӯ"); ("ӱ", "Ӱ"); ("ӳ", "Ӳ");
   ("ӵ", "Ӵ"); ("ӷ", "Ӷ"); ("ӹ", "Ӹ"); ("ӻ", "Ӻ"); ("ӽ", "Ӽ"); ("ӿ", "Ӿ");
   ("ԁ", "Ԁ"); ("ԃ", "Ԃ"); ("ԅ", "Ԅ"); ("ԇ", "Ԇ"); ("ԉ", "Ԉ"); ("ԋ", "Ԋ");
   ("ԍ", "Ԍ"); ("ԏ", "Ԏ"); ("ԑ", "Ԑ"); ("ԓ", "Ԓ"); ("ԕ", "Ԕ"); ("ԗ", "Ԗ");
   ("ԙ", "Ԙ"); ("ԛ", "Ԛ"); ("ԝ", "Ԝ"); ("ԟ", "Ԟ"); ("ԡ", "Ԡ"); ("ԣ", "Ԣ");
   ("ԥ", "Ԥ"); ("ԧ", "Ԧ"); ("ԩ", "Ԩ"); ("ԫ", "Ԫ"); ("ԭ", "Ԭ"); ("ԯ", "Ԯ");
   ("ա", "Ա"); ("բ", "Բ"); ("գ", "Գ"); ("դ", "Դ"); ("ե", "Ե"); ("զ", "Զ");
   ("է", "Է"); ("ը", "Ը"); ("թ", "Թ"); ("ժ", "Ժ"); ("ի", "Ի"); ("լ", "Լ");
   ("խ", "Խ"); ("ծ", "Ծ"); ("կ", "Կ"); ("հ", "Հ"); ("ձ", "Ձ"); ("ղ", "Ղ");
   ("ճ", "Ճ"); ("մ", "Մ"); ("յ", "Յ"); ("ն", "Ն"); ("շ", "Շ"); ("ո", "Ո");
   ("չ", "Չ"); ("պ", "Պ"); ("ջ", "Ջ"); ("ռ", "Ռ"); ("ս", "Ս"); ("վ", "Վ");
   ("տ", "Տ"); ("ր", "Ր"); ("ց", "Ց"); ("ւ", "Ւ"); ("փ", "Փ"); ("ք", "Ք");
   ("օ", "Օ"); ("ֆ", "Ֆ"); ("և", "ԵՒ"); ("ა", "Ა"); ("ბ", "Ბ"); ("გ", "Გ");
   ("დ", "Დ"); ("ე", "Ე"); ("ვ", "Ვ"); ("ზ", "Ზ"); ("თ", "Თ"); ("ი", "Ი");
   ("კ", "Კ"); ("ლ", "Ლ"); ("მ", "Მ"); ("ნ", "Ნ"); ("ო", "Ო"); ("პ", "Პ");
   ("ჟ", "Ჟ"); ("რ", "Რ"); ("ს", "Ს"); ("ტ", "Ტ"); ("უ", "Უ"); ("ფ", "Ფ");
   ("ქ", "Ქ"); ("ღ", "Ღ"); ("ყ", "Ყ"); ("შ", "Შ"); ("ჩ", "Ჩ"); ("ც", "Ც");
   ("ძ", "Ძ"); ("წ", "Წ"); ("ჭ", "Ჭ"); ("ხ", "Ხ"); ("ჯ", "Ჯ"); ("ჰ", "Ჰ");
   ("ჱ", "Ჱ"); ("ჲ", "Ჲ"); ("ჳ", "Ჳ"); ("ჴ", "Ჴ"); ("ჵ", "Ჵ"); ("ჶ", "Ჶ");
   ("ჷ", "Ჷ"); ("ჸ", "Ჸ"); ("ჹ", "Ჹ"); ("ჺ", "Ჺ"); ("ჽ", "Ჽ"); ("ჾ", "Ჾ");
   ("ჿ", "Ჿ"); ("ᏸ", "Ᏸ"); ("ᏹ", "Ᏹ"); ("ᏺ", "Ᏺ"); ("ᏻ", "Ᏻ"); ("ᏼ", "Ᏼ");
   ("ᏽ", "Ᏽ"); ("ᲀ", "В"); ("ᲁ", "Д"); ("ᲂ", "О"); ("ᲃ", "С"); ("ᲄ", "Т");
   ("ᲅ", "Т"); ("ᲆ", "Ъ"); ("ᲇ", "Ѣ"); ("ᲈ", "Ꙋ"); ("ᵹ", "Ᵹ"); ("ᵽ", "Ᵽ");
   ("ᶎ", "Ᶎ"); ("ḁ", "Ḁ"); ("ḃ", "Ḃ"); ("ḅ", "Ḅ"); ("ḇ", "Ḇ"); ("ḉ", "Ḉ");
   ("ḋ", "Ḋ"); ("ḍ", "Ḍ"); ("ḏ", "Ḏ"); ("ḑ", "Ḑ"); ("ḓ", "Ḓ"); ("ḕ", "Ḕ");
   ("ḗ", "Ḗ"); ("ḙ", "Ḙ"); ("ḛ", "Ḛ"); ("ḝ", "Ḝ"); ("ḟ", "Ḟ"); ("ḡ", "Ḡ");
   ("ḣ", "Ḣ"); ("ḥ", "Ḥ"); ("ḧ", "Ḧ"); ("ḩ", "Ḩ"); ("ḫ", "Ḫ"); ("ḭ", "Ḭ");
   ("ḯ", "Ḯ"); ("ḱ", "Ḱ"); ("ḳ", "Ḳ"); ("ḵ", "Ḵ"); ("ḷ", "Ḷ"); ("ḹ", "Ḹ");
   ("ḻ", "Ḻ"); ("ḽ", "Ḽ"); ("ḿ", "Ḿ"); ("ṁ", "Ṁ"); ("ṃ", "Ṃ"); ("ṅ", "Ṅ");
   ("ṇ", "Ṇ"); ("ṉ", "Ṉ"); ("ṋ", "Ṋ"); ("ṍ", "Ṍ"); ("ṏ", "Ṏ"); ("ṑ", "Ṑ");
   ("ṓ", "Ṓ"); ("ṕ", "Ṕ"); ("ṗ", "Ṗ"); ("ṙ", "Ṙ"); ("ṛ", "Ṛ"); ("ṝ", "Ṝ");
   ("ṟ", "Ṟ"); ("ṡ", "Ṡ"); ("ṣ", "Ṣ"); ("ṥ", "Ṥ"); ("ṧ", "Ṧ"); ("ṩ", "Ṩ");
   ("ṫ", "Ṫ"); ("ṭ", "Ṭ"); ("ṯ", "Ṯ"); ("ṱ", "Ṱ"); ("ṳ", "Ṳ"); ("ṵ", "Ṵ");
   ("ṷ", "Ṷ"); ("ṹ", "Ṹ"); ("ṻ", "Ṻ"); ("ṽ", "Ṽ"); ("ṿ", "Ṿ"); ("ẁ", "Ẁ");
   ("ẃ", "Ẃ"); ("ẅ", "Ẅ"); ("ẇ", "Ẇ"); ("ẉ", "Ẉ"); ("ẋ", "Ẋ"); ("ẍ", "Ẍ");
   ("ẏ", "Ẏ"); ("ẑ", "Ẑ"); ("ẓ", "Ẓ"); ("ẕ", "Ẕ"); ("ẖ", "H̱");
   ("ẗ", "T̈"); ("ẘ", "W̊"); ("ẙ", "Y̊"); ("ẚ", "Aʾ"); ("ẛ", "Ṡ");
   ("ạ", "Ạ"); ("ả", "Ả"); ("ấ", "Ấ"); ("ầ", "Ầ"); ("ẩ", "Ẩ"); ("ẫ", "Ẫ");
   ("ậ", "Ậ"); ("ắ", "Ắ"); ("ằ", "Ằ"); ("ẳ", "Ẳ"); ("ẵ", "Ẵ"); ("ặ", "Ặ");
   ("ẹ", "Ẹ"); ("ẻ", "Ẻ"); ("ẽ", "Ẽ"); ("ế", "Ế"); ("ề", "Ề"); ("ể", "Ể");
   ("ễ", "Ễ"); ("ệ", "Ệ"); ("ỉ", "Ỉ"); ("ị", "Ị"); ("ọ", "Ọ"); ("ỏ", "Ỏ");
   ("ố", "Ố"); ("ồ", "Ồ"); ("ổ", "Ổ"); ("ỗ", "Ỗ"); ("ộ", "Ộ"); ("ớ", "Ớ");
   ("ờ", "Ờ"); ("ở", "Ở"); ("ỡ", "Ỡ"); ("ợ", "Ợ"); ("ụ", "Ụ"); ("ủ", "Ủ");
   ("ứ", "Ứ"); ("ừ", "Ừ"); ("ử", "Ử"); ("ữ", "Ữ"); ("ự", "Ự"); ("ỳ", "Ỳ");
   ("ỵ", "Ỵ"); ("ỷ", "Ỷ"); ("ỹ", "Ỹ"); ("ỻ", "Ỻ"); ("ỽ", "Ỽ"); ("ỿ", "Ỿ");
   ("ἀ", "Ἀ"); ("ἁ", "Ἁ"); ("ἂ", "Ἂ"); ("ἃ", "Ἃ"); ("ἄ", "Ἄ"); ("ἅ", "Ἅ");
   ("ἆ", "Ἆ"); ("ἇ", "Ἇ"); ("ἐ", "Ἐ"); ("ἑ", "Ἑ"); ("ἒ", "Ἒ"); ("ἓ", "Ἓ");
   ("ἔ", "Ἔ"); ("ἕ", "Ἕ"); ("ἠ", "Ἠ"); ("ἡ", "Ἡ"); ("ἢ", "Ἢ"); ("ἣ", "Ἣ");
   ("ἤ", "Ἤ"); ("ἥ", "Ἥ"); ("ἦ", "Ἦ"); ("ἧ", "Ἧ"); ("ἰ", "Ἰ"); ("ἱ", "Ἱ");
   ("ἲ", "Ἲ"); ("ἳ", "Ἳ"); ("ἴ", "Ἴ"); ("ἵ", "Ἵ"); ("ἶ", "Ἶ"); ("ἷ", "Ἷ");
   ("ὀ", "Ὀ"); ("ὁ", "Ὁ"); ("ὂ", "Ὂ"); ("ὃ", "Ὃ"); ("ὄ", "Ὄ"); ("ὅ", "Ὅ");
   ("ὐ", "Υ̓"); ("ὑ", "Ὑ"); ("ὒ", "Υ̓̀"); ("ὓ", "Ὓ"); ("ὔ", "Υ̓́");
   ("ὕ", "Ὕ"); ("ὖ", "Υ̓͂"); ("ὗ", "Ὗ"); ("ὠ", "Ὠ"); ("ὡ", "Ὡ");
   ("ὢ", "Ὢ"); ("ὣ", "Ὣ"); ("ὤ", "Ὤ"); ("ὥ", "Ὥ"); ("ὦ", "Ὦ"); ("ὧ", "Ὧ");
   ("ὰ", "Ὰ"); ("ά", "Ά"); ("ὲ", "Ὲ"); ("έ", "Έ"); ("ὴ", "Ὴ"); ("ή", "Ή");
   ("ὶ", "Ὶ"); ("ί", "Ί"); ("ὸ", "Ὸ"); ("ό", "Ό"); ("ὺ", "Ὺ"); ("ύ", "Ύ");
   ("ὼ", "Ὼ"); ("ώ", "Ώ"); ("ᾀ", "ἈΙ"); ("ᾁ", "ἉΙ"); ("ᾂ", "ἊΙ");
   ("ᾃ", "ἋΙ"); ("ᾄ", "ἌΙ"); ("ᾅ", "ἍΙ"); ("ᾆ", "ἎΙ"); ("ᾇ", "ἏΙ");
   ("ᾈ", "ἈΙ"); ("ᾉ", "ἉΙ"); ("ᾊ", "ἊΙ"); ("ᾋ", "ἋΙ"); ("ᾌ", "ἌΙ");
   ("ᾍ", "ἍΙ"); ("ᾎ", "ἎΙ"); ("ᾏ", "ἏΙ"); ("ᾐ", "ἨΙ"); ("ᾑ", "ἩΙ");
   ("ᾒ", "ἪΙ"); ("ᾓ", "ἫΙ"); ("ᾔ", "ἬΙ"); ("ᾕ", "ἭΙ"); ("ᾖ", "ἮΙ");
   ("ᾗ", "ἯΙ"); ("ᾘ", "ἨΙ"); ("ᾙ", "ἩΙ"); ("ᾚ", "ἪΙ"); ("ᾛ", "ἫΙ");
   ("ᾜ", "ἬΙ"); ("ᾝ", "ἭΙ"); ("ᾞ", "ἮΙ"); ("ᾟ", "ἯΙ"); ("ᾠ", "ὨΙ");
   ("ᾡ", "ὩΙ"); ("ᾢ", "ὪΙ"); ("ᾣ", "ὫΙ"); ("ᾤ", "ὬΙ"); ("ᾥ", "ὭΙ");
   ("ᾦ", "ὮΙ"); ("ᾧ", "ὯΙ"); ("ᾨ", "ὨΙ"); ("ᾩ", "ὩΙ"); ("ᾪ", "ὪΙ");
   ("ᾫ", "ὫΙ"); ("ᾬ", "ὬΙ"); ("ᾭ", "ὭΙ"); ("ᾮ", "ὮΙ"); ("ᾯ", "ὯΙ");
   ("ᾰ", "Ᾰ"); ("ᾱ", "Ᾱ"); ("ᾲ", "ᾺΙ"); ("ᾳ", "ΑΙ"); ("ᾴ", "ΆΙ");
   ("ᾶ", "Α͂"); ("ᾷ", "Α͂Ι"); ("ᾼ", "ΑΙ"); ("ι", "Ι"); ("ῂ", "ῊΙ");
   ("ῃ", "ΗΙ"); ("ῄ", "ΉΙ"); ("ῆ", "Η͂"); ("ῇ", "Η͂Ι"); ("ῌ", "ΗΙ");
   ("ῐ", "Ῐ"); ("ῑ", "Ῑ"); ("ῒ", "Ϊ̀"); ("ΐ", "Ϊ́"); ("ῖ", "Ι͂");
   ("ῗ", "Ϊ͂"); ("ῠ", "Ῠ"); ("ῡ", "Ῡ"); ("ῢ", "Ϋ̀"); ("ΰ", "Ϋ́");
   ("ῤ", "Ρ̓"); ("ῥ", "Ῥ"); ("ῦ", "Υ͂"); ("ῧ", "Ϋ͂"); ("ῲ", "ῺΙ");
   ("ῳ", "ΩΙ"); ("ῴ", "ΏΙ"); ("ῶ", "Ω͂"); ("ῷ", "Ω͂Ι"); ("ῼ", "ΩΙ");
   ("ⅎ", "Ⅎ"); ("ⅰ", "Ⅰ"); ("ⅱ", "Ⅱ"); ("ⅲ", "Ⅲ"); ("ⅳ", "Ⅳ"); ("ⅴ", "Ⅴ");
   ("ⅵ", "Ⅵ"); ("ⅶ", "Ⅶ"); ("ⅷ", "Ⅷ"); ("ⅸ", "Ⅸ"); ("ⅹ", "Ⅹ"); ("ⅺ", "Ⅺ");
   ("ⅻ", "Ⅻ"); ("ⅼ", "Ⅼ"); ("ⅽ", "Ⅽ"); ("ⅾ", "Ⅾ"); ("ⅿ", "Ⅿ"); ("ↄ", "Ↄ");
   ("ⓐ", "Ⓐ"); ("ⓑ", "Ⓑ"); ("ⓒ", "Ⓒ"); ("ⓓ", "Ⓓ"); ("ⓔ", "Ⓔ"); ("ⓕ", "Ⓕ");
   ("ⓖ", "Ⓖ"); ("ⓗ", "Ⓗ"); ("ⓘ", "Ⓘ"); ("ⓙ", "Ⓙ"); ("ⓚ", "Ⓚ"); ("ⓛ", "Ⓛ");
   ("ⓜ", "Ⓜ"); ("ⓝ", "Ⓝ"); ("ⓞ", "Ⓞ"); ("ⓟ", "Ⓟ"); ("ⓠ", "Ⓠ"); ("ⓡ", "Ⓡ");
   ("ⓢ", "Ⓢ"); ("ⓣ", "Ⓣ"); ("ⓤ", "Ⓤ"); ("ⓥ", "Ⓥ"); ("ⓦ", "Ⓦ"); ("ⓧ", "Ⓧ");
   ("ⓨ", "Ⓨ"); ("ⓩ", "Ⓩ"); ("ⰰ", "Ⰰ"); ("ⰱ", "Ⰱ"); ("ⰲ", "Ⰲ"); ("ⰳ", "Ⰳ");
   ("ⰴ", "Ⰴ"); ("ⰵ", "Ⰵ"); ("ⰶ", "Ⰶ"); ("ⰷ", "Ⰷ"); ("ⰸ", "Ⰸ"); ("ⰹ", "Ⰹ");
   ("ⰺ", "Ⰺ"); ("ⰻ", "Ⰻ"); ("ⰼ", "Ⰼ"); ("ⰽ", "Ⰽ"); ("ⰾ", "Ⰾ"); ("ⰿ", "Ⰿ");
   ("ⱀ", "Ⱀ"); ("ⱁ", "Ⱁ"); ("ⱂ", "Ⱂ"); ("ⱃ", "Ⱃ"); ("ⱄ", "Ⱄ"); ("ⱅ", "Ⱅ");
   ("ⱆ", "Ⱆ"); ("ⱇ", "Ⱇ"); ("ⱈ", "Ⱈ"); ("ⱉ", "Ⱉ"); ("ⱊ", "Ⱊ"); ("ⱋ", "Ⱋ");
   ("ⱌ", "Ⱌ"); ("ⱍ", "Ⱍ"); ("ⱎ", "Ⱎ"); ("ⱏ", "Ⱏ"); ("ⱐ", "Ⱐ"); ("ⱑ", "Ⱑ");
   ("ⱒ", "Ⱒ"); ("ⱓ", "Ⱓ"); ("ⱔ", "Ⱔ"); ("ⱕ", "Ⱕ"); ("ⱖ", "Ⱖ"); ("ⱗ", "Ⱗ");
   ("ⱘ", "Ⱘ"); ("ⱙ", "Ⱙ"); ("ⱚ", "Ⱚ"); ("ⱛ", "Ⱛ"); ("ⱜ", "Ⱜ"); ("ⱝ", "Ⱝ");
   ("ⱞ", "Ⱞ"); ("ⱟ", "Ⱟ"); ("ⱡ", "Ⱡ"); ("ⱥ", "Ⱥ"); ("ⱦ", "Ⱦ"); ("ⱨ", "Ⱨ");
   ("ⱪ", "Ⱪ"); ("ⱬ", "Ⱬ"); ("ⱳ", "Ⱳ"); ("ⱶ", "Ⱶ"); ("ⲁ", "Ⲁ"); ("ⲃ", "Ⲃ");
   ("ⲅ", "Ⲅ"); ("ⲇ", "Ⲇ"); ("ⲉ", "Ⲉ"); ("ⲋ", "Ⲋ"); ("ⲍ", "Ⲍ"); ("ⲏ", "Ⲏ");
   ("ⲑ", "Ⲑ"); ("ⲓ", "Ⲓ"); ("ⲕ", "Ⲕ"); ("ⲗ", "Ⲗ"); ("ⲙ", "Ⲙ"); ("ⲛ", "Ⲛ");
   ("ⲝ", "Ⲝ"); ("ⲟ", "Ⲟ"); ("ⲡ", "Ⲡ"); ("ⲣ", "Ⲣ"); ("ⲥ", "Ⲥ"); ("ⲧ", "Ⲧ");
   ("ⲩ", "Ⲩ"); ("ⲫ", "Ⲫ"); ("ⲭ", "Ⲭ"); ("ⲯ", "Ⲯ"); ("ⲱ", "Ⲱ"); ("ⲳ", "Ⲳ");
   ("ⲵ", "Ⲵ"); ("ⲷ", "Ⲷ"); ("ⲹ", "Ⲹ"); ("ⲻ", "Ⲻ"); ("ⲽ", "Ⲽ"); ("ⲿ", "Ⲿ");
   ("ⳁ", "Ⳁ"); ("ⳃ", "Ⳃ"); ("ⳅ", "Ⳅ"); ("ⳇ", "Ⳇ"); ("ⳉ", "Ⳉ"); ("ⳋ", "Ⳋ");
   ("ⳍ", "Ⳍ"); ("ⳏ", "Ⳏ"); ("ⳑ", "Ⳑ"); ("ⳓ", "Ⳓ"); ("ⳕ", "Ⳕ"); ("ⳗ", "Ⳗ");
   ("ⳙ", "Ⳙ"); ("ⳛ", "Ⳛ"); ("ⳝ", "Ⳝ"); ("ⳟ", "Ⳟ"); ("ⳡ", "Ⳡ"); ("ⳣ", "Ⳣ");
   ("ⳬ", "Ⳬ"); ("ⳮ", "Ⳮ"); ("ⳳ", "Ⳳ"); ("ⴀ", "Ⴀ"); ("ⴁ", "Ⴁ"); ("ⴂ", "Ⴂ");
   ("ⴃ", "Ⴃ"); ("ⴄ", "Ⴄ"); ("ⴅ", "Ⴅ"); ("ⴆ", "Ⴆ"); ("ⴇ", "Ⴇ"); ("ⴈ", "Ⴈ");
   ("ⴉ", "Ⴉ"); ("ⴊ", "Ⴊ"); ("ⴋ", "Ⴋ"); ("ⴌ", "Ⴌ"); ("ⴍ", "Ⴍ"); ("ⴎ", "Ⴎ");
   ("ⴏ", "Ⴏ"); ("ⴐ", "Ⴐ"); ("ⴑ", "Ⴑ"); ("ⴒ", "Ⴒ"); ("ⴓ", "Ⴓ"); ("ⴔ", "Ⴔ");
   ("ⴕ", "Ⴕ"); ("ⴖ", "Ⴖ"); ("ⴗ", "Ⴗ"); ("ⴘ", "Ⴘ"); ("ⴙ", "Ⴙ"); ("ⴚ", "Ⴚ");
   ("ⴛ", "Ⴛ"); ("ⴜ", "Ⴜ"); ("ⴝ", "Ⴝ"); ("ⴞ", "Ⴞ"); ("ⴟ", "Ⴟ"); ("ⴠ", "Ⴠ");
   ("ⴡ", "Ⴡ"); ("ⴢ", "Ⴢ"); ("ⴣ", "Ⴣ"); ("ⴤ", "Ⴤ"); ("ⴥ", "Ⴥ"); ("ⴧ", "Ⴧ");
   ("ⴭ", "Ⴭ"); ("ꙁ", "Ꙁ"); ("ꙃ", "Ꙃ"); ("ꙅ", "Ꙅ"); ("ꙇ", "Ꙇ"); ("ꙉ", "Ꙉ");
   ("ꙋ", "Ꙋ"); ("ꙍ", "Ꙍ"); ("ꙏ", "Ꙏ"); ("ꙑ", "Ꙑ"); ("ꙓ", "Ꙓ"); ("ꙕ", "Ꙕ");
   ("ꙗ", "Ꙗ"); ("ꙙ", "Ꙙ"); ("ꙛ", "Ꙛ"); ("ꙝ", "Ꙝ"); ("ꙟ", "Ꙟ"); ("ꙡ", "Ꙡ");
   ("ꙣ", "Ꙣ"); ("ꙥ", "Ꙥ"); ("ꙧ", "Ꙧ"); ("ꙩ", "Ꙩ"); ("ꙫ", "Ꙫ"); ("ꙭ", "Ꙭ");
   ("ꚁ", "Ꚁ"); ("ꚃ", "Ꚃ"); ("ꚅ", "Ꚅ"); ("ꚇ", "Ꚇ"); ("ꚉ", "Ꚉ"); ("ꚋ", "Ꚋ");
   ("ꚍ", "Ꚍ"); ("ꚏ", "Ꚏ"); ("ꚑ", "Ꚑ"); ("ꚓ", "Ꚓ"); ("ꚕ", "Ꚕ"); ("ꚗ", "Ꚗ");
   ("ꚙ", "Ꚙ"); ("ꚛ", "Ꚛ"); ("ꜣ", "Ꜣ"); ("ꜥ", "Ꜥ"); ("ꜧ", "Ꜧ"); ("ꜩ", "Ꜩ");
   ("ꜫ", "Ꜫ"); ("ꜭ", "Ꜭ"); ("ꜯ", "Ꜯ"); ("ꜳ", "Ꜳ"); ("ꜵ", "Ꜵ"); ("ꜷ", "Ꜷ");
   ("ꜹ", "Ꜹ"); ("ꜻ", "Ꜻ"); ("ꜽ", "Ꜽ"); ("ꜿ", "Ꜿ"); ("ꝁ", "Ꝁ"); ("ꝃ", "Ꝃ");
   ("ꝅ", "Ꝅ"); ("ꝇ", "Ꝇ"); ("ꝉ", "Ꝉ"); ("ꝋ", "Ꝋ"); ("ꝍ", "Ꝍ"); ("ꝏ", "Ꝏ");
   ("ꝑ", "Ꝑ"); ("ꝓ", "Ꝓ"); ("ꝕ", "Ꝕ"); ("ꝗ", "Ꝗ"); ("ꝙ", "Ꝙ"); ("ꝛ", "Ꝛ");
   ("ꝝ", "Ꝝ"); ("ꝟ", "Ꝟ"); ("ꝡ", "Ꝡ"); ("ꝣ", "Ꝣ"); ("ꝥ", "Ꝥ"); ("ꝧ", "Ꝧ");
   ("ꝩ", "Ꝩ"); ("ꝫ", "Ꝫ"); ("ꝭ", "Ꝭ"); ("ꝯ", "Ꝯ"); ("ꝺ", "Ꝺ"); ("ꝼ", "Ꝼ");
   ("ꝿ", "Ꝿ"); ("ꞁ", "Ꞁ"); ("ꞃ", "Ꞃ"); ("ꞅ", "Ꞅ"); ("ꞇ", "Ꞇ"); ("ꞌ", "Ꞌ");
   ("ꞑ", "Ꞑ"); ("ꞓ", "Ꞓ"); ("ꞔ", "Ꞔ"); ("ꞗ", "Ꞗ"); ("ꞙ", "Ꞙ"); ("ꞛ", "Ꞛ");
   ("ꞝ", "Ꞝ"); ("ꞟ", "Ꞟ"); ("ꞡ", "Ꞡ"); ("ꞣ", "Ꞣ"); ("ꞥ", "Ꞥ"); ("ꞧ", "Ꞧ");
   ("ꞩ", "Ꞩ"); ("ꞵ", "Ꞵ"); ("ꞷ", "Ꞷ"); ("ꞹ", "Ꞹ"); ("ꞻ", "Ꞻ"); ("ꞽ", "Ꞽ");
   ("ꞿ", "Ꞿ"); ("ꟁ", "Ꟁ"); ("ꟃ", "Ꟃ"); ("ꟈ", "Ꟈ"); ("ꟊ", "Ꟊ"); ("ꟑ", "Ꟑ");
   ("ꟗ", "Ꟗ"); ("ꟙ", "Ꟙ"); ("ꟶ", "Ꟶ"); ("ꭓ", "Ꭓ"); ("ꭰ", "Ꭰ"); ("ꭱ", "Ꭱ");
   ("ꭲ", "Ꭲ"); ("ꭳ", "Ꭳ"); ("ꭴ", "Ꭴ"); ("ꭵ", "Ꭵ"); ("ꭶ", "Ꭶ"); ("ꭷ", "Ꭷ");
   ("ꭸ", "Ꭸ"); ("ꭹ", "Ꭹ"); ("ꭺ", "Ꭺ"); ("ꭻ", "Ꭻ"); ("ꭼ", "Ꭼ"); ("ꭽ", "Ꭽ");
   ("ꭾ", "Ꭾ"); ("ꭿ", "Ꭿ"); ("ꮀ", "Ꮀ"); ("ꮁ", "Ꮁ"); ("ꮂ", "Ꮂ"); ("ꮃ", "Ꮃ");
   ("ꮄ", "Ꮄ"); ("ꮅ", "Ꮅ"); ("ꮆ", "Ꮆ"); ("ꮇ", "Ꮇ"); ("ꮈ", "Ꮈ"); ("ꮉ", "Ꮉ");
   ("ꮊ", "Ꮊ"); ("ꮋ", "Ꮋ"); ("ꮌ", "Ꮌ"); ("ꮍ", "Ꮍ"); ("ꮎ", "Ꮎ"); ("ꮏ", "Ꮏ");
   ("ꮐ", "Ꮐ"); ("ꮑ", "Ꮑ"); ("ꮒ", "Ꮒ"); ("ꮓ", "Ꮓ"); ("ꮔ", "Ꮔ"); ("ꮕ", "Ꮕ");
   ("ꮖ", "Ꮖ"); ("ꮗ", "Ꮗ"); ("ꮘ", "Ꮘ"); ("ꮙ", "Ꮙ"); ("ꮚ", "Ꮚ"); ("ꮛ", "Ꮛ");
   ("ꮜ", "Ꮜ"); ("ꮝ", "Ꮝ"); ("ꮞ", "Ꮞ"); ("ꮟ", "Ꮟ"); ("ꮠ", "Ꮠ"); ("ꮡ", "Ꮡ");
   ("ꮢ", "Ꮢ"); ("ꮣ", "Ꮣ"); ("ꮤ", "Ꮤ"); ("ꮥ", "Ꮥ"); ("ꮦ", "Ꮦ"); ("ꮧ", "Ꮧ");
   ("ꮨ", "Ꮨ"); ("ꮩ", "Ꮩ"); ("ꮪ", "Ꮪ"); ("ꮫ", "Ꮫ"); ("ꮬ", "Ꮬ"); ("ꮭ", "Ꮭ");
   ("ꮮ", "Ꮮ"); ("ꮯ", "Ꮯ"); ("ꮰ", "Ꮰ"); ("ꮱ", "Ꮱ"); ("ꮲ", "Ꮲ"); ("ꮳ", "Ꮳ");
   ("ꮴ", "Ꮴ"); ("ꮵ", "Ꮵ"); ("ꮶ", "Ꮶ"); ("ꮷ", "Ꮷ"); ("ꮸ", "Ꮸ"); ("ꮹ", "Ꮹ");
   ("ꮺ", "Ꮺ"); ("ꮻ", "Ꮻ"); ("ꮼ", "Ꮼ"); ("ꮽ", "Ꮽ"); ("ꮾ", "Ꮾ"); ("ꮿ", "Ꮿ");
   ("ﬀ", "FF"); ("ﬁ", "FI"); ("ﬂ", "FL"); ("ﬃ", "FFI"); ("ﬄ", "FFL");
   ("ﬅ", "ST"); ("ﬆ", "ST"); ("ﬓ", "ՄՆ"); ("ﬔ", "ՄԵ"); ("ﬕ", "ՄԻ");
   ("ﬖ", "ՎՆ"); ("ﬗ", "ՄԽ"); ("ａ", "Ａ"); ("ｂ", "Ｂ"); ("ｃ", "Ｃ");
   ("ｄ", "Ｄ"); ("ｅ", "Ｅ"); ("ｆ", "Ｆ"); ("ｇ", "Ｇ"); ("ｈ", "Ｈ"); ("ｉ", "Ｉ");
   ("ｊ", "Ｊ"); ("ｋ", "Ｋ"); ("ｌ", "Ｌ"); ("ｍ", "Ｍ"); ("ｎ", "Ｎ"); ("ｏ", "Ｏ");
   ("ｐ", "Ｐ"); ("ｑ", "Ｑ"); ("ｒ", "Ｒ"); ("ｓ", "Ｓ"); ("ｔ", "Ｔ"); ("ｕ", "Ｕ");
   ("ｖ", "Ｖ"); ("ｗ", "Ｗ"); ("ｘ", "Ｘ"); ("ｙ", "Ｙ"); ("ｚ", "Ｚ"); ("𐐨", "𐐀");
   ("𐐩", "𐐁"); ("𐐪", "𐐂"); ("𐐫", "𐐃"); ("𐐬", "𐐄"); ("𐐭", "𐐅"); ("𐐮", "𐐆");
   ("𐐯", "𐐇"); ("𐐰", "𐐈"); ("𐐱", "𐐉"); ("𐐲", "𐐊"); ("𐐳", "𐐋"); ("𐐴", "𐐌");
   ("𐐵", "𐐍"); ("𐐶", "𐐎"); ("𐐷", "𐐏"); ("𐐸", "𐐐"); ("𐐹", "𐐑"); ("𐐺", "𐐒");
   ("𐐻", "𐐓"); ("𐐼", "𐐔"); ("𐐽", "𐐕"); ("𐐾", "𐐖"); ("𐐿", "𐐗"); ("𐑀", "𐐘");
   ("𐑁", "𐐙"); ("𐑂", "𐐚"); ("𐑃", "𐐛"); ("𐑄", "𐐜"); ("𐑅", "𐐝"); ("𐑆", "𐐞");
   ("𐑇", "𐐟"); ("𐑈", "𐐠"); ("𐑉", "𐐡"); ("𐑊", "𐐢"); ("𐑋", "𐐣"); ("𐑌", "𐐤");
   ("𐑍", "𐐥"); ("𐑎", "𐐦"); ("𐑏", "𐐧"); ("𐓘", "𐒰"); ("𐓙", "𐒱"); ("𐓚", "𐒲");
   ("𐓛", "𐒳"); ("𐓜", "𐒴"); ("𐓝", "𐒵"); ("𐓞", "𐒶"); ("𐓟", "𐒷"); ("𐓠", "𐒸");
   ("𐓡", "𐒹"); ("𐓢", "𐒺"); ("𐓣", "𐒻"); ("𐓤", "𐒼"); ("𐓥", "𐒽"); ("𐓦", "𐒾");
   ("𐓧", "𐒿"); ("𐓨", "𐓀"); ("𐓩", "𐓁"); ("𐓪", "𐓂"); ("𐓫", "𐓃"); ("𐓬", "𐓄");
   ("𐓭", "𐓅"); ("𐓮", "𐓆"); ("𐓯", "𐓇"); ("𐓰", "𐓈"); ("𐓱", "𐓉"); ("𐓲", "𐓊");
   ("𐓳", "𐓋"); ("𐓴", "𐓌"); ("𐓵", "𐓍"); ("𐓶", "𐓎"); ("𐓷", "𐓏"); ("𐓸", "𐓐");
   ("𐓹", "𐓑"); ("𐓺", "𐓒"); ("𐓻", "𐓓"); ("𐖗", "𐕰"); ("𐖘", "𐕱"); ("𐖙", "𐕲");
   ("𐖚", "𐕳"); ("𐖛", "𐕴"); ("𐖜", "𐕵"); ("𐖝", "𐕶"); ("𐖞", "𐕷"); ("𐖟", "𐕸");
   ("𐖠", "𐕹"); ("𐖡", "𐕺"); ("𐖣", "𐕼"); ("𐖤", "𐕽"); ("𐖥", "𐕾"); ("𐖦", "𐕿");
   ("𐖧", "𐖀"); ("𐖨", "𐖁"); ("𐖩", "𐖂"); ("𐖪", "𐖃"); ("𐖫", "𐖄"); ("𐖬", "𐖅");
   ("𐖭", "𐖆"); ("𐖮", "𐖇"); ("𐖯", "𐖈"); ("𐖰", "𐖉"); ("𐖱", "𐖊"); ("𐖳", "𐖌");
   ("𐖴", "𐖍"); ("𐖵", "𐖎"); ("𐖶", "𐖏"); ("𐖷", "𐖐"); ("𐖸", "𐖑"); ("𐖹", "𐖒");
   ("𐖻", "𐖔"); ("𐖼", "𐖕"); ("𐳀", "𐲀"); ("𐳁", "𐲁"); ("𐳂", "𐲂"); ("𐳃", "𐲃");
   ("𐳄", "𐲄"); ("𐳅", "𐲅"); ("𐳆", "𐲆"); ("𐳇", "𐲇"); ("𐳈", "𐲈"); ("𐳉", "𐲉");
   ("𐳊", "𐲊"); ("𐳋", "𐲋"); ("𐳌", "𐲌"); ("𐳍", "𐲍"); ("𐳎", "𐲎"); ("𐳏", "𐲏");
   ("𐳐", "𐲐"); ("𐳑", "𐲑"); ("𐳒", "𐲒"); ("𐳓", "𐲓"); ("𐳔", "𐲔"); ("𐳕", "𐲕");
   ("𐳖", "𐲖"); ("𐳗", "𐲗"); ("𐳘", "𐲘"); ("𐳙", "𐲙"); ("𐳚", "𐲚"); ("𐳛", "𐲛");
   ("𐳜", "𐲜"); ("𐳝", "𐲝"); ("𐳞", "𐲞"); ("𐳟", "𐲟"); ("𐳠", "𐲠"); ("𐳡", "𐲡");
   ("𐳢", "𐲢"); ("𐳣", "𐲣"); ("𐳤", "𐲤"); ("𐳥", "𐲥"); ("𐳦", "𐲦"); ("𐳧", "𐲧");
   ("𐳨", "𐲨"); ("𐳩", "𐲩"); ("𐳪", "𐲪"); ("𐳫", "𐲫"); ("𐳬", "𐲬"); ("𐳭", "𐲭");
   ("𐳮", "𐲮"); ("𐳯", "𐲯"); ("𐳰", "𐲰"); ("𐳱", "𐲱"); ("𐳲", "𐲲"); ("𑣀", "𑢠");
   ("𑣁", "𑢡"); ("𑣂", "𑢢"); ("𑣃", "𑢣"); ("𑣄", "𑢤"); ("𑣅", "𑢥"); ("𑣆", "𑢦");
   ("𑣇", "𑢧"); ("𑣈", "𑢨"); ("𑣉", "𑢩"); ("𑣊", "𑢪"); ("𑣋", "𑢫"); ("𑣌", "𑢬");
   ("𑣍", "𑢭"); ("𑣎", "𑢮"); ("𑣏", "𑢯"); ("𑣐", "𑢰"); ("𑣑", "𑢱"); ("𑣒", "𑢲");
   ("𑣓", "𑢳"); ("𑣔", "𑢴"); ("𑣕", "𑢵"); ("𑣖", "𑢶"); ("𑣗", "𑢷"); ("𑣘", "𑢸");
   ("𑣙", "𑢹"); ("𑣚", "𑢺"); ("𑣛", "𑢻"); ("𑣜", "𑢼"); ("𑣝", "𑢽"); ("𑣞", "𑢾");
   ("𑣟", "𑢿"); ("𖹠", "𖹀"); ("𖹡", "𖹁"); ("𖹢", "𖹂"); ("𖹣", "𖹃"); ("𖹤", "𖹄");
   ("𖹥", "𖹅"); ("𖹦", "𖹆"); ("𖹧", "𖹇"); ("𖹨", "𖹈"); ("𖹩", "𖹉"); ("𖹪", "𖹊");
   ("𖹫", "𖹋"); ("𖹬", "𖹌"); ("𖹭", "𖹍"); ("𖹮", "𖹎"); ("𖹯", "𖹏"); ("𖹰", "𖹐");
   ("𖹱", "𖹑"); ("𖹲", "𖹒"); ("𖹳", "𖹓"); ("𖹴", "𖹔"); ("𖹵", "𖹕"); ("𖹶", "𖹖");
   ("𖹷", "𖹗"); ("𖹸", "𖹘"); ("𖹹", "𖹙"); ("𖹺", "𖹚"); ("𖹻", "𖹛"); ("𖹼", "𖹜");
   ("𖹽", "𖹝"); ("𖹾", "𖹞"); ("𖹿", "𖹟"); ("𞤢", "𞤀"); ("𞤣", "𞤁"); ("𞤤", "𞤂");
   ("𞤥", "𞤃"); ("𞤦", "𞤄"); ("𞤧", "𞤅"); ("𞤨", "𞤆"); ("𞤩", "𞤇"); ("𞤪", "𞤈");
   ("𞤫", "𞤉"); ("𞤬", "𞤊"); ("𞤭", "𞤋"); ("𞤮", "𞤌"); ("𞤯", "𞤍"); ("𞤰", "𞤎");
   ("𞤱", "𞤏"); ("𞤲", "𞤐"); ("𞤳", "𞤑"); ("𞤴", "𞤒"); ("𞤵", "𞤓"); ("𞤶", "𞤔");
   ("𞤷", "𞤕"); ("𞤸", "𞤖"); ("𞤹", "𞤗"); ("𞤺", "𞤘"); ("𞤻", "𞤙"); ("𞤼", "𞤚");
   ("𞤽", "𞤛"); ("𞤾", "𞤜"); ("𞤿", "𞤝"); ("𞥀", "𞤞"); ("𞥁", "𞤟"); ("𞥂", "𞤠");
   ("𞥃", "𞤡")].

Definition isAscii (c : ascii) : bool := (nat_of_ascii c <? 128)%nat.

Definition upperChar (c : ascii) : ascii :=
  let n := nat_of_ascii c in
  if ((97 <=? n) && (n <=? 122))%nat then ascii_of_nat (n - 32) else c.

(** The entry of the table for the character at the head of [s]. *)
Definition upperCaseEntry (s : string) : option (string * string) :=
  find (fun entry => prefix (fst entry) s) upperCaseTable.

(** [toUpperCase] from the head of [s], of which the first [skipped]
    bytes, the rest of a character already converted, are passed over. *)
Fixpoint toUpperCaseFrom (skipped : nat) (s : string) : string :=
  match s with
  | EmptyString => EmptyString
  | String c rest =>
      match skipped with
      | S n => toUpperCaseFrom n rest
      | O =>
          if isAscii c then String (upperChar c) (toUpperCaseFrom 0 rest)
          else match upperCaseEntry s with
               | Some (lower, upper) =>
                   (upper ++ toUpperCaseFrom (String.length lower - 1) rest)%string
               | None => String c (toUpperCaseFrom 0 rest)
               end
      end
  end.

(** [String.prototype.toUpperCase] *)
Definition toUpperCase (s : string) : string := toUpperCaseFrom 0 s.

(** ** Searching, joining and converting *)

(** [String.prototype.includes] *)
Fixpoint includes (s needle : string) : bool :=
  prefix needle s
  || match s with
     | EmptyString => false
     | String _ rest => includes rest needle
     end.

(** [v.toUpperCase()] on a dynamic value: only strings have the method. *)
Definition call_toUpperCase (v : value) : result string :=
  match v with
  | VStr s => Ok (toUpperCase s)
  | _ => Throw TypeError
  end.

(** [v.includes(needle)] on a dynamic value: strings search for a
    substring, arrays for an element strictly equal to the string. *)
Definition call_includes (v : value) (needle : string) : result bool :=
  match v with
  | VStr s => Ok (includes s needle)
  | VArr items =>
      Ok (existsb (fun x => match x with VStr s => s =? needle | _ => false end)
            items)
  | _ => Throw TypeError
  end.

(** [v !== s] for a string [s] *)
Definition strictNotEqualString (v : value) (s : string) : bool :=
  match v with
  | VStr s' => negb (s' =? s)
  | _ => true
  end.

(** [Array.prototype.join] on an array of strings *)
Definition join (sep : string) (l : list string) : string :=
  String.concat sep l.

(** The two conversions between strings and numbers are left to the
    engine: [StringToNumber] is the ECMAScript operation of that name and
    [NumberToString] is [Number::toString] in radix 10. *)
Class Engine : Type := {
  StringToNumber : string -> float;
  NumberToString : float -> string
}.

Section Conversions.

Context {E : Engine}.

(** [ToString]: an array is joined with commas, [undefined] and [null]
    elements giving the empty string; a plain object gives
    ["[object Object]"] through the inherited [toString], unless an own
    [toString] property (never callable here) hides it, in which case no
    primitive value is found and the conversion throws. *)
Fixpoint ToString (v : value) : result string :=
  match v with
  | VUndefined => Ok "undefined"
  | VNull => Ok "null"
  | VBool true => Ok "true"
  | VBool false => Ok "false"
  | VNum n => Ok (NumberToString n)
  | VStr s => Ok s
  | VArr items =>
      (fix joinItems (l : list value) : result string :=
         match l with
         | [] => Ok ""
         | x :: rest =>
             s <- match x with
                  | VUndefined | VNull => Ok ""
                  | _ => ToString x
                  end ;;
             match rest with
             | [] => Ok s
             | _ :: _ => r <- joinItems rest ;; Ok (s ++ "," ++ r)%string
             end
         end) items
  | VObj props =>
      if hasOwnProperty "toString" props then Throw TypeError
      else Ok "[object Object]"
  end.

(** [Number(v)] *)
Definition Number (v : value) : result float :=
  match v with
  | VUndefined => Ok nan
  | VNull => Ok 0%float
  | VBool true => Ok 1%float
  | VBool false => Ok 0%float
  | VNum n => Ok n
  | VStr s => Ok (StringToNumber s)
  | VArr _ | VObj _ => s <- ToString v ;; Ok (StringToNumber s)
  end.

End Conversions.

(** ** The data [logStat] reads *)

(** An event of a function is an object; its first key names its type. *)
Definition Event : Type := list (string * value).

(** A function of the service, an object. [events] is [None] when
    [func.events] is absent (or otherwise falsy) and [Some] of the array
    when it is an array of event objects. The services on which the
    source throws a [TypeError] before it reads an authorizer are not
    among these: a function that is [null], an [events] that is truthy
    without being an array, and an event that is [null] or [undefined]. *)
Module FunctionSpec.
Record t : Type := {
  memorySize : value;
  timeout : value;
  events : option (list Event)
}.
End FunctionSpec.

(** [serverless.service]; [functions] lists the functions in the order in
    which [_.forEach] visits them. *)
Module Service.
Record t : Type := {
  resources : value;
  provider : value;
  functions : list (string * FunctionSpec.t);
  plugins : value;
  custom : value
}.
End Service.

Module ProcessedInput.
Record t : Type := {
  options : list (string * value);
  commands : list string
}.
End ProcessedInput.

Module Config.
Record t : Type := {
  servicePath : value
}.
End Config.

Module Serverless.
Record t : Type := {
  service : Service.t;
  processedInput : ProcessedInput.t;
  config : Config.t;
  version : value
}.
End Serverless.

(** The [Utils] instance: [this.serverless] is set by the constructor. *)
Module Utils.
Record t : Type := {
  serverless : Serverless.t
}.
End Utils.

(** What [logStat] obtains from its collaborators and from the process:
    the outcome of [configUtils.getConfig()], the two [Date] readings,
    [process], [isDockerContainer()] and [ci-info]. *)
Module Host.
Record t : Type := {
  getConfig : result value;
  Date_getTime : float;
  Date_toString : string;
  process_platform : string;
  process_env_SERVERLESS_DASHBOARD : value;
  process_version : string;
  isDockerContainer : value;
  ci_isCI : value;
  ci_name : value
}.
End Host.

(** ** The payload [logStat] assembles *)

Module MemorySizeAndTimeout.
Record t : Type := {
  memorySize : float;
  timeout : float
}.
End MemorySizeAndTimeout.

(** An entry of [numberOfEventsPerType]; [name] is [None] when it is
    [undefined] (the event object has no key). *)
Module EventCount.
Record t : Type := {
  name : option string;
  count : nat
}.
End EventCount.

Module Command.
Record t : Type := {
  name : string;
  filteredOptions : list (string * value);
  isRunInService : bool
}.
End Command.

Module ServiceStats.
Record t : Type := {
  numberOfCustomPlugins : nat;
  hasCustomResourcesDefined : bool;
  hasVariablesInCustomSectionDefined : bool;
  hasCustomVariableSyntaxDefined : bool
}.
End ServiceStats.

Module ProviderStats.
Record t : Type := {
  name : value;
  runtime : value;
  stage : value;
  region : value
}.
End ProviderStats.

Module FunctionStats.
Record t : Type := {
  numberOfFunctions : nat;
  memorySizeAndTimeoutPerFunction : list MemorySizeAndTimeout.t
}.
End FunctionStats.

Module EventStats.
Record t : Type := {
  numberOfEvents : nat;
  numberOfEventsPerType : list EventCount.t;
  eventNamesPerFunction : list (list (option string))
}.
End EventStats.

Module General.
Record t : Type := {
  userId : value;
  context : value;
  timestamp : float;
  timezone : string;
  operatingSystem : string;
  userAgent : string;
  serverlessVersion : value;
  nodeJsVersion : string;
  isDockerContainer : value;
  isCISystem : value;
  ciSystem : value;
  platformId : option value
}.
End General.

Module Aws.
Record t : Type := {
  hasIAMAuthorizer : bool;
  hasCustomAuthorizer : bool;
  hasCognitoAuthorizer : bool
}.
End Aws.

Module Properties.
Record t : Type := {
  version : nat;
  command : Command.t;
  service : ServiceStats.t;
  provider : ProviderStats.t;
  functions : FunctionStats.t;
  events : EventStats.t;
  general : General.t;
  aws : option Aws.t
}.
End Properties.

Module Data.
Record t : Type := {
  userId : value;
  event : string;
  properties : Properties.t
}.
End Data.

(** The local variables of the event loop. *)
Module Vars.
Record t : Type := {
  numberOfEventsPerType : list EventCount.t;
  eventNamesPerFunction : list (list (option string));
  hasIAMAuthorizer : bool;
  hasCustomAuthorizer : bool;
  hasCognitoAuthorizer : bool
}.
End Vars.

(** How the promise returned by [logStat] settles. *)
Inductive promise : Type :=
| Fulfilled (v : value)
| Rejected (e : exn).

(** ** [logStat] *)

(** Conditions on an expression that is evaluated where it stands. *)
Definition isTruthy (c : result value) : result bool :=
  v <- c ;; Ok (truthy v).

Definition typeofIs (c : result value) (s : string) : result bool :=
  v <- c ;; Ok (typeof v =? s).

Definition upperCaseIs (c : result value) (s : string) : result bool :=
  v <- c ;; u <- call_toUpperCase v ;; Ok (u =? s).

Definition includesString (c : result value) (s : string) : result bool :=
  v <- c ;; call_includes v s.

Definition notC (c : result bool) : result bool :=
  b <- c ;; Ok (negb b).

(** [a || b] on numbers: [b] is evaluated only when [a] is [0] or [NaN]. *)
Definition orNumber (a b : result float) : result float :=
  n <- a ;; if truthyNumber n then Ok n else b.

Definition whitelistedOptionKeys : list string := ["help"; "disable"; "enable"].

Definition filteredOptions (options : list (string * value))
  : list (string * value) :=
  let optionKeys := map fst options in
  let filteredOptionKeys :=
    filter (fun key => existsb (String.eqb key) whitelistedOptionKeys)
      optionKeys in
  map (fun key => (key, lookup key options)) filteredOptionKeys.

(** [_.find(numberOfEventsPerType, { name })] with [count++] on the entry
    found, or the [push] of a new entry. *)
Definition sameName (a b : option string) : bool :=
  match a, b with
  | Some x, Some y => x =? y
  | None, None => true
  | _, _ => false
  end.

Fixpoint countEvent (name : option string) (l : list EventCount.t)
  : list EventCount.t :=
  match l with
  | [] => [{| EventCount.name := name; EventCount.count := 1 |}]
  | alreadyPresentEvent :: rest =>
      if sameName (EventCount.name alreadyPresentEvent) name
      then {| EventCount.name := EventCount.name alreadyPresentEvent;
              EventCount.count := S (EventCount.count alreadyPresentEvent) |}
           :: rest
      else alreadyPresentEvent :: countEvent name rest
  end.

Definition defaultVariableSyntax : string :=
  "\${([ :a-zA-Z0-9._,\-\/\(\)]+?)}".

(** [str.match(/([A-Z]+[+-][0-9]+)/)]: the leftmost run of capitals that
    is followed by a sign and digits, with all the digits that follow. *)
Definition isCapital (c : ascii) : bool :=
  let n := nat_of_ascii c in ((65 <=? n) && (n <=? 90))%nat.

Definition isDigit (c : ascii) : bool :=
  let n := nat_of_ascii c in ((48 <=? n) && (n <=? 57))%nat.

Definition isSign (c : ascii) : bool :=
  (c =? "+")%char || (c =? "-")%char.

Fixpoint span (p : ascii -> bool) (s : string) : string * string :=
  match s with
  | EmptyString => (EmptyString, EmptyString)
  | String c rest =>
      if p c then let (a, b) := span p rest in (String c a, b)
      else (EmptyString, s)
  end.

Definition matchTimezoneAt (s : string) : option string :=
  match span isCapital s with
  | (String _ _ as capitals, String c rest) =>
      if isSign c then
        match span isDigit rest with
        | (String _ _ as digits, _) => Some (capitals ++ String c digits)%string
        | _ => None
        end
      else None
  | _ => None
  end.

Fixpoint matchTimezone (s : string) : option string :=
  match matchTimezoneAt s with
  | Some m => Some m
  | None =>
      match s with
      | EmptyString => None
      | String _ rest => matchTimezone rest
      end
  end.

Section LogStat.

Context {E : Engine}.

(** The body of the first [_.forEach(functions, ...)] callback; the
    provider is that of [this.serverless], as in the source. *)
Definition memorySizeAndTimeoutObject (this : Utils.t) (func : FunctionSpec.t)
  : result MemorySizeAndTimeout.t :=
  let this_provider := Service.provider (Serverless.service (Utils.serverless this)) in
  memorySize <-
    orNumber (Number (FunctionSpec.memorySize func))
      (orNumber (v <- get this_provider "memorySize" ;; Number v)
         (Ok 1024%float)) ;;
  timeout <-
    orNumber (Number (FunctionSpec.timeout func))
      (orNumber (v <- get this_provider "timeout" ;; Number v)
         (Ok 6%float)) ;;
  Ok {| MemorySizeAndTimeout.memorySize := memorySize;
        MemorySizeAndTimeout.timeout := timeout |}.

Definition memorySizeAndTimeoutPerFunction (this : Utils.t)
  (functions : list (string * FunctionSpec.t))
  : result (list MemorySizeAndTimeout.t) :=
  let numberOfFunctions := List.length functions in
  if (0 <? numberOfFunctions)%nat then
    forEach
      (fun pushed func =>
         memorySizeAndTimeoutObject <- memorySizeAndTimeoutObject this func ;;
         Ok (pushed ++ [memorySizeAndTimeoutObject]))
      (map snd functions) []
  else Ok [].

End LogStat.

(** The three authorizer tests made for an event whose [http.authorizer]
    is truthy. *)
Definition classifyAuthorizer (event : value) (vars : Vars.t) : result Vars.t :=
  let authorizer := (http <- get event "http" ;; get http "authorizer") in
  let authorizer_type := (a <- authorizer ;; get a "type") in
  let authorizer_name := (a <- authorizer ;; get a "name") in
  let authorizer_arn := (a <- authorizer ;; get a "arn") in
  isIAM <-
    (typeofIs authorizer "string" &&& upperCaseIs authorizer "AWS_IAM")
    ||| (isTruthy authorizer_type &&& upperCaseIs authorizer_type "AWS_IAM") ;;
  isCustom <-
    (typeofIs authorizer "string"
     &&& notC (upperCaseIs authorizer "AWS_IAM")
     &&& notC (includesString authorizer "arn:aws:cognito-idp"))
    ||| isTruthy authorizer_name
    ||| (isTruthy authorizer_arn
         &&& includesString authorizer_arn "arn:aws:lambda") ;;
  isCognito <-
    (typeofIs authorizer "string"
     &&& includesString authorizer "arn:aws:cognito-idp")
    ||| (isTruthy authorizer_arn
         &&& includesString authorizer_arn "arn:aws:cognito-idp") ;;
  Ok {| Vars.numberOfEventsPerType := Vars.numberOfEventsPerType vars;
        Vars.eventNamesPerFunction := Vars.eventNamesPerFunction vars;
        Vars.hasIAMAuthorizer :=
          if isIAM then true else Vars.hasIAMAuthorizer vars;
        Vars.hasCustomAuthorizer :=
          if isCustom then true else Vars.hasCustomAuthorizer vars;
        Vars.hasCognitoAuthorizer :=
          if isCognito then true else Vars.hasCognitoAuthorizer vars |}.

(** The body of the [func.events.forEach] callback; [funcEventsArray] is
    the array of the enclosing function. *)
Definition eventCallback (st : Vars.t * list (option string)) (event : Event)
  : result (Vars.t * list (option string)) :=
  let (vars, funcEventsArray) := st in
  let name := hd_error (map fst event) in
  let funcEventsArray := funcEventsArray ++ [name] in
  let vars :=
    {| Vars.numberOfEventsPerType :=
         countEvent name (Vars.numberOfEventsPerType vars);
       Vars.eventNamesPerFunction := Vars.eventNamesPerFunction vars;
       Vars.hasIAMAuthorizer := Vars.hasIAMAuthorizer vars;
       Vars.hasCustomAuthorizer := Vars.hasCustomAuthorizer vars;
       Vars.hasCognitoAuthorizer := Vars.hasCognitoAuthorizer vars |} in
  let event_http := get (VObj event) "http" in
  hasAuthorizer <-
    isTruthy event_http
    &&& isTruthy (http <- event_http ;; get http "authorizer") ;;
  if hasAuthorizer then
    vars <- classifyAuthorizer (VObj event) vars ;;
    Ok (vars, funcEventsArray)
  else Ok (vars, funcEventsArray).

(** The body of the second [_.forEach(functions, ...)] callback. *)
Definition functionCallback (vars : Vars.t) (func : FunctionSpec.t)
  : result Vars.t :=
  match FunctionSpec.events func with
  | Some events =>
      st <- forEach eventCallback events (vars, []) ;;
      let (vars, funcEventsArray) := st in
      Ok {| Vars.numberOfEventsPerType := Vars.numberOfEventsPerType vars;
            Vars.eventNamesPerFunction :=
              Vars.eventNamesPerFunction vars ++ [funcEventsArray];
            Vars.hasIAMAuthorizer := Vars.hasIAMAuthorizer vars;
            Vars.hasCustomAuthorizer := Vars.hasCustomAuthorizer vars;
            Vars.hasCognitoAuthorizer := Vars.hasCognitoAuthorizer vars |}
  | None => Ok vars
  end.

Definition initialVars : Vars.t :=
  {| Vars.numberOfEventsPerType := [];
     Vars.eventNamesPerFunction := [];
     Vars.hasIAMAuthorizer := false;
     Vars.hasCustomAuthorizer := false;
     Vars.hasCognitoAuthorizer := false |}.

(** The event related information retrieval. *)
Definition eventInformation (functions : list (string * FunctionSpec.t))
  : result Vars.t :=
  let numberOfFunctions := List.length functions in
  if (0 <? numberOfFunctions)%nat then
    forEach functionCallback (map snd functions) initialVars
  else Ok initialVars.

Definition hasKeys (c : result value) : result bool :=
  v <- c ;; keys <- Object_keys v ;; Ok (0 <? List.length keys)%nat.

Definition hasCustomResourcesDefined (resources : value) : result bool :=
  let hasCustomResourcesDefined := false in
  inResources <-
    Ok (truthy resources)
    &&& isTruthy (get resources "Resources")
    &&& hasKeys (get resources "Resources") ;;
  let hasCustomResourcesDefined :=
    if inResources then true else hasCustomResourcesDefined in
  inOutputs <-
    Ok (truthy resources)
    &&& isTruthy (get resources "Outputs")
    &&& hasKeys (get resources "Outputs") ;;
  let hasCustomResourcesDefined :=
    if inOutputs then true else hasCustomResourcesDefined in
  Ok hasCustomResourcesDefined.

Definition hasCustomVariableSyntaxDefined (provider : value) : result bool :=
  Ok (truthy provider)
  &&& isTruthy (get provider "variableSyntax")
  &&& (v <- get provider "variableSyntax" ;;
       Ok (strictNotEqualString v defaultVariableSyntax)).

(** Whether the [aws] section is attached. *)
Definition isAwsProvider (provider : value) : result bool :=
  Ok (truthy provider)
  &&& isTruthy (get provider "name")
  &&& upperCaseIs (get provider "name") "AWS".

Section Executor.

Context {E : Engine}.

(** The function passed to [new BbPromise]: [Ok None] is [resolve()],
    [Ok (Some data)] is [resolve(data)], and an exception thrown on the
    way rejects the promise. *)
Definition executor (host : Host.t) (this : Utils.t)
  (serverless : Serverless.t) (context : value) : result (option Data.t) :=
  let context := if truthy context then context else VStr "usage" in
  let service := Serverless.service serverless in
  let resources := Service.resources service in
  let provider := Service.provider service in
  let functions := Service.functions service in
  let options := ProcessedInput.options (Serverless.processedInput serverless) in
  let commands := ProcessedInput.commands (Serverless.processedInput serverless) in
  config <- Host.getConfig host ;;
  userId <- get config "frameworkId" ;;
  trackingDisabled <- get config "trackingDisabled" ;;
  if truthy trackingDisabled then Ok None
  else
    let filteredOptions := filteredOptions options in
    let numberOfFunctions := List.length functions in
    memorySizeAndTimeoutPerFunction <-
      memorySizeAndTimeoutPerFunction this functions ;;
    vars <- eventInformation functions ;;
    let numberOfEventsPerType := Vars.numberOfEventsPerType vars in
    let eventNamesPerFunction := Vars.eventNamesPerFunction vars in
    hasCustomResourcesDefined <- hasCustomResourcesDefined resources ;;
    hasCustomVariableSyntaxDefined <- hasCustomVariableSyntaxDefined provider ;;
    provider_name <- get provider "name" ;;
    provider_runtime <- get provider "runtime" ;;
    provider_stage <- get provider "stage" ;;
    provider_region <- get provider "region" ;;
    timezone <-
      match matchTimezone (Host.Date_toString host) with
      | Some m => Ok m
      | None => Throw TypeError
      end ;;
    config_userId <- get config "userId" ;;
    isAws <- isAwsProvider provider ;;
    Ok (Some
      {| Data.userId := userId;
         Data.event := "framework_stat";
         Data.properties :=
           {| Properties.version := 2;
              Properties.command :=
                {| Command.name := join " " commands;
                   Command.filteredOptions := filteredOptions;
                   Command.isRunInService :=
                     truthy (Config.servicePath (Serverless.config serverless)) |};
              Properties.service :=
                {| ServiceStats.numberOfCustomPlugins :=
                     lodash_size (Service.plugins service);
                   ServiceStats.hasCustomResourcesDefined :=
                     hasCustomResourcesDefined;
                   ServiceStats.hasVariablesInCustomSectionDefined :=
                     truthy (Service.custom service);
                   ServiceStats.hasCustomVariableSyntaxDefined :=
                     hasCustomVariableSyntaxDefined |};
              Properties.provider :=
                {| ProviderStats.name := provider_name;
                   ProviderStats.runtime := provider_runtime;
                   ProviderStats.stage := provider_stage;
                   ProviderStats.region := provider_region |};
              Properties.functions :=
                {| FunctionStats.numberOfFunctions := numberOfFunctions;
                   FunctionStats.memorySizeAndTimeoutPerFunction :=
                     memorySizeAndTimeoutPerFunction |};
              Properties.events :=
                {| EventStats.numberOfEvents := List.length numberOfEventsPerType;
                   EventStats.numberOfEventsPerType := numberOfEventsPerType;
                   EventStats.eventNamesPerFunction := eventNamesPerFunction |};
              Properties.general :=
                {| General.userId := userId;
                   General.context := context;
                   General.timestamp := Host.Date_getTime host;
                   General.timezone := timezone;
                   General.operatingSystem := Host.process_platform host;
                   General.userAgent :=
                     if truthy (Host.process_env_SERVERLESS_DASHBOARD host)
                     then "dashboard" else "cli";
                   General.serverlessVersion := Serverless.version serverless;
                   General.nodeJsVersion := Host.process_version host;
                   General.isDockerContainer := Host.isDockerContainer host;
                   General.isCISystem := Host.ci_isCI host;
                   General.ciSystem := Host.ci_name host;
                   General.platformId :=
                     if truthy config_userId then Some config_userId else None |};
              Properties.aws :=
                if isAws then
                  Some {| Aws.hasIAMAuthorizer := Vars.hasIAMAuthorizer vars;
                          Aws.hasCustomAuthorizer := Vars.hasCustomAuthorizer vars;
                          Aws.hasCognitoAuthorizer := Vars.hasCognitoAuthorizer vars |}
                else None |} |}).

(** [segment.track(data)]: the payload is handed to the sink. *)
Definition segment_track (data : Data.t) (tracked : list Data.t) : list Data.t :=
  tracked ++ [data].

(** [logStat(serverless, context)]: how the returned promise settles, and
    the payloads handed to [segment.track] so far. *)
Definition logStat (host : Host.t) (this : Utils.t) (serverless : Serverless.t)
  (context : value) (tracked : list Data.t) : promise * list Data.t :=
  match executor host this serverless context with
  | Throw e => (Rejected e, tracked)
  | Ok (Some data) => (Fulfilled VUndefined, segment_track data tracked)
  | Ok None => (Fulfilled VUndefined, tracked)
  end.

End Executor.

(** ** Notions used to state the properties *)

(** [Object.keys(event)[0]] *)
Definition eventName (event : Event) : option string :=
  hd_error (map fst event).

(** [event.http.authorizer], [undefined] when [event.http] has none. *)
Definition authorizerOf (event : Event) : value :=
  prop (prop (VObj event) "http") "authorizer".

(** The [events] arrays of the functions that have one, in the order of
    the functions. *)
Definition eventArrays (functions : list (string * FunctionSpec.t))
  : list (list Event) :=
  flat_map
    (fun f => match FunctionSpec.events (snd f) with
              | Some events => [events]
              | None => []
              end)
    functions.

(** Every event of the service, and the names of all of them. *)
Definition allEvents (functions : list (string * FunctionSpec.t)) : list Event :=
  List.concat (eventArrays functions).

Definition allEventNames (functions : list (string * FunctionSpec.t))
  : list (option string) :=
  map eventName (allEvents functions).

Definition name_eq_dec (a b : option string) : {a = b} + {a <> b}.
Proof. decide equality. apply string_dec. Defined.

(** The small letters of a capital letter: the one of ASCII and, for I
    and S, the dotless i and the long s as well. *)
Definition lowerChar (c : ascii) : ascii := ascii_of_nat (nat_of_ascii c + 32).

Definition smallLetters (capital : ascii) : list string :=
  if isCapital capital then
    String (lowerChar capital) ""
    :: (if (capital =? "I")%char then ["ı"]
        else if (capital =? "S")%char then ["ſ"] else [])
  else [].

(** [s] is [t] when letter case is ignored, for a [t] written in
    capitals: character by character, [s] has the character of [t] or,
    where that is a capital letter, one of its small letters. *)
Inductive sameIgnoringCase : string -> string -> Prop :=
| same_end : sameIgnoringCase "" ""
| same_character (c : ascii) (s t : string) :
    sameIgnoringCase s t -> sameIgnoringCase (String c s) (String c t)
| same_letter (small : string) (capital : ascii) (s t : string) :
    In small (smallLetters capital) ->
    sameIgnoringCase s t ->
    sameIgnoringCase (small ++ s) (String capital t).

(** [t] is written in capitals: its characters are ASCII characters other
    than small letters, and no two or three of them in a row are the upper
    case of a single character (as SS is that of the sharp s). *)
Fixpoint capitalised (t : string) : bool :=
  match t with
  | EmptyString => true
  | String c rest =>
      isAscii c && (upperChar c =? c)%char
      && negb (existsb (fun entry => (1 <? String.length (snd entry))%nat
                                     && prefix (snd entry) t)
                 upperCaseTable)
      && capitalised rest
  end.

(** [sub] occurs in [s]. *)
Definition contains (s sub : string) : Prop :=
  exists pre post, s = (pre ++ sub ++ post)%string.

(** The authorizer is the string AWS_IAM, or an object whose [type] is
    that string, in any letter case. *)
Definition isIAMAuthorizer (a : value) : Prop :=
  (exists s, a = VStr s /\ sameIgnoringCase s "AWS_IAM")
  \/ (exists t, prop a "type" = VStr t /\ sameIgnoringCase t "AWS_IAM").

(** What each authorizer test evaluates to when it does not throw. *)
Definition arnIncludes (a : value) (needle : string) : bool :=
  match prop a "arn" with
  | VStr s => includes s needle
  | VArr items =>
      existsb (fun x => match x with VStr s => s =? needle | _ => false end)
        items
  | _ => false
  end.

Definition iamTest (a : value) : bool :=
  match a with
  | VStr s => toUpperCase s =? "AWS_IAM"
  | _ => match prop a "type" with
         | VStr t => toUpperCase t =? "AWS_IAM"
         | _ => false
         end
  end.

Definition customTest (a : value) : bool :=
  truthy a
  && (match a with
      | VStr s =>
          negb (toUpperCase s =? "AWS_IAM")
          && negb (includes s "arn:aws:cognito-idp")
      | _ => false
      end
      || truthy (prop a "name")
      || arnIncludes a "arn:aws:lambda").

Definition cognitoTest (a : value) : bool :=
  truthy a
  && (match a with
      | VStr s => includes s "arn:aws:cognito-idp"
      | _ => false
      end
      || arnIncludes a "arn:aws:cognito-idp").

(** The tally obtained by counting a list of names one after the other. *)
Definition tallyOf (names : list (option string)) : list EventCount.t :=
  fold_left (fun tally name => countEvent name tally) names [].

(** [Number(v)] where the conversion succeeds. *)
Definition numberOf {E : Engine} (v : value) : float :=
  match Number v with
  | Ok n => n
  | Throw _ => nan
  end.

(** The chain [Number(own) || Number(inherited) || fallback]. *)
Definition firstTruthyNumber {E : Engine} (own inherited : value)
  (fallback : float) : float :=
  if truthyNumber (numberOf own) then numberOf own
  else if truthyNumber (numberOf inherited) then numberOf inherited
  else fallback.

Definition nullish (v : value) : bool :=
  match v with
  | VUndefined | VNull => true
  | _ => false
  end.

Definition primitive (v : value) : bool :=
  match v with
  | VArr _ | VObj _ => false
  | _ => true
  end.

(** An authorizer on which the three tests do not throw: its [type], when
    truthy, is a string, and its [arn], when truthy, is a string or an
    array. *)
Definition wellTyped (a : value) : bool :=
  match prop a "type" with
  | VStr _ => true
  | t => negb (truthy t)
  end
  && match prop a "arn" with
     | VStr _ | VArr _ => true
     | r => negb (truthy r)
     end.

(** [vars] with the flags of one authorizer added. *)
Definition raise (iam custom cognito : bool) (vars : Vars.t) : Vars.t :=
  {| Vars.numberOfEventsPerType := Vars.numberOfEventsPerType vars;
     Vars.eventNamesPerFunction := Vars.eventNamesPerFunction vars;
     Vars.hasIAMAuthorizer := if iam then true else Vars.hasIAMAuthorizer vars;
     Vars.hasCustomAuthorizer :=
       if custom then true else Vars.hasCustomAuthorizer vars;
     Vars.hasCognitoAuthorizer :=
       if cognito then true else Vars.hasCognitoAuthorizer vars |}.

(** [vars'] is [vars] after the events [events], whose names are [names],
    were visited and the arrays [arrays] were pushed. *)
Definition advanced (vars vars' : Vars.t) (names : list (option string))
  (arrays : list (list (option string))) (events : list Event) : Prop :=
  Vars.numberOfEventsPerType vars'
  = fold_left (fun tally name => countEvent name tally) names
      (Vars.numberOfEventsPerType vars)
  /\ Vars.eventNamesPerFunction vars' = Vars.eventNamesPerFunction vars ++ arrays
  /\ Vars.hasIAMAuthorizer vars'
     = existsb (fun e => iamTest (authorizerOf e)) events
       || Vars.hasIAMAuthorizer vars
  /\ Vars.hasCustomAuthorizer vars'
     = existsb (fun e => customTest (authorizerOf e)) events
       || Vars.hasCustomAuthorizer vars
  /\ Vars.hasCognitoAuthorizer vars'
     = existsb (fun e => cognitoTest (authorizerOf e)) events
       || Vars.hasCognitoAuthorizer vars.

(** The count a tally holds for a name, and the number of times a name
    occurs among the names of the events. *)
Fixpoint countFor (name : option string) (tally : list EventCount.t) : nat :=
  match tally with
  | [] => 0
  | entry :: rest =>
      (if sameName (EventCount.name entry) name then EventCount.count entry else 0)
      + countFor name rest
  end.

Definition occurrences (name : option string) (names : list (option string))
  : nat :=
  count_occ name_eq_dec names name.

(** ** An engine and inputs on which the embedding is run *)

(** An engine for the examples: it reads strings of decimal digits and
    prints integers, where it agrees with ECMAScript below 2^53; the
    theorems hold for every engine. *)
Definition digitOf (c : ascii) : float :=
  nth (nat_of_ascii c - 48) [0; 1; 2; 3; 4; 5; 6; 7; 8; 9]%float nan.

Fixpoint readDigits (acc : float) (s : string) : float :=
  match s with
  | EmptyString => acc
  | String c rest =>
      if isDigit c then readDigits (acc * 10 + digitOf c)%float rest else nan
  end.

Definition printInteger (n : float) : string :=
  match Prim2SF n with
  | S754_zero _ => "0"
  | S754_infinity false => "Infinity"
  | S754_infinity true => "-Infinity"
  | S754_nan => "NaN"
  | S754_finite s m e =>
      let z := (if 0 <=? e then Z.pos m * 2 ^ e else Z.pos m / 2 ^ (- e))%Z in
      ((if s then "-" else "")
       ++ NilZero.string_of_uint (N.to_uint (Z.to_N z)))%string
  end.

Definition exampleEngine : Engine :=
  {| StringToNumber := readDigits 0%float; NumberToString := printInteger |}.

Definition hostWith (getConfig : result value) : Host.t :=
  {| Host.getConfig := getConfig;
     Host.Date_getTime := 1793636760000%float;
     Host.Date_toString :=
       "Mon Nov 02 2026 16:26:00 GMT+0000 (Coordinated Universal Time)";
     Host.process_platform := "linux";
     Host.process_env_SERVERLESS_DASHBOARD := VUndefined;
     Host.process_version := "v8.9.4";
     Host.isDockerContainer := VBool false;
     Host.ci_isCI := VBool false;
     Host.ci_name := VNull |}.

(** Tracking enabled, tracking disabled, and a configuration that cannot
    be read. *)
Definition trackingHost : Host.t :=
  hostWith (Ok (VObj [("frameworkId", VStr "f1a2b3");
                      ("trackingDisabled", VBool false)])).

Definition optedOutHost : Host.t :=
  hostWith (Ok (VObj [("frameworkId", VStr "f1a2b3");
                      ("trackingDisabled", VBool true)])).

Definition unreadableHost : Host.t :=
  hostWith (Throw (Thrown (VStr "EACCES: permission denied"))).

Definition serverlessWith (provider resources : value)
  (functions : list (string * FunctionSpec.t)) : Serverless.t :=
  {| Serverless.service :=
       {| Service.resources := resources;
          Service.provider := provider;
          Service.functions := functions;
          Service.plugins := VUndefined;
          Service.custom := VUndefined |};
     Serverless.processedInput :=
       {| ProcessedInput.options := [("stage", VStr "dev"); ("help", VBool true)];
          ProcessedInput.commands := ["deploy"; "function"] |};
     Serverless.config := {| Config.servicePath := VStr "/srv/app" |};
     Serverless.version := VStr "1.26.0" |}.

Definition utilsOf (serverless : Serverless.t) : Utils.t :=
  {| Utils.serverless := serverless |}.

Definition functionWith (memorySize timeout : value)
  (events : option (list Event)) : FunctionSpec.t :=
  {| FunctionSpec.memorySize := memorySize;
     FunctionSpec.timeout := timeout;
     FunctionSpec.events := events |}.

Definition awsProvider : value :=
  VObj [("name", VStr "aws"); ("runtime", VStr "nodejs6.10")].

Definition httpEvent (authorizer : value) : Event :=
  [("http", VObj [("path", VStr "users"); ("method", VStr "get");
                  ("authorizer", authorizer)])].

Definition s3Event : Event := [("s3", VStr "photos")].

(** A service with one function and one event, an http event. *)
Definition serviceWithAuthorizer (authorizer : value) : Serverless.t :=
  serverlessWith awsProvider VUndefined
    [("hello", functionWith VUndefined VUndefined
                 (Some [httpEvent authorizer]))].

(** Two functions, each with one http and one s3 event. *)
Definition mediaService : Serverless.t :=
  serverlessWith awsProvider VUndefined
    [("upload", functionWith VUndefined VUndefined
                  (Some [httpEvent VUndefined; s3Event]));
     ("resize", functionWith VUndefined VUndefined
                  (Some [s3Event; httpEvent VUndefined]))].

(** One function with three http events. *)
Definition routesService : Serverless.t :=
  serverlessWith awsProvider VUndefined
    [("api", functionWith VUndefined VUndefined
               (Some [httpEvent VUndefined; httpEvent VUndefined;
                      httpEvent VUndefined]))].

(** A function without [events], between two functions that have some. *)
Definition cronFunction : string * FunctionSpec.t :=
  ("cron", functionWith VUndefined VUndefined None).

(** A function whose [events] is the empty array. *)
Definition idleService : Serverless.t :=
  serverlessWith awsProvider VUndefined
    [("idle", functionWith VUndefined VUndefined (Some []))].

(** A function that sets [memorySize: 0] and [timeout: 0], under a
    provider that sets [timeout: 30]. *)
Definition zeroService : Serverless.t :=
  serverlessWith (VObj [("name", VStr "aws"); ("timeout", VNum 30%float)])
    VUndefined
    [("zero", functionWith (VNum 0%float) (VNum 0%float) None)].

(** A service with one custom resource, and one on another provider. *)
Definition bucketService : Serverless.t :=
  serverlessWith awsProvider
    (VObj [("Resources",
            VObj [("Photos", VObj [("Type", VStr "AWS::S3::Bucket")])])])
    [].

Definition azureService : Serverless.t :=
  serverlessWith (VObj [("name", VStr "azure")]) VUndefined [].

(** ** Further notions, and the file functions *)

(** [c] throws nothing but a [TypeError]. *)
Definition onlyTypeError {A : Type} (c : result A) : Prop :=
  forall e, c = Throw e -> e = TypeError.

(** The provider name, when truthy, is a string. *)
Definition namedByString (provider : value) : bool :=
  match prop provider "name" with
  | VStr _ => true
  | n => negb (truthy n)
  end.

(** The value [own] of a function can be read as a number, with the
    provider at hand where that number is [0] or [NaN]: [Number(own)]
    completes and, unless its result is truthy, the provider is not
    [null] or [undefined] and [Number] of its property [k] completes. *)
Definition readable {E : Engine} (provider own : value) (k : string) : Prop :=
  (exists n, Number own = Ok n)
  /\ (truthyNumber (numberOf own) = true
      \/ (nullish provider = false
          /\ exists m, Number (prop provider k) = Ok m)).

(** The authorizer object has an [arn] in which [needle] occurs: a string
    containing it, or an array with it as an element. *)
Definition arnHas (a : value) (needle : string) : Prop :=
  (exists s, prop a "arn" = VStr s /\ contains s needle)
  \/ (exists items, prop a "arn" = VArr items /\ In (VStr needle) items).

(** The three ways to name a custom authorizer. *)
Definition isCustomAuthorizer (a : value) : Prop :=
  (exists s, a = VStr s /\ s <> ""
             /\ ~ sameIgnoringCase s "AWS_IAM"
             /\ ~ contains s "arn:aws:cognito-idp")
  \/ truthy (prop a "name") = true
  \/ arnHas a "arn:aws:lambda".

Definition isCognitoAuthorizer (a : value) : Prop :=
  (exists s, a = VStr s /\ contains s "arn:aws:cognito-idp")
  \/ arnHas a "arn:aws:cognito-idp".

(** Every character of [s] satisfies [p]. *)
Fixpoint allChars (p : ascii -> bool) (s : string) : bool :=
  match s with
  | EmptyString => true
  | String c rest => p c && allChars p rest
  end.

(** [s] does not begin with a character satisfying [p]. *)
Definition notStartingWith (p : ascii -> bool) (s : string) : bool :=
  match s with
  | EmptyString => true
  | String c _ => negb (p c)
  end.

(** ** The file functions of [Utils] *)

(** What [fse.statSync] returns: [isDirectory] is the result of
    [stats.isDirectory()]. *)
Module Stats.
Record t : Type := {
  isDirectory : bool
}.
End Stats.

(** The collaborators of the file functions, over the state [W] of the
    file system: [fs], [fs-extra], [path], [process.cwd] and the helpers
    of [../utils/fs]. An operation that writes returns the new state, also
    when it throws. *)
Class FileSystem (W : Type) : Type := {
  fse_statSync : string -> W -> result Stats.t;
  fse_mkdirsSync : string -> W -> result value * W;
  fse_copySync : string -> string -> W -> result value * W;
  fs_appendFileSync : string -> value -> W -> result value * W;
  helper_fileExistsSync : string -> W -> result value;
  helper_writeFileSync : string -> value -> W -> result value * W;
  helper_readFileSync : string -> W -> result value;
  helper_walkDirSync : string -> W -> result (list string);
  path_join : string -> string -> string;
  path_dirname : string -> string;
  process_cwd : W -> string
}.

(** A promise while its executor runs: [resolve] and [reject] settle a
    pending promise and do nothing to a settled one. *)
Inductive settling : Type :=
| Pending
| Settled (p : promise).

Definition resolve (v : value) (s : settling) : settling :=
  match s with
  | Pending => Settled (Fulfilled v)
  | Settled _ => s
  end.

Definition reject (e : exn) (s : settling) : settling :=
  match s with
  | Pending => Settled (Rejected e)
  | Settled _ => s
  end.

Fixpoint skip (n : nat) (s : string) : string :=
  match n, s with
  | S n', String _ rest => skip n' rest
  | _, _ => s
  end.

(** [s.replace(searchValue, replaceValue)] with two strings,
    [replaceValue] without a dollar sign: the first occurrence of
    [searchValue] is replaced. *)
Fixpoint replace (s searchValue replaceValue : string) : string :=
  if prefix searchValue s
  then (replaceValue ++ skip (String.length searchValue) s)%string
  else match s with
       | EmptyString => EmptyString
       | String c rest => String c (replace rest searchValue replaceValue)
       end.

Section Files.

Context {W : Type} {F : FileSystem W}.

Definition dirExistsSync (dirPath : string) (w : W) : bool :=
  match fse_statSync dirPath w with
  | Ok stats => Stats.isDirectory stats
  | Throw _ => false
  end.

Definition fileExistsSync (filePath : string) (w : W) : result value :=
  helper_fileExistsSync filePath w.

Definition writeFileDir (filePath : string) (w : W) : result value * W :=
  fse_mkdirsSync (path_dirname filePath) w.

Definition writeFileSync (filePath : string) (contents : value) (w : W)
  : result value * W :=
  helper_writeFileSync filePath contents w.

(** The promise of [writeFile], once its executor has run. *)
Definition writeFile (filePath : string) (contents : value) (w : W)
  : settling * W :=
  let (written, w') := writeFileSync filePath contents w in
  let s := match written with
           | Ok _ => Pending
           | Throw e => reject e Pending
           end in
  (resolve VUndefined s, w').

Definition appendFileSync (filePath : string) (conts : value) (w : W)
  : settling * W :=
  let contents := if truthy conts then conts else VStr "" in
  let (appended, w') := fs_appendFileSync filePath contents w in
  let s := match appended with
           | Ok _ => Pending
           | Throw e => reject e Pending
           end in
  (resolve VUndefined s, w').

Definition readFileSync (filePath : string) (w : W) : result value :=
  helper_readFileSync filePath w.

Definition readFile (filePath : string) (w : W) : settling :=
  let contents := VUndefined in
  match readFileSync filePath w with
  | Ok read => let contents := read in resolve contents Pending
  | Throw e => resolve contents (reject e Pending)
  end.

Definition walkDirSync (dirPath : string) (w : W) : result (list string) :=
  helper_walkDirSync dirPath w.

(** [forEach] with a callback that writes and may throw. *)
Fixpoint forEachWriting {A : Type} (f : A -> W -> result value * W)
  (l : list A) (w : W) : result value * W :=
  match l with
  | [] => (Ok VUndefined, w)
  | x :: rest =>
      match f x w with
      | (Ok _, w') => forEachWriting f rest w'
      | (Throw e, w') => (Throw e, w')
      end
  end.

Definition copyDirContentsSync (srcDir destDir : string) (w : W)
  : result value * W :=
  match walkDirSync srcDir w with
  | Ok fullFilesPaths =>
      forEachWriting
        (fun fullFilePath =>
           let relativeFilePath := replace fullFilePath srcDir "" in
           fse_copySync fullFilePath (path_join destDir relativeFilePath))
        fullFilesPaths w
  | Throw e => (Throw e, w)
  end.

Definition findServicePath (w : W) : result value :=
  let servicePath := VNull in
  yml <- fileExistsSync (path_join (process_cwd w) "serverless.yml") w ;;
  if truthy yml then Ok (VStr (process_cwd w))
  else
    yaml <- fileExistsSync (path_join (process_cwd w) "serverless.yaml") w ;;
    if truthy yaml then Ok (VStr (process_cwd w))
    else
      json <- fileExistsSync (path_join (process_cwd w) "serverless.json") w ;;
      if truthy json then Ok (VStr (process_cwd w))
      else Ok servicePath.

End Files.

(** A file system for the examples: the files with their contents, no
    directories; a path is missing when no file has it, and the empty
    path cannot be written. *)
Definition exampleFiles : Type := list (string * value).

Definition missing (path : string) : exn :=
  Thrown (VStr ("ENOENT: " ++ path)).

Definition fileAt (path : string) (files : exampleFiles) : result value :=
  if hasOwnProperty path files then Ok (lookup path files)
  else Throw (missing path).

Definition store (path : string) (contents : value) (files : exampleFiles)
  : result value * exampleFiles :=
  if (path =? "")%string then (Throw (missing path), files)
  else (Ok VUndefined, (path, contents) :: files).

#[export] Instance exampleFileSystem : FileSystem exampleFiles :=
  {| fse_statSync := fun path files =>
       _ <- fileAt path files ;; Ok {| Stats.isDirectory := false |};
     fse_mkdirsSync := fun _ files => (Ok VUndefined, files);
     fse_copySync := fun from to files =>
       match fileAt from files with
       | Ok contents => store to contents files
       | Throw e => (Throw e, files)
       end;
     fs_appendFileSync := fun path contents files => store path contents files;
     helper_fileExistsSync := fun path files =>
       Ok (VBool (hasOwnProperty path files));
     helper_writeFileSync := store;
     helper_readFileSync := fileAt;
     helper_walkDirSync := fun dir files =>
       Ok (filter (prefix dir) (map fst files));
     path_join := fun a b => (a ++ "/" ++ b)%string;
     path_dirname := fun path => path;
     process_cwd := fun _ => "/srv/app" |}.

(** Authorizers for the examples: a custom one given by name, a Cognito
    user pool given by arn, and one whose [type] is a number. *)
Definition namedAuthorizer : value := VObj [("name", VStr "myAuthFn")].

Definition poolAuthorizer : value :=
  VObj [("arn", VStr "arn:aws:cognito-idp:eu-west-1:1:userpool/p")].

Definition numberTypedAuthorizer : value := VObj [("type", VNum 5%float)].

(** A provider with a variable syntax of its own. *)
Definition bracketsService : Serverless.t :=
  serverlessWith
    (VObj [("name", VStr "aws"); ("variableSyntax", VStr "\[\[([\s\S]+?)\]\]")])
    VUndefined [].

(** The files of a project, for the examples. *)
Definition projectFiles : exampleFiles :=
  [("/srv/app/serverless.yml", VStr "service: app");
   ("/srv/app/handler.js", VStr "module.exports.hello = () => {};")].

(** * Properties of the embedding *)

(** ** Computations that complete *)

Lemma bind_Ok_inv {A B : Type} (c : result A) (k : A -> result B) (b : B) :
  bind c k = Ok b -> exists a, c = Ok a /\ k a = Ok b.
Proof.
  destruct c as [a | e]; simpl; intros H; [ | discriminate ].
  exists a; split; [ reflexivity | exact H ].
Qed.

Tactic Notation "bind_inv" hyp(H) "as" ident(a) ident(Ha) :=
  apply bind_Ok_inv in H; destruct H as (a & Ha & H).

Tactic Notation "bind_inv" hyp(H) :=
  let a := fresh "r" in
  let Ha := fresh "Hr" in
  apply bind_Ok_inv in H; destruct H as (a & Ha & H).

Lemma truthy_not_nullish (v : value) : truthy v = true -> nullish v = false.
Proof. destruct v; simpl; intros H; (discriminate || reflexivity). Qed.

Lemma get_not_nullish (v : value) (k : string) :
  nullish v = false -> get v k = Ok (prop v k).
Proof. destruct v; simpl; intros H; (discriminate || reflexivity). Qed.

Lemma get_truthy (v : value) (k : string) :
  truthy v = true -> get v k = Ok (prop v k).
Proof. intros H; apply get_not_nullish, truthy_not_nullish, H. Qed.

Lemma get_Ok_inv (v r : value) (k : string) :
  get v k = Ok r -> r = prop v k /\ nullish v = false.
Proof.
  destruct v; simpl; intros H; try discriminate;
    injection H as <-; split; reflexivity.
Qed.

Lemma prop_truthy_object (v : value) (k : string) :
  truthy (prop v k) = true -> exists props, v = VObj props.
Proof.
  destruct v; simpl; intros H; try discriminate.
  eexists; reflexivity.
Qed.

Lemma forEach_app {A S : Type} (f : S -> A -> result S) (l1 l2 : list A) (s : S) :
  forEach f (l1 ++ l2) s = (s' <- forEach f l1 s ;; forEach f l2 s').
Proof.
  revert s; induction l1 as [ | x l1 IH ]; intros s; simpl; [ reflexivity | ].
  destruct (f s x) as [ s1 | e ]; simpl; [ apply IH | reflexivity ].
Qed.

(** ** Tracking switched off, and configurations that cannot be read *)

Section Gate.

Context {E : Engine}.

(** C1. Whatever the service and the CLI input are, when the configuration
    that [getConfig] returns has a truthy [trackingDisabled], the executor
    resolves with no payload, the promise of [logStat] is fulfilled with
    [undefined], and nothing is handed to [segment.track]. *)
Theorem logStat_tracking_disabled :
  forall (host : Host.t) (this : Utils.t) (serverless : Serverless.t)
         (context : value) (tracked : list Data.t) (config : value),
    Host.getConfig host = Ok config ->
    truthy (prop config "trackingDisabled") = true ->
    executor host this serverless context = Ok None
    /\ logStat host this serverless context tracked
       = (Fulfilled VUndefined, tracked).
Proof.
  intros host this serverless context tracked config Hconfig Hflag.
  assert (Hexec : executor host this serverless context = Ok None).
  { unfold executor. rewrite Hconfig. cbn [bind].
    destruct (prop_truthy_object _ _ Hflag) as (props & ->).
    cbn [get bind]. rewrite Hflag. reflexivity. }
  split; [ exact Hexec | ].
  unfold logStat. rewrite Hexec. reflexivity.
Qed.

(** C8, as the code has it. When [getConfig] throws, nothing is handed to
    [segment.track] and the promise of [logStat] is rejected with what was
    thrown: [logStat] has no handler that would turn the failure into
    disabled tracking. *)
Theorem logStat_config_read_failure :
  forall (host : Host.t) (this : Utils.t) (serverless : Serverless.t)
         (context : value) (tracked : list Data.t) (e : exn),
    Host.getConfig host = Throw e ->
    logStat host this serverless context tracked = (Rejected e, tracked).
Proof.
  intros host this serverless context tracked e Hconfig.
  unfold logStat, executor. rewrite Hconfig. reflexivity.
Qed.

End Gate.

(** ** The event loop *)

Lemma event_guard (event : Event) :
  (isTruthy (get (VObj event) "http")
   &&& isTruthy (http <- get (VObj event) "http" ;; get http "authorizer"))
  = Ok (truthy (authorizerOf event)).
Proof.
  unfold authorizerOf. cbn [get prop bind isTruthy andThen].
  destruct (truthy (lookup "http" event)) eqn:Hhttp.
  - rewrite (get_truthy _ _ Hhttp). reflexivity.
  - destruct (lookup "http" event); simpl in *; try reflexivity; discriminate.
Qed.

Lemma event_authorizer (event : Event) :
  truthy (authorizerOf event) = true ->
  (http <- get (VObj event) "http" ;; get http "authorizer")
  = Ok (authorizerOf event).
Proof.
  unfold authorizerOf. intros H. cbn [get prop bind] in *.
  destruct (prop_truthy_object _ _ H) as (props & Hp).
  rewrite Hp in *. reflexivity.
Qed.


Lemma typeof_string (a : value) :
  (typeof a =? "string") = match a with VStr _ => true | _ => false end.
Proof. destruct a; reflexivity. Qed.

Ltac split_tests :=
  repeat
    (match goal with
     | |- context [negb (?s =? "")] =>
         let H := fresh "Hs" in
         destruct (s =? "") eqn:H; [ apply String.eqb_eq in H; subst s; cbn | ]
     | |- context [toUpperCase ?s =? ?x] => destruct (toUpperCase s =? x)
     | |- context [includes ?s ?x] => destruct (includes s x)
     | |- context [truthyNumber ?x] => destruct (truthyNumber x)
     | |- context [existsb ?f ?l] => destruct (existsb f l)
     | |- context [truthy ?x] => destruct (truthy x)
     | |- context [if ?b then _ else _] => is_var b; destruct b
     end;
     cbn -[includes String.eqb toUpperCase existsb truthyNumber]).

Lemma classifyAuthorizer_Ok (event : Event) (vars vars' : Vars.t) :
  truthy (authorizerOf event) = true ->
  classifyAuthorizer (VObj event) vars = Ok vars' ->
  vars' = raise (iamTest (authorizerOf event)) (customTest (authorizerOf event))
            (cognitoTest (authorizerOf event)) vars.
Proof.
  intros Ha. unfold classifyAuthorizer.
  rewrite (event_authorizer _ Ha).
  unfold iamTest, customTest, cognitoTest, arnIncludes, raise. rewrite Ha.
  generalize dependent (authorizerOf event). intros a Ha.
  unfold typeofIs, upperCaseIs, includesString, isTruthy, notC.
  cbn [bind]. rewrite !(get_truthy _ _ Ha), !typeof_string.
  destruct a as [ | | b | n | s | items | props ]; try discriminate Ha;
    cbn [prop]; clear Ha.
  1-2, 4: cbn; intros H; injection H as <-; reflexivity.
  - cbn -[includes String.eqb toUpperCase].
    destruct (toUpperCase s =? "AWS_IAM"), (includes s "arn:aws:cognito-idp");
      cbn; intros H; injection H as <-; reflexivity.
  - generalize (lookup "type" props) (lookup "name" props) (lookup "arn" props).
    intros t n r.
    destruct t, r;
      cbn -[includes String.eqb toUpperCase existsb truthyNumber];
      split_tests;
      intros H; try discriminate H; injection H as <-; reflexivity.
Qed.

Lemma tests_falsy (a : value) :
  truthy a = false ->
  iamTest a = false /\ customTest a = false /\ cognitoTest a = false.
Proof.
  intros Ha. unfold customTest, cognitoTest. rewrite Ha.
  repeat split; try reflexivity.
  destruct a as [ | | b | n | s | items | props ]; try reflexivity;
    try discriminate Ha.
  simpl in Ha. apply negb_false_iff, String.eqb_eq in Ha. subst s. reflexivity.
Qed.

Lemma advanced_refl (vars : Vars.t) : advanced vars vars [] [] [].
Proof.
  unfold advanced; simpl. rewrite app_nil_r. repeat split; reflexivity.
Qed.

Lemma advanced_trans (v0 v1 v2 : Vars.t) n1 n2 a1 a2 e1 e2 :
  advanced v0 v1 n1 a1 e1 -> advanced v1 v2 n2 a2 e2 ->
  advanced v0 v2 (n1 ++ n2) (a1 ++ a2) (e1 ++ e2).
Proof.
  unfold advanced.
  intros (T1 & N1 & I1 & C1 & G1) (T2 & N2 & I2 & C2 & G2).
  rewrite T2, N2, I2, C2, G2, T1, N1, I1, C1, G1.
  rewrite fold_left_app, app_assoc, !existsb_app.
  repeat split; try reflexivity;
    repeat match goal with |- context [existsb ?f ?l] => destruct (existsb f l) end;
    reflexivity.
Qed.

Lemma eventCallback_Ok (vars vars' : Vars.t) (arr arr' : list (option string))
  (event : Event) :
  eventCallback (vars, arr) event = Ok (vars', arr') ->
  arr' = arr ++ [eventName event]
  /\ advanced vars vars' [eventName event] [] [event].
Proof.
  unfold eventCallback. rewrite event_guard. cbn [bind].
  fold (eventName event).
  destruct (truthy (authorizerOf event)) eqn:Ha.
  - intros H. bind_inv H. apply (classifyAuthorizer_Ok _ _ _ Ha) in Hr.
    injection H as <- <-. subst r. split; [ reflexivity | ].
    unfold advanced, raise; simpl. rewrite app_nil_r, !orb_false_r.
    repeat split; try reflexivity;
      match goal with |- context [if ?b then _ else _] => destruct b end;
      reflexivity.
  - intros H. injection H as <- <-. split; [ reflexivity | ].
    destruct (tests_falsy _ Ha) as (Hi & Hc & Hg).
    unfold advanced; simpl. rewrite Hi, Hc, Hg, app_nil_r.
    repeat split; reflexivity.
Qed.

Lemma events_loop (events : list Event) :
  forall (vars vars' : Vars.t) (arr arr' : list (option string)),
    forEach eventCallback events (vars, arr) = Ok (vars', arr') ->
    arr' = arr ++ map eventName events
    /\ advanced vars vars' (map eventName events) [] events.
Proof.
  induction events as [ | event events IH ]; intros vars vars' arr arr'; simpl.
  - intros H; injection H as <- <-. rewrite app_nil_r.
    split; [ reflexivity | apply advanced_refl ].
  - intros H. bind_inv H. destruct r as (vars1, arr1).
    apply eventCallback_Ok in Hr. destruct Hr as (-> & Hstep).
    apply IH in H. destruct H as (-> & Hrest).
    split; [ rewrite <- app_assoc; reflexivity | ].
    exact (advanced_trans _ _ _ _ _ _ _ _ _ Hstep Hrest).
Qed.

Lemma functionCallback_Ok (vars vars' : Vars.t) (f : string * FunctionSpec.t) :
  functionCallback vars (snd f) = Ok vars' ->
  advanced vars vars' (allEventNames [f])
    (map (map eventName) (eventArrays [f])) (allEvents [f]).
Proof.
  unfold functionCallback, allEventNames, allEvents, eventArrays. simpl.
  destruct (FunctionSpec.events (snd f)) as [ events | ]; simpl.
  - intros H. bind_inv H. destruct r as (vars1, arr1).
    apply events_loop in Hr. destruct Hr as (-> & Hloop).
    injection H as <-. rewrite app_nil_r.
    unfold advanced in *; simpl in *.
    destruct Hloop as (T & N & I & C & G).
    rewrite T, N, I, C, G, app_nil_r. repeat split; reflexivity.
  - intros H; injection H as <-. apply advanced_refl.
Qed.

Lemma eventArrays_cons f functions :
  eventArrays (f :: functions) = eventArrays [f] ++ eventArrays functions.
Proof. unfold eventArrays; simpl. rewrite app_nil_r. reflexivity. Qed.

Lemma allEvents_cons f functions :
  allEvents (f :: functions) = allEvents [f] ++ allEvents functions.
Proof.
  unfold allEvents. rewrite eventArrays_cons, concat_app. reflexivity.
Qed.

Lemma allEventNames_cons f functions :
  allEventNames (f :: functions) = allEventNames [f] ++ allEventNames functions.
Proof.
  unfold allEventNames. rewrite allEvents_cons, map_app. reflexivity.
Qed.

Lemma functions_loop (functions : list (string * FunctionSpec.t)) :
  forall vars vars' : Vars.t,
    forEach functionCallback (map snd functions) vars = Ok vars' ->
    advanced vars vars' (allEventNames functions)
      (map (map eventName) (eventArrays functions)) (allEvents functions).
Proof.
  induction functions as [ | f functions IH ]; intros vars vars';
    cbn [map forEach].
  - intros H; injection H as <-. apply advanced_refl.
  - intros H. bind_inv H. apply functionCallback_Ok in Hr. apply IH in H.
    rewrite allEventNames_cons, allEvents_cons, eventArrays_cons, map_app.
    exact (advanced_trans _ _ _ _ _ _ _ _ _ Hr H).
Qed.

Lemma eventInformation_Ok (functions : list (string * FunctionSpec.t))
  (vars : Vars.t) :
  eventInformation functions = Ok vars ->
  advanced initialVars vars (allEventNames functions)
    (map (map eventName) (eventArrays functions)) (allEvents functions).
Proof.
  unfold eventInformation.
  destruct functions as [ | f functions ].
  - simpl. intros H; injection H as <-. apply advanced_refl.
  - cbv beta zeta. change (0 <? Datatypes.length (f :: functions))%nat with true.
    cbv iota. apply functions_loop.
Qed.

(** ** Events whose authorizers are well typed *)

Lemma classifyAuthorizer_total (event : Event) (vars : Vars.t) :
  truthy (authorizerOf event) = true ->
  wellTyped (authorizerOf event) = true ->
  exists vars', classifyAuthorizer (VObj event) vars = Ok vars'.
Proof.
  intros Ha. unfold classifyAuthorizer.
  rewrite (event_authorizer _ Ha).
  unfold wellTyped.
  generalize dependent (authorizerOf event). intros a Ha.
  unfold typeofIs, upperCaseIs, includesString, isTruthy, notC.
  cbn [bind]. rewrite !(get_truthy _ _ Ha), !typeof_string.
  destruct a as [ | | b | n | s | items | props ]; try discriminate Ha;
    cbn [prop]; clear Ha; intros Hwt.
  1-2, 4: cbn; eexists; reflexivity.
  - cbn -[includes String.eqb toUpperCase].
    destruct (toUpperCase s =? "AWS_IAM"), (includes s "arn:aws:cognito-idp");
      cbn; eexists; reflexivity.
  - revert Hwt.
    generalize (lookup "type" props) (lookup "name" props) (lookup "arn" props).
    intros t n r.
    destruct t, r;
      cbn -[includes String.eqb toUpperCase existsb truthyNumber];
      intros Hwt; try discriminate Hwt; revert Hwt;
      split_tests; intros Hwt; try discriminate Hwt; eexists; reflexivity.
Qed.

Lemma eventCallback_total (vars : Vars.t) (arr : list (option string))
  (event : Event) :
  wellTyped (authorizerOf event) = true ->
  exists st, eventCallback (vars, arr) event = Ok st.
Proof.
  intros Hwt. unfold eventCallback. rewrite event_guard. cbn [bind].
  destruct (truthy (authorizerOf event)) eqn:Ha; [ | eexists; reflexivity ].
  match goal with
  | |- context [classifyAuthorizer _ ?v] =>
      destruct (classifyAuthorizer_total event v Ha Hwt) as (vars' & ->)
  end.
  eexists; reflexivity.
Qed.

Lemma events_loop_total (events : list Event) :
  (forall event, In event events -> wellTyped (authorizerOf event) = true) ->
  forall st, exists st', forEach eventCallback events st = Ok st'.
Proof.
  induction events as [ | event events IH ]; intros Hwt st; simpl.
  - eexists; reflexivity.
  - destruct st as (vars, arr).
    destruct (eventCallback_total vars arr event) as (st1 & ->).
    { apply Hwt. left; reflexivity. }
    cbn [bind]. apply IH. intros e He. apply Hwt. right; exact He.
Qed.

Lemma functions_loop_total (functions : list (string * FunctionSpec.t)) :
  (forall event, In event (allEvents functions) ->
                 wellTyped (authorizerOf event) = true) ->
  forall vars,
  exists vars', forEach functionCallback (map snd functions) vars = Ok vars'.
Proof.
  induction functions as [ | f functions IH ]; intros Hwt vars;
    cbn [map forEach].
  - eexists; reflexivity.
  - rewrite allEvents_cons in Hwt.
    assert (Hf : exists vars1, functionCallback vars (snd f) = Ok vars1).
    { unfold functionCallback.
      destruct (FunctionSpec.events (snd f)) as [ events | ] eqn:Hev;
        [ | eexists; reflexivity ].
      destruct (events_loop_total events) with (st := (vars, @nil (option string)))
        as ((vars1, arr1) & ->).
      { intros e He. apply Hwt, in_or_app. left.
        unfold allEvents, eventArrays. simpl. rewrite Hev. simpl.
        rewrite app_nil_r. exact He. }
      eexists; reflexivity. }
    destruct Hf as (vars1 & ->). cbn [bind].
    apply IH. intros e He. apply Hwt, in_or_app. right; exact He.
Qed.

Lemma eventInformation_total (functions : list (string * FunctionSpec.t)) :
  (forall event, In event (allEvents functions) ->
                 wellTyped (authorizerOf event) = true) ->
  exists vars, eventInformation functions = Ok vars.
Proof.
  intros Hwt. unfold eventInformation.
  destruct (0 <? Datatypes.length functions)%nat;
    [ apply functions_loop_total, Hwt | eexists; reflexivity ].
Qed.

(** ** Strings and the authorizer tests *)

Lemma prefix_append (n s : string) :
  prefix n s = true <-> exists post, s = (n ++ post)%string.
Proof.
  revert s; induction n as [ | a n IH ]; intros s; simpl.
  - destruct s; simpl; split; intros _; try reflexivity; eexists; reflexivity.
  - destruct s as [ | b s ]; simpl.
    + split; [ discriminate | intros (post & H); discriminate H ].
    + destruct (ascii_dec a b) as [ -> | Hne ].
      * rewrite IH. split; intros (post & H); exists post; congruence.
      * split; [ discriminate | intros (post & H); congruence ].
Qed.

Lemma includes_contains (s sub : string) :
  includes s sub = true <-> contains s sub.
Proof.
  unfold contains. induction s as [ | c s IH ].
  - cbn [includes]. rewrite orb_false_r, prefix_append.
    split.
    + intros (post & H). exists "", post. exact H.
    + intros (pre & post & H). destruct pre; simpl in H; [ | discriminate H ].
      exists post. exact H.
  - cbn [includes]. rewrite orb_true_iff, prefix_append, IH.
    split.
    + intros [ (post & H) | (pre & post & H) ].
      * exists "", post. exact H.
      * exists (String c pre), post. simpl. congruence.
    + intros (pre & post & H). destruct pre as [ | c' pre ]; simpl in H.
      * left. exists post. exact H.
      * right. exists pre, post. congruence.
Qed.

Lemma contains_nonempty (s sub : string) :
  contains s sub -> sub <> "" -> s <> "".
Proof.
  intros (pre & post & ->) Hsub Hs.
  destruct pre; simpl in Hs; [ | discriminate Hs ].
  destruct sub; [ apply Hsub; reflexivity | discriminate Hs ].
Qed.

(** ** Letter case *)

Lemma toUpperCaseFrom_skip (l r : string) :
  toUpperCaseFrom (String.length l) (l ++ r) = toUpperCase r.
Proof.
  induction l as [ | c l IH ]; [ reflexivity | ].
  simpl. destruct l; exact IH.
Qed.

Lemma upperCaseTable_nonempty (lower upper : string) :
  In (lower, upper) upperCaseTable -> lower <> "" /\ upper <> "".
Proof.
  assert (H : forallb (fun entry => negb (fst entry =? "") && negb (snd entry =? ""))
                upperCaseTable = true) by (vm_compute; reflexivity).
  rewrite forallb_forall in H. intros Hin. specialize (H _ Hin). simpl in H.
  apply andb_true_iff in H. destruct H as (Hl & Hu).
  apply negb_true_iff, String.eqb_neq in Hl, Hu. split; assumption.
Qed.

(** The entries whose upper case is a single byte. *)
Lemma upperCaseTable_single (lower upper : string) :
  In (lower, upper) upperCaseTable ->
  String.length upper = 1 ->
  (lower, upper) = ("ı", "I") \/ (lower, upper) = ("ſ", "S").
Proof.
  assert (H : forallb
                (fun entry =>
                   negb (String.length (snd entry) =? 1)%nat
                   || ((fst entry =? "ı") && (snd entry =? "I"))
                   || ((fst entry =? "ſ") && (snd entry =? "S")))
                upperCaseTable = true) by (vm_compute; reflexivity).
  rewrite forallb_forall in H. intros Hin Hlen. specialize (H _ Hin).
  simpl in H. rewrite Hlen in H. simpl in H.
  apply orb_true_iff in H.
  destruct H as [ H | H ]; apply andb_true_iff in H; destruct H as (Hl & Hu);
    apply String.eqb_eq in Hl, Hu; subst; [ left | right ]; reflexivity.
Qed.

Lemma toUpperCase_ascii (c : ascii) (rest : string) :
  isAscii c = true ->
  toUpperCase (String c rest) = String (upperChar c) (toUpperCase rest).
Proof. intros H. unfold toUpperCase. simpl. rewrite H. reflexivity. Qed.

(** How [toUpperCase] treats the character at the head of a string. *)
Lemma toUpperCase_head (c : ascii) (rest : string) :
  (isAscii c = true
   /\ toUpperCase (String c rest) = String (upperChar c) (toUpperCase rest))
  \/ (isAscii c = false
      /\ exists lower upper r,
           In (lower, upper) upperCaseTable
           /\ String c rest = (lower ++ r)%string
           /\ toUpperCase (String c rest) = (upper ++ toUpperCase r)%string)
  \/ (isAscii c = false
      /\ toUpperCase (String c rest) = String c (toUpperCase rest)).
Proof.
  destruct (isAscii c) eqn:Hc.
  - left. split; [ reflexivity | apply toUpperCase_ascii, Hc ].
  - right. unfold toUpperCase at 1 3. cbn [toUpperCaseFrom]. rewrite Hc.
    destruct (upperCaseEntry (String c rest)) as [ (lower, upper) | ] eqn:He.
    + left. split; [ reflexivity | ].
      apply find_some in He. destruct He as (Hin & Hp). cbn [fst] in Hp.
      destruct (proj1 (prefix_append _ _) Hp) as (r & Hs).
      exists lower, upper, r. split; [ exact Hin | ]. split; [ exact Hs | ].
      destruct lower as [ | a l ];
        [ destruct (upperCaseTable_nonempty _ _ Hin) as (Hne & _);
          exfalso; apply Hne; reflexivity | ].
      simpl in Hs. injection Hs as <- ->.
      simpl. rewrite Nat.sub_0_r, toUpperCaseFrom_skip. reflexivity.
    + right. split; reflexivity.
Qed.

Lemma upperChar_cases (c a : ascii) :
  isAscii c = true -> upperChar c = a ->
  c = a \/ (isCapital a = true /\ c = lowerChar a).
Proof.
  intros _ <-. unfold upperChar, isCapital, lowerChar.
  destruct (((97 <=? nat_of_ascii c) && (nat_of_ascii c <=? 122))%nat) eqn:H;
    [ right | left; reflexivity ].
  apply andb_true_iff in H. destruct H as (H1 & H2).
  apply Nat.leb_le in H1, H2.
  assert (Hn : nat_of_ascii (ascii_of_nat (nat_of_ascii c - 32))
               = nat_of_ascii c - 32) by (apply nat_ascii_embedding; lia).
  rewrite Hn. split.
  - apply andb_true_iff. split; apply Nat.leb_le; lia.
  - replace (nat_of_ascii c - 32 + 32) with (nat_of_ascii c) by lia.
    symmetry. apply ascii_nat_embedding.
Qed.

Lemma upperChar_lowerChar (a : ascii) :
  isCapital a = true ->
  isAscii (lowerChar a) = true /\ upperChar (lowerChar a) = a.
Proof.
  unfold isCapital, isAscii, upperChar, lowerChar. intros H.
  apply andb_true_iff in H. destruct H as (H1 & H2). apply Nat.leb_le in H1, H2.
  assert (Hn : nat_of_ascii (ascii_of_nat (nat_of_ascii a + 32))
               = nat_of_ascii a + 32) by (apply nat_ascii_embedding; lia).
  rewrite Hn. split; [ apply Nat.ltb_lt; lia | ].
  replace ((97 <=? nat_of_ascii a + 32) && (nat_of_ascii a + 32 <=? 122))%nat
    with true
    by (symmetry; apply andb_true_iff; split; apply Nat.leb_le; lia).
  replace (nat_of_ascii a + 32 - 32) with (nat_of_ascii a) by lia.
  apply ascii_nat_embedding.
Qed.

Lemma prefix_comparable (key k s : string) :
  prefix key (k ++ s) = true -> prefix key k || prefix k key = true.
Proof.
  revert k. induction key as [ | a key IH ]; intros k H.
  - destruct k; reflexivity.
  - destruct k as [ | b k ]; [ reflexivity | ].
    simpl in H. simpl. destruct (ascii_dec a b) as [ -> | Hne ].
    + destruct (ascii_dec b b); [ | congruence ]. exact (IH _ H).
    + discriminate H.
Qed.

(** The entry found for a string that begins with [lower], when no entry
    before that of [lower] has a key that begins like [lower]. *)
Lemma upperCaseEntry_found (lower upper s : string) :
  find (fun entry => prefix (fst entry) lower || prefix lower (fst entry))
    upperCaseTable = Some (lower, upper) ->
  upperCaseEntry (lower ++ s) = Some (lower, upper).
Proof.
  unfold upperCaseEntry. induction upperCaseTable as [ | entry table IH ];
    [ discriminate | ].
  cbn [find]. destruct (prefix (fst entry) (lower ++ s)) eqn:Hp.
  - rewrite (prefix_comparable _ _ _ Hp). exact (fun H => H).
  - destruct (prefix (fst entry) lower || prefix lower (fst entry)) eqn:Hc;
      [ | exact IH ].
    intros H. injection H as ->. cbn [fst] in Hp.
    rewrite (proj2 (prefix_append lower (lower ++ s))) in Hp;
      [ discriminate Hp | exists s; reflexivity ].
Qed.

Lemma toUpperCase_found (c : ascii) (lower upper s : string) :
  isAscii c = false ->
  find (fun entry => prefix (fst entry) (String c lower)
                     || prefix (String c lower) (fst entry))
    upperCaseTable = Some (String c lower, upper) ->
  toUpperCase (String c lower ++ s) = (upper ++ toUpperCase s)%string.
Proof.
  intros Hc Hfound. unfold toUpperCase at 1.
  change (String c lower ++ s)%string with (String c (lower ++ s)).
  cbn [toUpperCaseFrom]. rewrite Hc.
  change (String c (lower ++ s)) with (String c lower ++ s)%string.
  rewrite (upperCaseEntry_found _ _ _ Hfound).
  change (String.length (String c lower) - 1) with (String.length lower - 0).
  rewrite Nat.sub_0_r, toUpperCaseFrom_skip. reflexivity.
Qed.

Lemma toUpperCase_small (small : string) (capital : ascii) (s : string) :
  In small (smallLetters capital) ->
  toUpperCase (small ++ s) = String capital (toUpperCase s).
Proof.
  unfold smallLetters. destruct (isCapital capital) eqn:Hc; [ | intros [] ].
  intros [ <- | Hin ].
  - destruct (upperChar_lowerChar _ Hc) as (Ha & Hu).
    simpl. rewrite (toUpperCase_ascii _ _ Ha), Hu. reflexivity.
  - destruct (capital =? "I")%char eqn:HI.
    + apply Ascii.eqb_eq in HI. subst capital.
      destruct Hin as [ <- | [] ].
      apply (toUpperCase_found _ _ "I"); vm_compute; reflexivity.
    + destruct (capital =? "S")%char eqn:HS; [ | destruct Hin ].
      apply Ascii.eqb_eq in HS. subst capital.
      destruct Hin as [ <- | [] ].
      apply (toUpperCase_found _ _ "S"); vm_compute; reflexivity.
Qed.

Lemma capitalised_cons (c : ascii) (t : string) :
  capitalised (String c t) = true ->
  isAscii c = true /\ upperChar c = c
  /\ (forall lower upper r,
         In (lower, upper) upperCaseTable ->
         (upper ++ r)%string = String c t -> String.length upper = 1)
  /\ capitalised t = true.
Proof.
  intros H. cbn [capitalised] in H.
  apply andb_true_iff in H. destruct H as (H & Ht).
  apply andb_true_iff in H. destruct H as (H & Hno).
  apply andb_true_iff in H. destruct H as (Ha & Hu).
  apply Ascii.eqb_eq in Hu.
  split; [ exact Ha | ]. split; [ exact Hu | ]. split; [ | exact Ht ].
  intros lower upper r Hin Heq.
  apply negb_true_iff in Hno.
  destruct (1 <? String.length upper)%nat eqn:Hlen.
  - exfalso.
    assert (Hex : existsb
              (fun entry => (1 <? String.length (snd entry))%nat
                            && prefix (snd entry) (String c t))
              upperCaseTable = true).
    { apply existsb_exists. exists (lower, upper). split; [ exact Hin | ].
      cbn [snd]. rewrite Hlen. cbn [andb].
      apply prefix_append. exists r. symmetry. exact Heq. }
    rewrite Hex in Hno. discriminate Hno.
  - apply Nat.ltb_ge in Hlen.
    destruct (upperCaseTable_nonempty _ _ Hin) as (_ & Hne).
    destruct upper as [ | a [ | b u ] ]; [ congruence | reflexivity | ].
    simpl in Hlen. lia.
Qed.

(** For a string [t] written in capitals, [toUpperCase s] is [t] exactly
    when [s] is [t] with letter case ignored. *)
Lemma toUpperCase_capitals (t : string) :
  capitalised t = true ->
  forall s, toUpperCase s = t <-> sameIgnoringCase s t.
Proof.
  intros Ht s. split.
  - revert s. induction t as [ | a t IH ]; intros s H.
    + destruct s as [ | c rest ]; [ constructor | exfalso ].
      destruct (toUpperCase_head c rest)
        as [ (_ & Hu) | [ (_ & lower & upper & r & Hin & _ & Hu) | (_ & Hu) ] ];
        rewrite Hu in H; try discriminate H.
      destruct (upperCaseTable_nonempty _ _ Hin) as (_ & Hne).
      destruct upper; [ congruence | discriminate H ].
    + destruct (capitalised_cons _ _ Ht) as (Ha & Hup & Hsingle & Ht').
      destruct s as [ | c rest ]; [ discriminate H | ].
      destruct (toUpperCase_head c rest)
        as [ (Hc & Hu) | [ (Hc & lower & upper & r & Hin & Hs & Hu) | (Hc & Hu) ] ];
        rewrite Hu in H.
      * injection H as Hhead Hrest.
        destruct (upperChar_cases _ _ Hc Hhead) as [ -> | (Hcap & ->) ].
        -- apply same_character, (IH Ht' _ Hrest).
        -- apply (same_letter (String (lowerChar a) "") a rest t).
           ++ unfold smallLetters. rewrite Hcap. left. reflexivity.
           ++ exact (IH Ht' _ Hrest).
      * rewrite Hs.
        pose proof (Hsingle _ _ _ Hin H) as Hlen.
        destruct (upperCaseTable_single _ _ Hin Hlen) as [ Heq | Heq ];
          injection Heq as -> ->; simpl in H; injection H as <- Hrest;
          (apply same_letter; [ right; left; reflexivity | exact (IH Ht' _ Hrest) ]).
      * injection H as -> _. rewrite Hc in Ha. discriminate Ha.
  - intros H. induction H as [ | c s t H IH | small capital s t Hin H IH ].
    + reflexivity.
    + destruct (capitalised_cons _ _ Ht) as (Ha & Hup & _ & Ht').
      rewrite (toUpperCase_ascii _ _ Ha), Hup, (IH Ht'). reflexivity.
    + destruct (capitalised_cons _ _ Ht) as (_ & _ & _ & Ht').
      rewrite (toUpperCase_small _ _ _ Hin), (IH Ht'). reflexivity.
Qed.

Lemma length_append (a b : string) :
  String.length (a ++ b) = String.length a + String.length b.
Proof. induction a as [ | c a IH ]; simpl; [ | rewrite IH ]; reflexivity. Qed.

Lemma sameIgnoringCase_refl (t : string) : sameIgnoringCase t t.
Proof. induction t; constructor; assumption. Qed.

(** A string that is [t] in another letter case has at most two bytes
    for each character of [t]. *)
Lemma sameIgnoringCase_length (s t : string) :
  sameIgnoringCase s t -> String.length s <= 2 * String.length t.
Proof.
  intros H. induction H as [ | c s t H IH | small capital s t Hin H IH ].
  - simpl. lia.
  - simpl. lia.
  - assert (Hsmall : String.length small <= 2).
    { unfold smallLetters in Hin.
      destruct (isCapital capital); [ | destruct Hin ].
      destruct Hin as [ <- | Hin ]; [ simpl; lia | ].
      destruct (capital =? "I")%char;
        [ destruct Hin as [ <- | [] ]; simpl; lia | ].
      destruct (capital =? "S")%char; [ | destruct Hin ].
      destruct Hin as [ <- | [] ]; simpl; lia. }
    rewrite length_append. simpl. lia.
Qed.

Lemma contains_length (s sub : string) :
  contains s sub -> String.length sub <= String.length s.
Proof.
  intros (pre & post & ->). rewrite !length_append. lia.
Qed.

Lemma toUpperCase_AWS_IAM (s : string) :
  toUpperCase s = "AWS_IAM" <-> sameIgnoringCase s "AWS_IAM".
Proof. apply toUpperCase_capitals. reflexivity. Qed.

Lemma toUpperCase_AWS (s : string) :
  toUpperCase s = "AWS" <-> sameIgnoringCase s "AWS".
Proof. apply toUpperCase_capitals. reflexivity. Qed.

Lemma iamTest_spec (a : value) : iamTest a = true <-> isIAMAuthorizer a.
Proof.
  unfold isIAMAuthorizer, iamTest. split.
  - destruct a as [ | | b | n | s | items | props ]; cbn [prop];
      try discriminate.
    + intros H. apply String.eqb_eq, toUpperCase_AWS_IAM in H.
      left. exists s. tauto.
    + destruct (lookup "type" props) as [ | | b | n | t | items | ps ];
        try discriminate.
      intros H. apply String.eqb_eq, toUpperCase_AWS_IAM in H.
      right. exists t. tauto.
  - intros [ (s & -> & H) | (t & Ht & H) ].
    + apply String.eqb_eq, toUpperCase_AWS_IAM, H.
    + destruct a as [ | | b | n | s | items | props ]; try discriminate Ht.
      cbn [prop] in *. rewrite Ht. apply String.eqb_eq, toUpperCase_AWS_IAM, H.
Qed.

Lemma cognitoTest_string (s : string) :
  contains s "arn:aws:cognito-idp" ->
  cognitoTest (VStr s) = true /\ customTest (VStr s) = false.
Proof.
  intros H. pose proof (contains_nonempty _ _ H) as Hne.
  apply includes_contains in H.
  unfold cognitoTest, customTest, arnIncludes.
  cbn -[includes toUpperCase String.eqb]. rewrite H.
  destruct (s =? "") eqn:Hs.
  - apply String.eqb_eq in Hs. exfalso. apply Hne; [ discriminate | exact Hs ].
  - cbn -[toUpperCase String.eqb]. rewrite andb_false_r. split; reflexivity.
Qed.

Lemma cognitoTest_arn (a : value) (s : string) :
  prop a "arn" = VStr s -> contains s "arn:aws:cognito-idp" ->
  cognitoTest a = true.
Proof.
  intros Harn H. apply includes_contains in H.
  unfold cognitoTest, arnIncludes. rewrite Harn, H, orb_true_r.
  destruct a; try discriminate Harn. reflexivity.
Qed.

(** ** The tally of events *)

Lemma sameName_eq (a b : option string) : sameName a b = true <-> a = b.
Proof.
  destruct a as [ x | ], b as [ y | ]; simpl; split; intros H;
    try discriminate; try reflexivity.
  - apply String.eqb_eq in H. congruence.
  - injection H as ->. apply String.eqb_refl.
Qed.

Lemma sameName_refl (a : option string) : sameName a a = true.
Proof. apply sameName_eq; reflexivity. Qed.

Lemma sameName_neq (a b : option string) : sameName a b = false <-> a <> b.
Proof.
  rewrite <- sameName_eq. destruct (sameName a b); split; congruence.
Qed.

Lemma countEvent_names (n m : option string) (t : list EventCount.t) :
  In m (map EventCount.name (countEvent n t))
  <-> m = n \/ In m (map EventCount.name t).
Proof.
  induction t as [ | e t IH ]; simpl.
  - intuition congruence.
  - destruct (sameName (EventCount.name e) n) eqn:He; simpl.
    + apply sameName_eq in He. intuition congruence.
    + rewrite IH. intuition.
Qed.

Lemma countEvent_NoDup (n : option string) (t : list EventCount.t) :
  NoDup (map EventCount.name t) ->
  NoDup (map EventCount.name (countEvent n t)).
Proof.
  induction t as [ | e t IH ]; simpl; intros H.
  - constructor; [ intros [] | constructor ].
  - inversion H as [ | x l Hnotin Hrest ]; subst.
    destruct (sameName (EventCount.name e) n) eqn:He; simpl.
    + constructor; assumption.
    + constructor; [ | apply IH, Hrest ].
      rewrite countEvent_names. intros [ Heq | Hin ]; [ | tauto ].
      apply sameName_neq in He. congruence.
Qed.

Lemma countEvent_countFor (n m : option string) (t : list EventCount.t) :
  countFor m (countEvent n t)
  = countFor m t + (if name_eq_dec n m then 1 else 0).
Proof.
  induction t as [ | e t IH ]; simpl.
  - destruct (name_eq_dec n m) as [ -> | Hne ].
    + rewrite sameName_refl. reflexivity.
    + apply sameName_neq in Hne. rewrite Hne. reflexivity.
  - destruct (sameName (EventCount.name e) n) eqn:He; simpl.
    + apply sameName_eq in He. rewrite He.
      destruct (name_eq_dec n m) as [ -> | Hne ].
      * rewrite sameName_refl. lia.
      * apply sameName_neq in Hne. rewrite Hne. lia.
    + rewrite IH. lia.
Qed.

Lemma tallyOf_snoc (names : list (option string)) (n : option string) :
  tallyOf (names ++ [n]) = countEvent n (tallyOf names).
Proof. unfold tallyOf. rewrite fold_left_app. reflexivity. Qed.

Lemma tallyOf_NoDup (names : list (option string)) :
  NoDup (map EventCount.name (tallyOf names)).
Proof.
  induction names as [ | n names IH ] using rev_ind.
  - constructor.
  - rewrite tallyOf_snoc. apply countEvent_NoDup, IH.
Qed.

Lemma tallyOf_names (names : list (option string)) (m : option string) :
  In m (map EventCount.name (tallyOf names)) <-> In m names.
Proof.
  induction names as [ | n names IH ] using rev_ind.
  - simpl. tauto.
  - rewrite tallyOf_snoc, countEvent_names, IH, in_app_iff. simpl.
    intuition congruence.
Qed.

Lemma tallyOf_countFor (names : list (option string)) (m : option string) :
  countFor m (tallyOf names) = occurrences m names.
Proof.
  unfold occurrences.
  induction names as [ | n names IH ] using rev_ind.
  - reflexivity.
  - rewrite tallyOf_snoc, countEvent_countFor, IH, count_occ_app. simpl.
    destruct (name_eq_dec n m); reflexivity.
Qed.

Lemma countFor_absent (m : option string) (t : list EventCount.t) :
  ~ In m (map EventCount.name t) -> countFor m t = 0.
Proof.
  induction t as [ | e t IH ]; simpl; intros H; [ reflexivity | ].
  destruct (sameName (EventCount.name e) m) eqn:He.
  - apply sameName_eq in He. tauto.
  - rewrite IH; tauto.
Qed.

Lemma countFor_entry (e : EventCount.t) (t : list EventCount.t) :
  NoDup (map EventCount.name t) -> In e t ->
  countFor (EventCount.name e) t = EventCount.count e.
Proof.
  induction t as [ | x t IH ]; simpl; intros Hnd Hin; [ contradiction | ].
  inversion Hnd as [ | y l Hnotin Hrest ]; subst.
  destruct Hin as [ -> | Hin ].
  - rewrite sameName_refl, countFor_absent; [ lia | assumption ].
  - destruct (sameName (EventCount.name x) (EventCount.name e)) eqn:He.
    + apply sameName_eq in He. exfalso. apply Hnotin. rewrite He.
      apply in_map, Hin.
    + rewrite IH; tauto.
Qed.

Lemma tallyOf_count (names : list (option string)) (e : EventCount.t) :
  In e (tallyOf names) ->
  EventCount.count e = occurrences (EventCount.name e) names.
Proof.
  intros Hin. rewrite <- tallyOf_countFor.
  symmetry. apply countFor_entry; [ apply tallyOf_NoDup | exact Hin ].
Qed.

Lemma tallyOf_length (names : list (option string)) :
  List.length (tallyOf names) = List.length (nodup name_eq_dec names).
Proof.
  rewrite <- (length_map EventCount.name).
  apply Permutation_length, NoDup_Permutation.
  - apply tallyOf_NoDup.
  - apply NoDup_nodup.
  - intros m. rewrite tallyOf_names, nodup_In. tauto.
Qed.

(** ** The payload *)

Section Payload.

Context {E : Engine}.

Lemma executor_Some (host : Host.t) (this : Utils.t) (serverless : Serverless.t)
  (context : value) (data : Data.t) :
  executor host this serverless context = Ok (Some data) ->
  exists pairs vars inResources isAws,
    memorySizeAndTimeoutPerFunction this
      (Service.functions (Serverless.service serverless)) = Ok pairs
    /\ eventInformation (Service.functions (Serverless.service serverless))
       = Ok vars
    /\ hasCustomResourcesDefined
         (Service.resources (Serverless.service serverless)) = Ok inResources
    /\ isAwsProvider (Service.provider (Serverless.service serverless))
       = Ok isAws
    /\ Properties.functions (Data.properties data)
       = {| FunctionStats.numberOfFunctions :=
              List.length (Service.functions (Serverless.service serverless));
            FunctionStats.memorySizeAndTimeoutPerFunction := pairs |}
    /\ Properties.events (Data.properties data)
       = {| EventStats.numberOfEvents :=
              List.length (Vars.numberOfEventsPerType vars);
            EventStats.numberOfEventsPerType := Vars.numberOfEventsPerType vars;
            EventStats.eventNamesPerFunction := Vars.eventNamesPerFunction vars |}
    /\ ServiceStats.hasCustomResourcesDefined
         (Properties.service (Data.properties data)) = inResources
    /\ Properties.aws (Data.properties data)
       = if isAws then
           Some {| Aws.hasIAMAuthorizer := Vars.hasIAMAuthorizer vars;
                   Aws.hasCustomAuthorizer := Vars.hasCustomAuthorizer vars;
                   Aws.hasCognitoAuthorizer := Vars.hasCognitoAuthorizer vars |}
         else None.
Proof.
  unfold executor. cbv zeta. intros H.
  bind_inv H. bind_inv H. bind_inv H.
  destruct (truthy r1); [ discriminate H | ].
  bind_inv H. bind_inv H. bind_inv H. bind_inv H. 
  bind_inv H. bind_inv H. bind_inv H. bind_inv H. bind_inv H. bind_inv H.
  bind_inv H.
  injection H as <-. cbn.
  do 4 eexists. repeat split; eassumption.
Qed.


Lemma Number_primitive (v : value) :
  primitive v = true -> exists n, Number v = Ok n.
Proof.
  destruct v as [ | | [ | ] | n | s | items | props ]; simpl; intros H;
    try discriminate H; eexists; reflexivity.
Qed.

Lemma numberOf_Ok (v : value) (n : float) : Number v = Ok n -> numberOf v = n.
Proof. unfold numberOf. intros ->. reflexivity. Qed.

Lemma chain_Ok (own provider : value) (k : string) (fallback r : float) :
  orNumber (Number own)
    (orNumber (v <- get provider k ;; Number v) (Ok fallback)) = Ok r ->
  r = firstTruthyNumber own (prop provider k) fallback.
Proof.
  unfold orNumber, firstTruthyNumber. intros H.
  bind_inv H as n Hn. rewrite (numberOf_Ok _ _ Hn).
  destruct (truthyNumber n); [ injection H as <-; reflexivity | ].
  bind_inv H as m Hm. bind_inv Hm as v Hv.
  apply get_Ok_inv in Hv. destruct Hv as (-> & _).
  rewrite (numberOf_Ok _ _ Hm).
  destruct (truthyNumber m); injection H as <-; reflexivity.
Qed.

Lemma chain_primitive (own provider : value) (k : string) (fallback : float) :
  nullish provider = false ->
  primitive own = true -> primitive (prop provider k) = true ->
  exists r,
    orNumber (Number own)
      (orNumber (v <- get provider k ;; Number v) (Ok fallback)) = Ok r.
Proof.
  intros Hp Hown Hinherited. unfold orNumber.
  destruct (Number_primitive _ Hown) as (n & ->).
  rewrite (get_not_nullish _ _ Hp). cbn [bind].
  destruct (Number_primitive _ Hinherited) as (m & ->). cbn [bind].
  destruct (truthyNumber n); [ eexists; reflexivity | ].
  destruct (truthyNumber m); eexists; reflexivity.
Qed.

Lemma memorySizeAndTimeoutObject_Ok (this : Utils.t) (func : FunctionSpec.t)
  (pair : MemorySizeAndTimeout.t) :
  memorySizeAndTimeoutObject this func = Ok pair ->
  let this_provider :=
    Service.provider (Serverless.service (Utils.serverless this)) in
  MemorySizeAndTimeout.memorySize pair
  = firstTruthyNumber (FunctionSpec.memorySize func)
      (prop this_provider "memorySize") 1024
  /\ MemorySizeAndTimeout.timeout pair
     = firstTruthyNumber (FunctionSpec.timeout func)
         (prop this_provider "timeout") 6.
Proof.
  unfold memorySizeAndTimeoutObject. cbv zeta. intros H.
  bind_inv H as memorySize Hm. bind_inv H as timeout Ht.
  injection H as <-. simpl.
  split; [ apply (chain_Ok _ _ _ _ _ Hm) | apply (chain_Ok _ _ _ _ _ Ht) ].
Qed.

Lemma pushed_Forall2 {A B : Type} (g : A -> result B) (l : list A) :
  forall acc acc' : list B,
    forEach (fun pushed x => y <- g x ;; Ok (pushed ++ [y])) l acc = Ok acc' ->
    exists ys, acc' = acc ++ ys /\ Forall2 (fun x y => g x = Ok y) l ys.
Proof.
  induction l as [ | x l IH ]; intros acc acc'; simpl; intros H.
  - injection H as <-. exists []. rewrite app_nil_r. split; constructor.
  - bind_inv H as acc1 Hacc. bind_inv Hacc as y Hy. injection Hacc as <-.
    apply IH in H. destruct H as (ys & -> & Hall).
    exists (y :: ys). rewrite <- app_assoc. split; [ reflexivity | ].
    constructor; assumption.
Qed.

Lemma memorySizeAndTimeoutPerFunction_Ok (this : Utils.t)
  (functions : list (string * FunctionSpec.t))
  (pairs : list MemorySizeAndTimeout.t) :
  memorySizeAndTimeoutPerFunction this functions = Ok pairs ->
  Forall2 (fun func pair => memorySizeAndTimeoutObject this (snd func) = Ok pair)
    functions pairs.
Proof.
  unfold memorySizeAndTimeoutPerFunction. cbv zeta.
  destruct functions as [ | f functions ].
  - simpl. intros H; injection H as <-. constructor.
  - change (0 <? Datatypes.length (f :: functions))%nat with true. cbv iota.
    intros H. apply pushed_Forall2 in H. destruct H as (ys & -> & Hall).
    simpl app. clear -Hall. remember (map snd (f :: functions)) as l eqn:Hl.
    revert Hl. generalize (f :: functions). clear f functions.
    induction Hall as [ | x y l ys Hxy Hall IH ]; intros fs Hl.
    + destruct fs; [ constructor | discriminate Hl ].
    + destruct fs as [ | f fs ]; [ discriminate Hl | ].
      injection Hl as -> ->. constructor; [ exact Hxy | apply IH; reflexivity ].
Qed.

(** ** Resources and provider *)

Lemma ownKeys_falsy (v : value) : truthy v = false -> ownKeys v = [].
Proof.
  destruct v as [ | | b | n | s | items | props ]; simpl; intros H;
    try reflexivity; try discriminate H.
  apply negb_false_iff, String.eqb_eq in H. subst s. reflexivity.
Qed.

Lemma section_hasKeys (resources : value) (k : string) :
  (Ok (truthy resources)
   &&& isTruthy (get resources k)
   &&& hasKeys (get resources k))
  = Ok (0 <? List.length (ownKeys (prop resources k)))%nat.
Proof.
  unfold andThen, isTruthy, hasKeys. cbn [bind].
  destruct (truthy resources) eqn:Hr.
  - rewrite (get_truthy _ _ Hr). cbn [bind].
    destruct (truthy (prop resources k)) eqn:Hk.
    + unfold Object_keys.
      destruct (prop resources k); try discriminate Hk; reflexivity.
    + rewrite (ownKeys_falsy _ Hk). reflexivity.
  - destruct resources; try discriminate Hr; reflexivity.
Qed.

Lemma hasCustomResourcesDefined_Ok (resources : value) :
  hasCustomResourcesDefined resources
  = Ok ((0 <? List.length (ownKeys (prop resources "Resources")))%nat
        || (0 <? List.length (ownKeys (prop resources "Outputs")))%nat).
Proof.
  unfold hasCustomResourcesDefined. rewrite !section_hasKeys. cbn [bind].
  destruct (0 <? _)%nat, (0 <? _)%nat; reflexivity.
Qed.

Lemma positive_length {A : Type} (l : list A) :
  (0 <? List.length l)%nat = true <-> l <> [].
Proof.
  destruct l as [ | x l ]; simpl; split; intros H.
  - discriminate H.
  - exfalso; apply H; reflexivity.
  - discriminate.
  - reflexivity.
Qed.

Lemma isAwsProvider_Ok (provider : value) (b : bool) :
  isAwsProvider provider = Ok b ->
  (b = true <->
   exists s, prop provider "name" = VStr s /\ sameIgnoringCase s "AWS").
Proof.
  unfold isAwsProvider, andThen, isTruthy, upperCaseIs.
  cbn [bind].
  destruct (truthy provider) eqn:Hp.
  - rewrite (get_truthy _ _ Hp). cbn [bind].
    destruct (prop provider "name") as [ | | c | n | s | items | props ];
      cbn -[String.eqb toUpperCase]; intros H.
    1-2, 6-7:
      first [ discriminate H
            | injection H as <-;
              split; [ discriminate | intros (s & Hs & _); discriminate Hs ] ].
    + destruct c; [ discriminate H | injection H as <- ].
      split; [ discriminate | intros (s & Hs & _); discriminate Hs ].
    + destruct (truthyNumber n); [ discriminate H | injection H as <- ].
      split; [ discriminate | intros (s & Hs & _); discriminate Hs ].
    + destruct (negb (s =? "")) eqn:Hs.
      * injection H as <-. rewrite String.eqb_eq, toUpperCase_AWS.
        split; [ intros Hu; exists s; split; [ reflexivity | exact Hu ]
               | intros (s' & Hs' & Hu); injection Hs' as ->; exact Hu ].
      * injection H as <-. apply negb_false_iff, String.eqb_eq in Hs. subst s.
        split; [ discriminate | ].
        intros (s' & Hs' & Hu). injection Hs' as <-.
        apply toUpperCase_AWS in Hu. discriminate Hu.
  - intros H; injection H as <-.
    split; [ discriminate | intros (s & Hs & _) ].
    destruct provider; try discriminate Hs; discriminate Hp.
Qed.

End Payload.

(** ** Authorizers *)

Lemma eventInformation_flags (functions : list (string * FunctionSpec.t))
  (vars : Vars.t) :
  eventInformation functions = Ok vars ->
  Vars.hasIAMAuthorizer vars
  = existsb (fun e => iamTest (authorizerOf e)) (allEvents functions)
  /\ Vars.hasCustomAuthorizer vars
     = existsb (fun e => customTest (authorizerOf e)) (allEvents functions)
  /\ Vars.hasCognitoAuthorizer vars
     = existsb (fun e => cognitoTest (authorizerOf e)) (allEvents functions).
Proof.
  intros H. apply eventInformation_Ok in H.
  destruct H as (_ & _ & I & C & G). simpl in I, C, G.
  rewrite orb_false_r in I, C, G. auto.
Qed.

Lemma eventInformation_tally (functions : list (string * FunctionSpec.t))
  (vars : Vars.t) :
  eventInformation functions = Ok vars ->
  Vars.numberOfEventsPerType vars = tallyOf (allEventNames functions)
  /\ Vars.eventNamesPerFunction vars
     = map (map eventName) (eventArrays functions).
Proof.
  intros H. apply eventInformation_Ok in H.
  destruct H as (T & N & _). simpl in T, N. auto.
Qed.

(** C3. When the event loop completes, [hasIAMAuthorizer] is true exactly
    when some event has an [http.authorizer] that is the string AWS_IAM or
    an object whose [type] is the string AWS_IAM, letter case ignored:
    the source compares after [toUpperCase], so that every letter may be
    a capital or a small one, the dotless i and the long s counting as
    small letters of I and S. When the only event of the service is an
    http event whose authorizer is the string AWS_IAM, in whatever letter
    case, the loop completes with [hasIAMAuthorizer] true and
    [hasCustomAuthorizer] and [hasCognitoAuthorizer] false. (An event is
    read through its [http] property, which for an event with a single
    key is the http event.) *)
Theorem hasIAMAuthorizer_exactly :
  forall functions : list (string * FunctionSpec.t),
    (forall vars : Vars.t,
        eventInformation functions = Ok vars ->
        (Vars.hasIAMAuthorizer vars = true <->
         exists event,
           In event (allEvents functions)
           /\ isIAMAuthorizer (authorizerOf event)))
    /\ (forall (event : Event) (http : value) (s : string),
           allEvents functions = [event] ->
           event = [("http", http)] ->
           prop http "authorizer" = VStr s ->
           sameIgnoringCase s "AWS_IAM" ->
           exists vars,
             eventInformation functions = Ok vars
             /\ Vars.hasIAMAuthorizer vars = true
             /\ Vars.hasCustomAuthorizer vars = false
             /\ Vars.hasCognitoAuthorizer vars = false).
Proof.
  intros functions. split.
  - intros vars H. apply eventInformation_flags in H. destruct H as (-> & _).
    rewrite existsb_exists. split; intros (event & Hin & Ha); exists event;
      (split; [ exact Hin | apply iamTest_spec, Ha ]).
  - intros event http s Hall -> Hauth Hsame.
    assert (Ha : authorizerOf [("http", http)] = VStr s)
      by (unfold authorizerOf; simpl; exact Hauth).
    destruct (eventInformation_total functions) as (vars & Hvars).
    { rewrite Hall. intros e [ <- | [] ]. rewrite Ha. reflexivity. }
    exists vars. split; [ exact Hvars | ].
    apply eventInformation_flags in Hvars. rewrite Hall in Hvars.
    cbn [existsb] in Hvars. rewrite Ha, !orb_false_r in Hvars.
    destruct Hvars as (-> & -> & ->).
    pose proof (proj2 (toUpperCase_AWS_IAM s) Hsame) as Hupper.
    assert (Hcognito : includes s "arn:aws:cognito-idp" = false).
    { destruct (includes s "arn:aws:cognito-idp") eqn:Hc; [ | reflexivity ].
      apply includes_contains, contains_length in Hc.
      apply sameIgnoringCase_length in Hsame. simpl in Hc, Hsame. lia. }
    unfold iamTest, customTest, cognitoTest, arnIncludes. cbn [prop truthy].
    rewrite Hupper, Hcognito. cbn. rewrite !andb_false_r. auto.
Qed.

(** C4. When the event loop completes and some event has an
    [http.authorizer] that is a string containing arn:aws:cognito-idp, or
    an object whose [arn] is such a string, [hasCognitoAuthorizer] is true.
    The callback of an event whose authorizer is such a string does not
    throw, sets [hasCognitoAuthorizer] and leaves [hasCustomAuthorizer] as
    it was; so, when that event is the only one of the service,
    [hasCustomAuthorizer] is false. *)
Theorem hasCognitoAuthorizer_set :
  (forall (functions : list (string * FunctionSpec.t)) (vars : Vars.t)
          (event : Event),
      eventInformation functions = Ok vars ->
      In event (allEvents functions) ->
      (exists s, authorizerOf event = VStr s
                 /\ contains s "arn:aws:cognito-idp")
      \/ (exists s, prop (authorizerOf event) "arn" = VStr s
                    /\ contains s "arn:aws:cognito-idp") ->
      Vars.hasCognitoAuthorizer vars = true)
  /\ (forall (vars : Vars.t) (funcEventsArray : list (option string))
             (event : Event) (s : string),
         authorizerOf event = VStr s ->
         contains s "arn:aws:cognito-idp" ->
         exists vars',
           eventCallback (vars, funcEventsArray) event
           = Ok (vars', funcEventsArray ++ [eventName event])
           /\ Vars.hasCognitoAuthorizer vars' = true
           /\ Vars.hasCustomAuthorizer vars' = Vars.hasCustomAuthorizer vars)
  /\ (forall (functions : list (string * FunctionSpec.t)) (event : Event)
             (s : string),
         allEvents functions = [event] ->
         authorizerOf event = VStr s ->
         contains s "arn:aws:cognito-idp" ->
         exists vars,
           eventInformation functions = Ok vars
           /\ Vars.hasCognitoAuthorizer vars = true
           /\ Vars.hasCustomAuthorizer vars = false).
Proof.
  split; [ | split ].
  - intros functions vars event H Hin Href.
    apply eventInformation_flags in H. destruct H as (_ & _ & ->).
    apply existsb_exists. exists event. split; [ exact Hin | ].
    destruct Href as [ (s & -> & Hs) | (s & Harn & Hs) ].
    + apply cognitoTest_string, Hs.
    + exact (cognitoTest_arn _ _ Harn Hs).
  - intros vars arr event s Ha Hs.
    destruct (eventCallback_total vars arr event) as ((vars', arr') & Hstep).
    { rewrite Ha. reflexivity. }
    destruct (eventCallback_Ok _ _ _ _ _ Hstep) as (-> & _ & _ & _ & C & G).
    exists vars'. split; [ exact Hstep | ].
    simpl in C, G. rewrite Ha in C, G.
    destruct (cognitoTest_string _ Hs) as (Hg & Hc).
    rewrite Hg in G. rewrite Hc in C. auto.
  - intros functions event s Hall Ha Hs.
    destruct (eventInformation_total functions) as (vars & Hvars).
    { rewrite Hall. intros e [ <- | [] ]. rewrite Ha. reflexivity. }
    exists vars. split; [ exact Hvars | ].
    apply eventInformation_flags in Hvars. rewrite Hall in Hvars.
    simpl in Hvars. rewrite Ha in Hvars.
    destruct (cognitoTest_string _ Hs) as (Hg & Hc).
    rewrite Hg, Hc in Hvars. tauto.
Qed.

(** ** The tally in the payload *)

Lemma tallyOf_entries (names : list (option string)) :
  tallyOf names
  = map (fun n => {| EventCount.name := n;
                     EventCount.count := occurrences n names |})
      (map EventCount.name (tallyOf names)).
Proof.
  rewrite map_map. rewrite <- (map_id (tallyOf names)) at 1.
  apply map_ext_in. intros e He. rewrite <- (tallyOf_count _ _ He).
  destruct e; reflexivity.
Qed.

Lemma tallyOf_http_s3 (names : list (option string)) :
  Permutation names [Some "http"; Some "s3"; Some "http"; Some "s3"] ->
  Permutation (tallyOf names)
    [ {| EventCount.name := Some "http"; EventCount.count := 2 |};
      {| EventCount.name := Some "s3"; EventCount.count := 2 |} ].
Proof.
  intros Hperm. rewrite tallyOf_entries.
  assert (Hnames : Permutation (map EventCount.name (tallyOf names))
                     [Some "http"; Some "s3"]).
  { apply NoDup_Permutation.
    - apply tallyOf_NoDup.
    - repeat constructor; simpl; intuition discriminate.
    - intros m. rewrite tallyOf_names.
      rewrite (Permutation_in' (eq_refl m) Hperm). simpl. tauto. }
  apply (Permutation_map
           (fun n => {| EventCount.name := n;
                        EventCount.count := occurrences n names |})) in Hnames.
  simpl in Hnames. unfold occurrences in Hnames.
  rewrite !(proj1 (Permutation_count_occ name_eq_dec names _) Hperm) in Hnames.
  exact Hnames.
Qed.

Section Claims.

Context {E : Engine}.

Lemma payload_events (host : Host.t) (this : Utils.t) (serverless : Serverless.t)
  (context : value) (data : Data.t) :
  executor host this serverless context = Ok (Some data) ->
  let functions := Service.functions (Serverless.service serverless) in
  Properties.events (Data.properties data)
  = {| EventStats.numberOfEvents :=
         List.length (tallyOf (allEventNames functions));
       EventStats.numberOfEventsPerType := tallyOf (allEventNames functions);
       EventStats.eventNamesPerFunction :=
         map (map eventName) (eventArrays functions) |}.
Proof.
  intros H. apply executor_Some in H.
  destruct H as (pairs & vars & inResources & isAws
                 & _ & Hvars & _ & _ & _ & -> & _).
  apply eventInformation_tally in Hvars. destruct Hvars as (-> & ->).
  reflexivity.
Qed.

(** C5. In the payload, [numberOfEventsPerType] has no two entries with
    the same name, its names are exactly the names of the events of all
    the functions, and the count of an entry is the number of events of
    that name in the whole service. For two functions that each have one
    http and one s3 event, in any order, it consists of
    [{name: "http", count: 2}] and [{name: "s3", count: 2}], in some
    order. *)
Theorem numberOfEventsPerType_counts :
  forall (host : Host.t) (this : Utils.t) (serverless : Serverless.t)
         (context : value) (data : Data.t),
    executor host this serverless context = Ok (Some data) ->
    let functions := Service.functions (Serverless.service serverless) in
    let numberOfEventsPerType :=
      EventStats.numberOfEventsPerType (Properties.events (Data.properties data)) in
    NoDup (map EventCount.name numberOfEventsPerType)
    /\ (forall name,
           In name (map EventCount.name numberOfEventsPerType)
           <-> In name (allEventNames functions))
    /\ (forall entry,
           In entry numberOfEventsPerType ->
           EventCount.count entry
           = occurrences (EventCount.name entry) (allEventNames functions))
    /\ (forall f1 f2 events1 events2,
           functions = [f1; f2] ->
           FunctionSpec.events (snd f1) = Some events1 ->
           FunctionSpec.events (snd f2) = Some events2 ->
           Permutation (map eventName events1) [Some "http"; Some "s3"] ->
           Permutation (map eventName events2) [Some "http"; Some "s3"] ->
           Permutation numberOfEventsPerType
             [ {| EventCount.name := Some "http"; EventCount.count := 2 |};
               {| EventCount.name := Some "s3"; EventCount.count := 2 |} ]).
Proof.
  intros host this serverless context data H functions numberOfEventsPerType.
  apply payload_events in H. fold functions in H.
  subst numberOfEventsPerType. rewrite H. cbn [EventStats.numberOfEventsPerType].
  split; [ apply tallyOf_NoDup | ].
  split; [ apply tallyOf_names | ].
  split; [ apply tallyOf_count | ].
  intros f1 f2 events1 events2 Hfs H1 H2 P1 P2.
  apply tallyOf_http_s3. rewrite Hfs.
  unfold allEventNames, allEvents, eventArrays. simpl. rewrite H1, H2. simpl.
  rewrite app_nil_r, map_app.
  transitivity ([Some "http"; Some "s3"] ++ map eventName events2).
  - apply Permutation_app_tail, P1.
  - transitivity ([Some "http"; Some "s3"] ++ [Some "http"; Some "s3"]).
    + apply Permutation_app_head, P2.
    + simpl. apply perm_skip, perm_skip. reflexivity.
Qed.

(** C10. In the payload, [numberOfEvents] is the length of
    [numberOfEventsPerType], that is the number of distinct names among
    the events of the service, and not the number of events: for one
    function with three http events it is 1. *)
Theorem numberOfEvents_distinct_names :
  forall (host : Host.t) (this : Utils.t) (serverless : Serverless.t)
         (context : value) (data : Data.t),
    executor host this serverless context = Ok (Some data) ->
    let functions := Service.functions (Serverless.service serverless) in
    let events := Properties.events (Data.properties data) in
    EventStats.numberOfEvents events
    = List.length (EventStats.numberOfEventsPerType events)
    /\ EventStats.numberOfEvents events
       = List.length (nodup name_eq_dec (allEventNames functions))
    /\ (forall f event1 event2 event3,
           functions = [f] ->
           FunctionSpec.events (snd f) = Some [event1; event2; event3] ->
           eventName event1 = Some "http" ->
           eventName event2 = Some "http" ->
           eventName event3 = Some "http" ->
           EventStats.numberOfEvents events = 1).
Proof.
  intros host this serverless context data H functions events.
  apply payload_events in H. fold functions in H.
  subst events. rewrite H.
  cbn [EventStats.numberOfEvents EventStats.numberOfEventsPerType].
  split; [ reflexivity | ].
  split; [ apply tallyOf_length | ].
  intros f event1 event2 event3 Hfs Hf H1 H2 H3.
  rewrite Hfs. unfold allEventNames, allEvents, eventArrays. simpl.
  rewrite Hf. simpl. rewrite H1, H2, H3. reflexivity.
Qed.

(** C7, as the code has it. A function whose [events] is absent changes
    nothing: the event loop gives the same result with and without it. A
    function whose [events] is the empty array leaves the tally and the
    flags as they are and pushes an empty array to
    [eventNamesPerFunction]. In the payload, [eventNamesPerFunction] has
    one array of names for each function whose [events] is given, in the
    order of the functions, and the tally counts the events of those
    functions. *)
Theorem functions_without_events :
  (forall (functions1 functions2 : list (string * FunctionSpec.t))
          (f : string * FunctionSpec.t),
      FunctionSpec.events (snd f) = None ->
      eventInformation (functions1 ++ f :: functions2)
      = eventInformation (functions1 ++ functions2))
  /\ (forall (vars : Vars.t) (func : FunctionSpec.t),
         FunctionSpec.events func = Some [] ->
         functionCallback vars func
         = Ok {| Vars.numberOfEventsPerType := Vars.numberOfEventsPerType vars;
                 Vars.eventNamesPerFunction :=
                   Vars.eventNamesPerFunction vars ++ [[]];
                 Vars.hasIAMAuthorizer := Vars.hasIAMAuthorizer vars;
                 Vars.hasCustomAuthorizer := Vars.hasCustomAuthorizer vars;
                 Vars.hasCognitoAuthorizer := Vars.hasCognitoAuthorizer vars |})
  /\ (forall (host : Host.t) (this : Utils.t) (serverless : Serverless.t)
             (context : value) (data : Data.t),
         executor host this serverless context = Ok (Some data) ->
         let functions := Service.functions (Serverless.service serverless) in
         let events := Properties.events (Data.properties data) in
         EventStats.eventNamesPerFunction events
         = map (map eventName) (eventArrays functions)
         /\ EventStats.numberOfEventsPerType events
            = tallyOf (allEventNames functions)).
Proof.
  split; [ | split ].
  - intros functions1 functions2 f Hf. unfold eventInformation.
    assert (Hloop : forall vars,
               forEach functionCallback (map snd (functions1 ++ f :: functions2)) vars
               = forEach functionCallback (map snd (functions1 ++ functions2)) vars).
    { intros vars. rewrite !map_app, !forEach_app. cbn [map forEach].
      destruct (forEach functionCallback (map snd functions1) vars) as [ v | e ];
        cbn [bind]; [ | reflexivity ].
      replace (functionCallback v (snd f)) with (Ok v)
        by (unfold functionCallback; rewrite Hf; reflexivity).
      reflexivity. }
    rewrite Hloop.
    destruct (functions1 ++ functions2) as [ | g gs ] eqn:Hrest.
    + apply app_eq_nil in Hrest. destruct Hrest as (-> & ->).
      reflexivity.
    + rewrite length_app. simpl.
      destruct (Datatypes.length functions1 + S (Datatypes.length functions2))%nat
        eqn:Hlen; [ lia | reflexivity ].
  - intros vars func Hf. unfold functionCallback. rewrite Hf. reflexivity.
  - intros host this serverless context data H functions events.
    apply payload_events in H. fold functions in H.
    subst events. rewrite H. split; reflexivity.
Qed.

(** C6. In the payload, [hasCustomResourcesDefined] is true exactly when
    [resources.Resources] has at least one key or [resources.Outputs] has
    at least one key; so it is true when [resources.Resources] is an
    object with one key, and false when [resources] is absent. *)
Theorem hasCustomResourcesDefined_iff :
  forall (host : Host.t) (this : Utils.t) (serverless : Serverless.t)
         (context : value) (data : Data.t),
    executor host this serverless context = Ok (Some data) ->
    let resources := Service.resources (Serverless.service serverless) in
    let flag :=
      ServiceStats.hasCustomResourcesDefined
        (Properties.service (Data.properties data)) in
    (flag = true <->
     ownKeys (prop resources "Resources") <> []
     \/ ownKeys (prop resources "Outputs") <> [])
    /\ ((exists k v, prop resources "Resources" = VObj [(k, v)]) -> flag = true)
    /\ (resources = VUndefined -> flag = false).
Proof.
  intros host this serverless context data H resources flag.
  apply executor_Some in H.
  destruct H as (pairs & vars & inResources & isAws
                 & _ & _ & Hres & _ & _ & _ & Hflag & _).
  fold resources in Hres. fold flag in Hflag.
  rewrite hasCustomResourcesDefined_Ok in Hres. injection Hres as Hres.
  rewrite Hflag, <- Hres, orb_true_iff, !positive_length.
  split; [ tauto | ]. split.
  - intros (k & v & ->). left. discriminate.
  - intros ->. reflexivity.
Qed.

(** C9. The payload has an [aws] section exactly when the provider name is
    a string equal to AWS, letter case ignored (the source compares after
    [toUpperCase], so that the long s counts as a small letter of S); for
    any other name, or none, the section is absent. When present, it
    holds the three authorizer flags of the event loop. *)
Theorem aws_section_iff :
  forall (host : Host.t) (this : Utils.t) (serverless : Serverless.t)
         (context : value) (data : Data.t),
    executor host this serverless context = Ok (Some data) ->
    let provider := Service.provider (Serverless.service serverless) in
    let functions := Service.functions (Serverless.service serverless) in
    let isAWS :=
      exists s, prop provider "name" = VStr s /\ sameIgnoringCase s "AWS" in
    ((exists aws, Properties.aws (Data.properties data) = Some aws) <-> isAWS)
    /\ (Properties.aws (Data.properties data) = None <-> ~ isAWS)
    /\ (forall aws,
           Properties.aws (Data.properties data) = Some aws ->
           exists vars,
             eventInformation functions = Ok vars
             /\ aws = {| Aws.hasIAMAuthorizer := Vars.hasIAMAuthorizer vars;
                         Aws.hasCustomAuthorizer := Vars.hasCustomAuthorizer vars;
                         Aws.hasCognitoAuthorizer :=
                           Vars.hasCognitoAuthorizer vars |}).
Proof.
  intros host this serverless context data H provider functions isAWS.
  apply executor_Some in H.
  destruct H as (pairs & vars & inResources & isAws
                 & _ & Hvars & _ & Haws & _ & _ & _ & ->).
  apply isAwsProvider_Ok in Haws. fold provider isAWS in Haws.
  destruct isAws.
  - assert (Hyes : isAWS) by (apply Haws; reflexivity).
    split; [ split; [ intros _; exact Hyes | intros _; eexists; reflexivity ] | ].
    split; [ split; [ discriminate | intros Hno; contradiction ] | ].
    intros aws Hsome. injection Hsome as <-. exists vars. split; [ exact Hvars | reflexivity ].
  - assert (Hno : ~ isAWS) by (intros Hyes; apply Haws in Hyes; discriminate Hyes).
    split; [ split; [ intros (aws & Hsome); discriminate Hsome | intros Hyes; contradiction ] | ].
    split; [ split; [ intros _; exact Hno | reflexivity ] | ].
    intros aws Hsome. discriminate Hsome.
Qed.

(** C2, as the code has it. In the payload, the pair of each function has
    [memorySize] equal to [Number] of the function's value when that is
    neither [0] nor [NaN], else to [Number] of [memorySize] of the provider
    of [this.serverless.service] when that is neither [0] nor [NaN], else
    to [1024]; [timeout] follows the same chain and ends in [6]. A number
    other than [0] and [NaN] at the function is taken as it is. With
    neither value at the function nor at the provider, the pair is
    [{memorySize: 1024, timeout: 6}]. When the provider exists and the
    four values are absent, [null], booleans, numbers or strings, the
    computation does not throw. *)
Theorem memorySize_timeout_fallback :
  forall this : Utils.t,
    let this_provider :=
      Service.provider (Serverless.service (Utils.serverless this)) in
    (forall (host : Host.t) (serverless : Serverless.t) (context : value)
            (data : Data.t),
        executor host this serverless context = Ok (Some data) ->
        Forall2
          (fun func pair =>
             MemorySizeAndTimeout.memorySize pair
             = firstTruthyNumber (FunctionSpec.memorySize (snd func))
                 (prop this_provider "memorySize") 1024
             /\ MemorySizeAndTimeout.timeout pair
                = firstTruthyNumber (FunctionSpec.timeout (snd func))
                    (prop this_provider "timeout") 6)
          (Service.functions (Serverless.service serverless))
          (FunctionStats.memorySizeAndTimeoutPerFunction
             (Properties.functions (Data.properties data))))
    /\ (forall (n : float) (inherited : value) (fallback : float),
           truthyNumber n = true ->
           firstTruthyNumber (VNum n) inherited fallback = n)
    /\ (forall func : FunctionSpec.t,
           nullish this_provider = false ->
           FunctionSpec.memorySize func = VUndefined ->
           FunctionSpec.timeout func = VUndefined ->
           prop this_provider "memorySize" = VUndefined ->
           prop this_provider "timeout" = VUndefined ->
           memorySizeAndTimeoutObject this func
           = Ok {| MemorySizeAndTimeout.memorySize := 1024;
                   MemorySizeAndTimeout.timeout := 6 |})
    /\ (forall func : FunctionSpec.t,
           nullish this_provider = false ->
           primitive (FunctionSpec.memorySize func) = true ->
           primitive (FunctionSpec.timeout func) = true ->
           primitive (prop this_provider "memorySize") = true ->
           primitive (prop this_provider "timeout") = true ->
           exists pair, memorySizeAndTimeoutObject this func = Ok pair).
Proof.
  intros this this_provider. split; [ | split; [ | split ] ].
  - intros host serverless context data H. apply executor_Some in H.
    destruct H as (pairs & vars & inResources & isAws
                   & Hpairs & _ & _ & _ & -> & _).
    cbn [FunctionStats.memorySizeAndTimeoutPerFunction].
    apply memorySizeAndTimeoutPerFunction_Ok in Hpairs.
    induction Hpairs as [ | func pair functions pairs Hpair _ IH ];
      constructor; [ | exact IH ].
    apply memorySizeAndTimeoutObject_Ok, Hpair.
  - intros n inherited fallback Hn. unfold firstTruthyNumber, numberOf.
    simpl. rewrite Hn. reflexivity.
  - intros func Hp Hm Ht Hpm Hpt. unfold memorySizeAndTimeoutObject.
    fold this_provider. rewrite Hm, Ht, !(get_not_nullish _ _ Hp), Hpm, Hpt.
    reflexivity.
  - intros func Hp Hm Ht Hpm Hpt. unfold memorySizeAndTimeoutObject.
    fold this_provider.
    destruct (chain_primitive _ _ "memorySize" 1024%float Hp Hm Hpm) as (m & ->).
    destruct (chain_primitive _ _ "timeout" 6%float Hp Ht Hpt) as (t & ->).
    eexists; reflexivity.
Qed.

End Claims.

(** ** The properties on the example inputs *)

Lemma logStat_tracking_disabled_witness :
  executor (E := exampleEngine) optedOutHost (utilsOf mediaService)
    mediaService VUndefined = Ok None
  /\ logStat (E := exampleEngine) optedOutHost (utilsOf mediaService)
       mediaService VUndefined []
     = (Fulfilled VUndefined, []).
Proof.
  apply (@logStat_tracking_disabled exampleEngine optedOutHost
           (utilsOf mediaService) mediaService VUndefined []
           (VObj [("frameworkId", VStr "f1a2b3");
                  ("trackingDisabled", VBool true)]));
    reflexivity.
Defined.

Lemma logStat_config_read_failure_witness :
  logStat (E := exampleEngine) unreadableHost (utilsOf routesService)
    routesService (VStr "install") []
  = (Rejected (Thrown (VStr "EACCES: permission denied")), []).
Proof.
  apply (@logStat_config_read_failure exampleEngine unreadableHost).
  reflexivity.
Defined.

(** C8 as stated fails: with a configuration that cannot be read, the
    promise of [logStat] is rejected with the error of the read. It is
    rejected as well when the read yields [undefined], and when the read
    yields an empty configuration the payload is handed to
    [segment.track]. *)
Lemma unreadable_config_rejects :
  (Host.getConfig unreadableHost
   = Throw (Thrown (VStr "EACCES: permission denied"))
   /\ logStat (E := exampleEngine) unreadableHost (utilsOf mediaService)
        mediaService VUndefined []
      = (Rejected (Thrown (VStr "EACCES: permission denied")), []))
  /\ logStat (E := exampleEngine) (hostWith (Ok VUndefined))
       (utilsOf mediaService) mediaService VUndefined []
     = (Rejected TypeError, [])
  /\ exists data,
       logStat (E := exampleEngine) (hostWith (Ok (VObj [])))
         (utilsOf mediaService) mediaService VUndefined []
       = (Fulfilled VUndefined, [data]).
Proof.
  split; [ split; reflexivity | ].
  split; [ reflexivity | eexists; reflexivity ].
Qed.

Lemma hasIAMAuthorizer_exactly_witness :
  (exists vars,
      eventInformation
        (Service.functions
           (Serverless.service (serviceWithAuthorizer (VStr "aws_iam"))))
      = Ok vars
      /\ Vars.hasIAMAuthorizer vars = true
      /\ Vars.hasCustomAuthorizer vars = false
      /\ Vars.hasCognitoAuthorizer vars = false)
  /\ (exists vars,
         eventInformation
           (Service.functions
              (Serverless.service (serviceWithAuthorizer (VStr "Aws_ıam"))))
         = Ok vars
         /\ Vars.hasIAMAuthorizer vars = true
         /\ Vars.hasCustomAuthorizer vars = false
         /\ Vars.hasCognitoAuthorizer vars = false).
Proof.
  split.
  - apply (proj2 (hasIAMAuthorizer_exactly
                    (Service.functions
                       (Serverless.service
                          (serviceWithAuthorizer (VStr "aws_iam")))))
             (httpEvent (VStr "aws_iam"))
             (VObj [("path", VStr "users"); ("method", VStr "get");
                    ("authorizer", VStr "aws_iam")])
             "aws_iam");
      try reflexivity.
    apply toUpperCase_AWS_IAM. reflexivity.
  - apply (proj2 (hasIAMAuthorizer_exactly
                    (Service.functions
                       (Serverless.service
                          (serviceWithAuthorizer (VStr "Aws_ıam")))))
             (httpEvent (VStr "Aws_ıam"))
             (VObj [("path", VStr "users"); ("method", VStr "get");
                    ("authorizer", VStr "Aws_ıam")])
             "Aws_ıam");
      try reflexivity.
    apply toUpperCase_AWS_IAM. reflexivity.
Defined.

Lemma hasCognitoAuthorizer_set_witness :
  exists vars,
    eventInformation
      (Service.functions
         (Serverless.service
            (serviceWithAuthorizer
               (VStr "arn:aws:cognito-idp:us-east-1:123:userpool/X"))))
    = Ok vars
    /\ Vars.hasCognitoAuthorizer vars = true
    /\ Vars.hasCustomAuthorizer vars = false.
Proof.
  apply (proj2 (proj2 hasCognitoAuthorizer_set)
           _ (httpEvent (VStr "arn:aws:cognito-idp:us-east-1:123:userpool/X"))
           "arn:aws:cognito-idp:us-east-1:123:userpool/X").
  - reflexivity.
  - reflexivity.
  - exists "", ":us-east-1:123:userpool/X". reflexivity.
Defined.

Lemma numberOfEventsPerType_counts_witness :
  exists data,
    executor (E := exampleEngine) trackingHost (utilsOf mediaService)
      mediaService VUndefined = Ok (Some data)
    /\ Permutation
         (EventStats.numberOfEventsPerType
            (Properties.events (Data.properties data)))
         [ {| EventCount.name := Some "http"; EventCount.count := 2 |};
           {| EventCount.name := Some "s3"; EventCount.count := 2 |} ].
Proof.
  eexists. split; [ reflexivity | ].
  apply (proj2 (proj2 (proj2
           (@numberOfEventsPerType_counts exampleEngine trackingHost
              (utilsOf mediaService) mediaService VUndefined _ eq_refl)))
           ("upload", functionWith VUndefined VUndefined
                        (Some [httpEvent VUndefined; s3Event]))
           ("resize", functionWith VUndefined VUndefined
                        (Some [s3Event; httpEvent VUndefined]))
           [httpEvent VUndefined; s3Event] [s3Event; httpEvent VUndefined]);
    try reflexivity.
  simpl. apply perm_swap.
Defined.

Lemma numberOfEvents_distinct_names_witness :
  exists data,
    executor (E := exampleEngine) trackingHost (utilsOf routesService)
      routesService VUndefined = Ok (Some data)
    /\ EventStats.numberOfEvents (Properties.events (Data.properties data)) = 1.
Proof.
  eexists. split; [ reflexivity | ].
  apply (proj2 (proj2
           (@numberOfEvents_distinct_names exampleEngine trackingHost
              (utilsOf routesService) routesService VUndefined _ eq_refl))
           ("api", functionWith VUndefined VUndefined
                     (Some [httpEvent VUndefined; httpEvent VUndefined;
                            httpEvent VUndefined]))
           (httpEvent VUndefined) (httpEvent VUndefined) (httpEvent VUndefined));
    reflexivity.
Defined.

Lemma functions_without_events_witness :
  FunctionSpec.events (snd cronFunction) = None
  /\ eventInformation
       ([("upload", functionWith VUndefined VUndefined
                      (Some [httpEvent VUndefined; s3Event]))]
        ++ cronFunction
           :: [("resize", functionWith VUndefined VUndefined
                            (Some [s3Event; httpEvent VUndefined]))])
     = eventInformation
         ([("upload", functionWith VUndefined VUndefined
                        (Some [httpEvent VUndefined; s3Event]))]
          ++ [("resize", functionWith VUndefined VUndefined
                           (Some [s3Event; httpEvent VUndefined]))]).
Proof.
  split; [ reflexivity | ].
  apply (proj1 (@functions_without_events exampleEngine)). reflexivity.
Defined.

(** C7 as stated fails: a function whose [events] is the empty array has
    an entry, which is the empty array. *)
Lemma empty_events_array_is_pushed :
  map (fun f => FunctionSpec.events (snd f))
    (Service.functions (Serverless.service idleService)) = [Some []]
  /\ exists data,
       executor (E := exampleEngine) trackingHost (utilsOf idleService)
         idleService VUndefined = Ok (Some data)
       /\ EventStats.eventNamesPerFunction
            (Properties.events (Data.properties data)) = [[]].
Proof. split; [ reflexivity | eexists; split; reflexivity ]. Qed.

Lemma hasCustomResourcesDefined_iff_witness :
  exists data,
    executor (E := exampleEngine) trackingHost (utilsOf bucketService)
      bucketService VUndefined = Ok (Some data)
    /\ ServiceStats.hasCustomResourcesDefined
         (Properties.service (Data.properties data)) = true.
Proof.
  eexists. split; [ reflexivity | ].
  apply (proj1 (proj2
           (@hasCustomResourcesDefined_iff exampleEngine trackingHost
              (utilsOf bucketService) bucketService VUndefined _ eq_refl))).
  do 2 eexists. reflexivity.
Defined.

Lemma aws_section_iff_witness :
  (exists data,
      executor (E := exampleEngine) trackingHost (utilsOf mediaService)
        mediaService VUndefined = Ok (Some data)
      /\ exists aws, Properties.aws (Data.properties data) = Some aws)
  /\ (exists data,
         executor (E := exampleEngine) trackingHost (utilsOf azureService)
           azureService VUndefined = Ok (Some data)
         /\ Properties.aws (Data.properties data) = None).
Proof.
  split.
  - eexists. split; [ reflexivity | ].
    apply (proj2 (proj1
             (@aws_section_iff exampleEngine trackingHost
                (utilsOf mediaService) mediaService VUndefined _ eq_refl))).
    exists "aws". split; [ reflexivity | ].
    apply toUpperCase_AWS. reflexivity.
  - eexists. split; [ reflexivity | ].
    apply (proj2 (proj1 (proj2
             (@aws_section_iff exampleEngine trackingHost
                (utilsOf azureService) azureService VUndefined _ eq_refl)))).
    intros (s & Hname & Hsame). injection Hname as <-.
    apply toUpperCase_AWS in Hsame. vm_compute in Hsame. discriminate Hsame.
Defined.

Lemma memorySize_timeout_fallback_witness :
  memorySizeAndTimeoutObject (E := exampleEngine) (utilsOf mediaService)
    (functionWith VUndefined VUndefined None)
  = Ok {| MemorySizeAndTimeout.memorySize := 1024;
          MemorySizeAndTimeout.timeout := 6 |}.
Proof.
  apply (proj1 (proj2 (proj2
           (@memorySize_timeout_fallback exampleEngine (utilsOf mediaService)))));
    reflexivity.
Defined.

(** C2 as stated fails: a function that sets both values to [0], values
    that are present and numeric, gets the provider's [timeout] and the
    final default [1024]; a [memorySize] of [true], which is not numeric,
    counts as [1]; and without a provider section the provider-level read
    throws. *)
Lemma zero_values_fall_through :
  (map (fun f => (FunctionSpec.memorySize (snd f), FunctionSpec.timeout (snd f)))
     (Service.functions (Serverless.service zeroService))
   = [(VNum 0%float, VNum 0%float)]
   /\ exists data,
        executor (E := exampleEngine) trackingHost (utilsOf zeroService)
          zeroService VUndefined = Ok (Some data)
        /\ FunctionStats.memorySizeAndTimeoutPerFunction
             (Properties.functions (Data.properties data))
           = [ {| MemorySizeAndTimeout.memorySize := 1024;
                  MemorySizeAndTimeout.timeout := 30 |} ])
  /\ memorySizeAndTimeoutObject (E := exampleEngine) (utilsOf mediaService)
       (functionWith (VBool true) VUndefined None)
     = Ok {| MemorySizeAndTimeout.memorySize := 1;
             MemorySizeAndTimeout.timeout := 6 |}
  /\ memorySizeAndTimeoutObject (E := exampleEngine)
       (utilsOf (serverlessWith VUndefined VUndefined []))
       (functionWith VUndefined VUndefined None)
     = Throw TypeError.
Proof.
  split; [ split; [ reflexivity | eexists; split; reflexivity ] | ].
  split; reflexivity.
Qed.

(** * Further properties *)

Section PayloadFields.

Context {E : Engine}.

Lemma executor_Some_fields (host : Host.t) (this : Utils.t)
  (serverless : Serverless.t) (context : value) (data : Data.t) :
  executor host this serverless context = Ok (Some data) ->
  let service := Serverless.service serverless in
  let provider := Service.provider service in
  exists config timezone customSyntax,
    Host.getConfig host = Ok config
    /\ nullish config = false
    /\ truthy (prop config "trackingDisabled") = false
    /\ nullish provider = false
    /\ matchTimezone (Host.Date_toString host) = Some timezone
    /\ hasCustomVariableSyntaxDefined provider = Ok customSyntax
    /\ Data.userId data = prop config "frameworkId"
    /\ Data.event data = "framework_stat"
    /\ Properties.version (Data.properties data) = 2
    /\ Properties.command (Data.properties data)
       = {| Command.name :=
              join " " (ProcessedInput.commands
                          (Serverless.processedInput serverless));
            Command.filteredOptions :=
              filteredOptions
                (ProcessedInput.options (Serverless.processedInput serverless));
            Command.isRunInService :=
              truthy (Config.servicePath (Serverless.config serverless)) |}
    /\ ServiceStats.numberOfCustomPlugins
         (Properties.service (Data.properties data))
       = lodash_size (Service.plugins service)
    /\ ServiceStats.hasVariablesInCustomSectionDefined
         (Properties.service (Data.properties data))
       = truthy (Service.custom service)
    /\ ServiceStats.hasCustomVariableSyntaxDefined
         (Properties.service (Data.properties data)) = customSyntax
    /\ Properties.provider (Data.properties data)
       = {| ProviderStats.name := prop provider "name";
            ProviderStats.runtime := prop provider "runtime";
            ProviderStats.stage := prop provider "stage";
            ProviderStats.region := prop provider "region" |}
    /\ Properties.general (Data.properties data)
       = {| General.userId := prop config "frameworkId";
            General.context :=
              if truthy context then context else VStr "usage";
            General.timestamp := Host.Date_getTime host;
            General.timezone := timezone;
            General.operatingSystem := Host.process_platform host;
            General.userAgent :=
              if truthy (Host.process_env_SERVERLESS_DASHBOARD host)
              then "dashboard" else "cli";
            General.serverlessVersion := Serverless.version serverless;
            General.nodeJsVersion := Host.process_version host;
            General.isDockerContainer := Host.isDockerContainer host;
            General.isCISystem := Host.ci_isCI host;
            General.ciSystem := Host.ci_name host;
            General.platformId :=
              if truthy (prop config "userId")
              then Some (prop config "userId") else None |}.
Proof.
  unfold executor. cbv zeta. intros H.
  bind_inv H as config Hconfig. bind_inv H as userId HuserId.
  bind_inv H as trackingDisabled Hdisabled.
  apply get_Ok_inv in HuserId. destruct HuserId as (-> & Hnullish).
  apply get_Ok_inv in Hdisabled. destruct Hdisabled as (-> & _).
  destruct (truthy (prop config "trackingDisabled")) eqn:Hflag;
    [ discriminate H | ].
  bind_inv H as pairs Hpairs. bind_inv H as vars Hvars.
  bind_inv H as inResources Hres. bind_inv H as customSyntax Hsyntax.
  bind_inv H as name Hname. bind_inv H as runtime Hruntime.
  bind_inv H as stage Hstage. bind_inv H as region Hregion.
  bind_inv H as timezone Htz. bind_inv H as config_userId Hcuid.
  bind_inv H as isAws Haws.
  apply get_Ok_inv in Hname. destruct Hname as (-> & Hprovider).
  apply get_Ok_inv in Hruntime. destruct Hruntime as (-> & _).
  apply get_Ok_inv in Hstage. destruct Hstage as (-> & _).
  apply get_Ok_inv in Hregion. destruct Hregion as (-> & _).
  apply get_Ok_inv in Hcuid. destruct Hcuid as (-> & _).
  destruct (matchTimezone (Host.Date_toString host)) as [ m | ] eqn:Hm;
    [ injection Htz as <- | discriminate Htz ].
  injection H as <-. cbn.
  exists config, m, customSyntax.
  repeat (split; [ first [ assumption | reflexivity ] | ]). reflexivity.
Qed.

End PayloadFields.

Lemma onlyTypeError_Ok {A : Type} (a : A) : onlyTypeError (Ok a).
Proof. intros e H; discriminate H. Qed.

Lemma onlyTypeError_Throw {A : Type} : onlyTypeError (@Throw A TypeError).
Proof. intros e H; injection H as <-; reflexivity. Qed.

Lemma onlyTypeError_bind {A B : Type} (c : result A) (k : A -> result B) :
  onlyTypeError c -> (forall a, onlyTypeError (k a)) -> onlyTypeError (bind c k).
Proof.
  intros Hc Hk e. destruct c as [ a | e' ]; simpl.
  - apply Hk.
  - intros H; injection H as <-. apply Hc; reflexivity.
Qed.

Lemma onlyTypeError_if {A : Type} (b : bool) (c1 c2 : result A) :
  onlyTypeError c1 -> onlyTypeError c2 -> onlyTypeError (if b then c1 else c2).
Proof. destruct b; auto. Qed.

Lemma onlyTypeError_andThen (a b : result bool) :
  onlyTypeError a -> onlyTypeError b -> onlyTypeError (a &&& b).
Proof.
  intros Ha Hb. apply onlyTypeError_bind; [ exact Ha | ].
  intros [ | ]; [ exact Hb | apply onlyTypeError_Ok ].
Qed.

Lemma onlyTypeError_orElse (a b : result bool) :
  onlyTypeError a -> onlyTypeError b -> onlyTypeError (a ||| b).
Proof.
  intros Ha Hb. apply onlyTypeError_bind; [ exact Ha | ].
  intros [ | ]; [ apply onlyTypeError_Ok | exact Hb ].
Qed.

Lemma onlyTypeError_forEach {A S : Type} (f : S -> A -> result S) (l : list A) :
  (forall s x, onlyTypeError (f s x)) -> forall s, onlyTypeError (forEach f l s).
Proof.
  intros Hf. induction l as [ | x l IH ]; intros s; simpl.
  - apply onlyTypeError_Ok.
  - apply onlyTypeError_bind; [ apply Hf | exact IH ].
Qed.

Lemma onlyTypeError_get (v : value) (k : string) : onlyTypeError (get v k).
Proof.
  destruct v; simpl;
    first [ apply onlyTypeError_Ok | apply onlyTypeError_Throw ].
Qed.

Lemma onlyTypeError_call_toUpperCase (v : value) :
  onlyTypeError (call_toUpperCase v).
Proof.
  destruct v; simpl;
    first [ apply onlyTypeError_Ok | apply onlyTypeError_Throw ].
Qed.

Lemma onlyTypeError_call_includes (v : value) (needle : string) :
  onlyTypeError (call_includes v needle).
Proof.
  destruct v; simpl;
    first [ apply onlyTypeError_Ok | apply onlyTypeError_Throw ].
Qed.

Lemma onlyTypeError_Object_keys (v : value) : onlyTypeError (Object_keys v).
Proof.
  destruct v; simpl;
    first [ apply onlyTypeError_Ok | apply onlyTypeError_Throw ].
Qed.

Ltac only_type_error_with tac :=
  repeat
    first
      [ tac
      | apply onlyTypeError_Ok
      | apply onlyTypeError_Throw
      | apply onlyTypeError_get
      | apply onlyTypeError_call_toUpperCase
      | apply onlyTypeError_call_includes
      | apply onlyTypeError_Object_keys
      | apply onlyTypeError_andThen
      | apply onlyTypeError_orElse
      | apply onlyTypeError_if
      | apply onlyTypeError_bind
      | match goal with |- forall _, _ => intro end ].

Ltac only_type_error := only_type_error_with fail.

Lemma value_rect_nested (P : value -> Prop) :
  P VUndefined -> P VNull -> (forall b, P (VBool b)) -> (forall n, P (VNum n)) ->
  (forall s, P (VStr s)) ->
  (forall items, Forall P items -> P (VArr items)) ->
  (forall props, P (VObj props)) ->
  forall v, P v.
Proof.
  intros Hu Hn Hb Hnum Hs Ha Ho.
  fix IH 1. intros [ | | b | n | s | items | props ].
  - exact Hu.
  - exact Hn.
  - apply Hb.
  - apply Hnum.
  - apply Hs.
  - apply Ha. induction items as [ | x items IHitems ]; constructor.
    + apply IH.
    + exact IHitems.
  - apply Ho.
Qed.

Section Conversions.

Context {E : Engine}.

Lemma onlyTypeError_ToString (v : value) : onlyTypeError (ToString v).
Proof.
  induction v as [ | | b | n | s | items IH | props ] using value_rect_nested;
    try (destruct b); simpl; try apply onlyTypeError_Ok.
  - induction IH as [ | x items Hx _ IHitems ]; [ apply onlyTypeError_Ok | ].
    apply onlyTypeError_bind.
    + destruct x; first [ apply onlyTypeError_Ok | exact Hx ].
    + intros s. destruct items as [ | y items ]; [ apply onlyTypeError_Ok | ].
      apply onlyTypeError_bind; [ exact IHitems | intros r; apply onlyTypeError_Ok ].
  - apply onlyTypeError_if; [ apply onlyTypeError_Throw | apply onlyTypeError_Ok ].
Qed.

Lemma onlyTypeError_Number (v : value) : onlyTypeError (Number v).
Proof.
  destruct v as [ | | [ | ] | n | s | items | props ];
    try apply onlyTypeError_Ok;
    (apply onlyTypeError_bind;
     [ apply onlyTypeError_ToString | intros s; apply onlyTypeError_Ok ]).
Qed.

Lemma onlyTypeError_memorySizeAndTimeoutPerFunction (this : Utils.t)
  (functions : list (string * FunctionSpec.t)) :
  onlyTypeError (memorySizeAndTimeoutPerFunction this functions).
Proof.
  unfold memorySizeAndTimeoutPerFunction. cbv zeta.
  apply onlyTypeError_if; [ | apply onlyTypeError_Ok ].
  apply onlyTypeError_forEach. intros pushed func.
  unfold memorySizeAndTimeoutObject, orNumber.
  only_type_error_with ltac:(apply onlyTypeError_Number).
Qed.

End Conversions.

Lemma onlyTypeError_eventInformation (functions : list (string * FunctionSpec.t)) :
  onlyTypeError (eventInformation functions).
Proof.
  unfold eventInformation. cbv zeta.
  apply onlyTypeError_if; [ | apply onlyTypeError_Ok ].
  apply onlyTypeError_forEach. intros vars func. unfold functionCallback.
  destruct (FunctionSpec.events func) as [ events | ]; [ | apply onlyTypeError_Ok ].
  apply onlyTypeError_bind.
  - apply onlyTypeError_forEach. intros (vars', arr) event.
    unfold eventCallback. cbv zeta.
    apply onlyTypeError_bind; [ unfold isTruthy; only_type_error | ].
    intros b. apply onlyTypeError_if; [ | apply onlyTypeError_Ok ].
    apply onlyTypeError_bind; [ | intros; apply onlyTypeError_Ok ].
    unfold classifyAuthorizer, typeofIs, upperCaseIs, includesString,
      isTruthy, notC.
    only_type_error.
  - intros (vars', arr). apply onlyTypeError_Ok.
Qed.

Section Outcome.

Context {E : Engine}.

Lemma executor_throws (host : Host.t) (this : Utils.t)
  (serverless : Serverless.t) (context : value) (e : exn) :
  executor host this serverless context = Throw e ->
  e = TypeError \/ Host.getConfig host = Throw e.
Proof.
  unfold executor. cbv zeta.
  destruct (Host.getConfig host) as [ config | e' ]; cbn [bind].
  - intros H. left. revert e H.
    match goal with
    | |- forall e, ?c = Throw e -> _ => change (onlyTypeError c)
    end.
    apply onlyTypeError_bind; [ apply onlyTypeError_get | intros userId ].
    apply onlyTypeError_bind; [ apply onlyTypeError_get | intros disabled ].
    apply onlyTypeError_if; [ apply onlyTypeError_Ok | ].
    apply onlyTypeError_bind;
      [ apply onlyTypeError_memorySizeAndTimeoutPerFunction | intros pairs ].
    apply onlyTypeError_bind;
      [ apply onlyTypeError_eventInformation | intros vars ].
    apply onlyTypeError_bind;
      [ unfold hasCustomResourcesDefined, hasKeys, isTruthy; only_type_error | ].
    intros inResources.
    apply onlyTypeError_bind;
      [ unfold hasCustomVariableSyntaxDefined, isTruthy; only_type_error | ].
    intros customSyntax.
    do 4 (apply onlyTypeError_bind; [ apply onlyTypeError_get | intro ]).
    apply onlyTypeError_bind.
    { destruct (matchTimezone _); only_type_error. }
    intros timezone.
    apply onlyTypeError_bind; [ apply onlyTypeError_get | intro ].
    apply onlyTypeError_bind;
      [ unfold isAwsProvider, isTruthy, upperCaseIs; only_type_error | ].
    intros isAws. apply onlyTypeError_Ok.
  - intros H. injection H as <-. right. reflexivity.
Qed.

End Outcome.

(** ** Completion of the event loop *)

Lemma wellTyped_falsy (a : value) : truthy a = false -> wellTyped a = true.
Proof.
  destruct a; simpl; intros H; try reflexivity; discriminate H.
Qed.

Lemma classifyAuthorizer_Ok_wellTyped (event : Event) (vars vars' : Vars.t) :
  truthy (authorizerOf event) = true ->
  classifyAuthorizer (VObj event) vars = Ok vars' ->
  wellTyped (authorizerOf event) = true.
Proof.
  intros Ha. unfold classifyAuthorizer.
  rewrite (event_authorizer _ Ha).
  unfold wellTyped.
  generalize dependent (authorizerOf event). intros a Ha.
  unfold typeofIs, upperCaseIs, includesString, isTruthy, notC.
  cbn [bind]. rewrite !(get_truthy _ _ Ha), !typeof_string.
  destruct a as [ | | b | n | s | items | props ]; try discriminate Ha;
    cbn [prop]; clear Ha; try reflexivity.
  generalize (lookup "type" props) (lookup "name" props) (lookup "arn" props).
  intros t n r.
  destruct t, r;
    cbn -[includes String.eqb toUpperCase existsb truthyNumber];
    split_tests; intros H; try discriminate H; reflexivity.
Qed.

Lemma eventCallback_Ok_wellTyped (st st' : Vars.t * list (option string))
  (event : Event) :
  eventCallback st event = Ok st' -> wellTyped (authorizerOf event) = true.
Proof.
  destruct st as (vars, arr). unfold eventCallback.
  rewrite event_guard. cbn [bind].
  destruct (truthy (authorizerOf event)) eqn:Ha.
  - intros H. bind_inv H as vars1 Hvars.
    exact (classifyAuthorizer_Ok_wellTyped _ _ _ Ha Hvars).
  - intros _. apply wellTyped_falsy, Ha.
Qed.

Lemma events_loop_wellTyped (events : list Event) :
  forall st st',
    forEach eventCallback events st = Ok st' ->
    forall event, In event events -> wellTyped (authorizerOf event) = true.
Proof.
  induction events as [ | x events IH ]; intros st st' H event Hin;
    [ contradiction | ].
  simpl in H. bind_inv H as st1 Hst.
  destruct Hin as [ <- | Hin ].
  - exact (eventCallback_Ok_wellTyped _ _ _ Hst).
  - exact (IH _ _ H _ Hin).
Qed.

Lemma functions_loop_wellTyped (functions : list (string * FunctionSpec.t)) :
  forall vars vars',
    forEach functionCallback (map snd functions) vars = Ok vars' ->
    forall event, In event (allEvents functions) ->
                  wellTyped (authorizerOf event) = true.
Proof.
  induction functions as [ | f functions IH ]; intros vars vars' H event Hin.
  - contradiction.
  - cbn [map forEach] in H. bind_inv H as vars1 Hf.
    rewrite allEvents_cons in Hin. apply in_app_or in Hin.
    destruct Hin as [ Hin | Hin ]; [ | exact (IH _ _ H _ Hin) ].
    unfold functionCallback in Hf. unfold allEvents, eventArrays in Hin.
    simpl in Hin.
    destruct (FunctionSpec.events (snd f)) as [ events | ];
      [ | contradiction ].
    simpl in Hin. rewrite app_nil_r in Hin.
    bind_inv Hf as st Hst. exact (events_loop_wellTyped _ _ _ Hst _ Hin).
Qed.

Lemma eventInformation_Ok_wellTyped (functions : list (string * FunctionSpec.t))
  (vars : Vars.t) :
  eventInformation functions = Ok vars ->
  forall event, In event (allEvents functions) ->
                wellTyped (authorizerOf event) = true.
Proof.
  unfold eventInformation. cbv zeta.
  destruct functions as [ | f functions ]; [ intros _ event [] | ].
  change (0 <? Datatypes.length (f :: functions))%nat with true. cbv iota.
  apply functions_loop_wellTyped.
Qed.

Section Outcomes.

Context {E : Engine}.

Lemma executor_None (host : Host.t) (this : Utils.t)
  (serverless : Serverless.t) (context : value) :
  executor host this serverless context = Ok None ->
  exists config,
    Host.getConfig host = Ok config
    /\ truthy (prop config "trackingDisabled") = true.
Proof.
  unfold executor. cbv zeta. intros H.
  bind_inv H as config Hconfig. bind_inv H as userId HuserId.
  bind_inv H as disabled Hdisabled.
  apply get_Ok_inv in Hdisabled. destruct Hdisabled as (-> & _).
  exists config. split; [ exact Hconfig | ].
  destruct (truthy (prop config "trackingDisabled")); [ reflexivity | ].
  repeat bind_inv H. discriminate H.
Qed.

(** X7. Whatever the inputs, [logStat] keeps the payloads handed to
    [segment.track] before and adds at most one, the data its executor
    resolved with; it fulfils its promise with [undefined] only; when it
    rejects, nothing is added and the reason is a [TypeError] or what
    [getConfig] threw; and it fulfils without adding a payload only when
    the configuration has a truthy [trackingDisabled]. *)
Theorem logStat_outcome :
  forall (host : Host.t) (this : Utils.t) (serverless : Serverless.t)
         (context : value) (tracked : list Data.t),
    let outcome := logStat host this serverless context tracked in
    (snd outcome = tracked
     \/ exists data,
          executor host this serverless context = Ok (Some data)
          /\ snd outcome = tracked ++ [data])
    /\ (forall v, fst outcome = Fulfilled v -> v = VUndefined)
    /\ (forall e,
           fst outcome = Rejected e ->
           snd outcome = tracked
           /\ (e = TypeError \/ Host.getConfig host = Throw e))
    /\ (fst outcome = Fulfilled VUndefined /\ snd outcome = tracked ->
        exists config,
          Host.getConfig host = Ok config
          /\ truthy (prop config "trackingDisabled") = true).
Proof.
  intros host this serverless context tracked. unfold logStat.
  destruct (executor host this serverless context) as [ [ data | ] | e ] eqn:Hexec;
    cbn.
  - split; [ right; exists data; split; reflexivity | ].
    split; [ intros v H; injection H as <-; reflexivity | ].
    split; [ intros e H; discriminate H | ].
    intros (_ & H). exfalso. unfold segment_track in H.
    apply (f_equal (@List.length Data.t)) in H.
    rewrite length_app in H. simpl in H. lia.
  - split; [ left; reflexivity | ].
    split; [ intros v H; injection H as <-; reflexivity | ].
    split; [ intros e H; discriminate H | ].
    intros _. exact (executor_None _ _ _ _ Hexec).
  - split; [ left; reflexivity | ].
    split; [ intros v H; discriminate H | ].
    split; [ | intros (H & _); discriminate H ].
    intros e' H. injection H as <-.
    split; [ reflexivity | exact (executor_throws _ _ _ _ _ Hexec) ].
Qed.

(** X4. An authorizer that is not well typed stops the event loop. When
    the loop completes, every [http.authorizer] is well typed: a truthy
    [type] is a string and a truthy [arn] is a string or an array. With
    one authorizer that is not, the loop throws a [TypeError]; and then,
    with tracking on, the promise of [logStat] is rejected with a
    [TypeError] and nothing is handed to [segment.track]. *)
Theorem ill_typed_authorizer_rejects :
  forall functions : list (string * FunctionSpec.t),
    (forall vars : Vars.t,
        eventInformation functions = Ok vars ->
        forall event, In event (allEvents functions) ->
                      wellTyped (authorizerOf event) = true)
    /\ (forall event : Event,
           In event (allEvents functions) ->
           wellTyped (authorizerOf event) = false ->
           eventInformation functions = Throw TypeError)
    /\ (forall (host : Host.t) (this : Utils.t) (serverless : Serverless.t)
               (context : value) (tracked : list Data.t) (config : value)
               (event : Event),
           Service.functions (Serverless.service serverless) = functions ->
           Host.getConfig host = Ok config ->
           truthy (prop config "trackingDisabled") = false ->
           In event (allEvents functions) ->
           wellTyped (authorizerOf event) = false ->
           logStat host this serverless context tracked
           = (Rejected TypeError, tracked)).
Proof.
  intros functions. split; [ | split ].
  - intros vars H. exact (eventInformation_Ok_wellTyped _ _ H).
  - intros event Hin Hbad.
    destruct (eventInformation functions) as [ vars | e ] eqn:H.
    + rewrite (eventInformation_Ok_wellTyped _ _ H _ Hin) in Hbad.
      discriminate Hbad.
    + rewrite (onlyTypeError_eventInformation functions e H). reflexivity.
  - intros host this serverless context tracked config event
      Hfs Hconfig Hflag Hin Hbad.
    unfold logStat.
    destruct (executor host this serverless context) as [ [ data | ] | e ]
      eqn:Hexec.
    + exfalso. apply executor_Some in Hexec.
      destruct Hexec as (pairs & vars & inResources & isAws & _ & Hvars & _).
      rewrite Hfs in Hvars.
      rewrite (eventInformation_Ok_wellTyped _ _ Hvars _ Hin) in Hbad.
      discriminate Hbad.
    + exfalso. apply executor_None in Hexec.
      destruct Hexec as (config' & Hconfig' & Hflag').
      rewrite Hconfig in Hconfig'. injection Hconfig' as <-.
      rewrite Hflag in Hflag'. discriminate Hflag'.
    + apply executor_throws in Hexec. destruct Hexec as [ -> | Hthrow ].
      * reflexivity.
      * rewrite Hconfig in Hthrow. discriminate Hthrow.
Qed.

End Outcomes.

Lemma prop_falsy (v : value) (k : string) :
  truthy v = false -> prop v k = VUndefined.
Proof. destruct v; simpl; intros H; try reflexivity; discriminate H. Qed.

Lemma hasCustomVariableSyntaxDefined_Ok (provider : value) :
  hasCustomVariableSyntaxDefined provider
  = Ok (truthy (prop provider "variableSyntax")
        && strictNotEqualString (prop provider "variableSyntax")
             defaultVariableSyntax).
Proof.
  unfold hasCustomVariableSyntaxDefined, andThen, isTruthy. cbn [bind].
  destruct (truthy provider) eqn:Hp.
  - rewrite (get_truthy _ _ Hp). cbn [bind].
    destruct (truthy (prop provider "variableSyntax")); reflexivity.
  - rewrite (prop_falsy _ _ Hp). reflexivity.
Qed.

Lemma isAwsProvider_named (provider : value) (b : bool) :
  isAwsProvider provider = Ok b -> namedByString provider = true.
Proof.
  unfold namedByString, isAwsProvider, andThen, isTruthy, upperCaseIs.
  cbn [bind].
  destruct (truthy provider) eqn:Hp.
  - rewrite (get_truthy _ _ Hp). cbn [bind].
    destruct (prop provider "name") as [ | | c | n | s | items | props ];
      cbn -[String.eqb toUpperCase]; intros H;
      try reflexivity; try discriminate H.
    + destruct c; [ discriminate H | reflexivity ].
    + destruct (truthyNumber n); [ discriminate H | reflexivity ].
  - intros _. rewrite (prop_falsy _ _ Hp). reflexivity.
Qed.

Section Requirements.

Context {E : Engine}.

Lemma chain_readable (own provider : value) (k : string) (fallback r : float) :
  orNumber (Number own)
    (orNumber (v <- get provider k ;; Number v) (Ok fallback)) = Ok r ->
  readable provider own k.
Proof.
  unfold orNumber, readable. intros H.
  bind_inv H as n Hn. rewrite (numberOf_Ok _ _ Hn).
  split; [ exists n; exact Hn | ].
  destruct (truthyNumber n); [ left; reflexivity | right ].
  bind_inv H as m Hm. bind_inv Hm as v Hv.
  apply get_Ok_inv in Hv. destruct Hv as (-> & Hp).
  split; [ exact Hp | exists m; exact Hm ].
Qed.

Lemma memorySizeAndTimeoutObject_readable (this : Utils.t)
  (func : FunctionSpec.t) (pair : MemorySizeAndTimeout.t) :
  memorySizeAndTimeoutObject this func = Ok pair ->
  let this_provider :=
    Service.provider (Serverless.service (Utils.serverless this)) in
  readable this_provider (FunctionSpec.memorySize func) "memorySize"
  /\ readable this_provider (FunctionSpec.timeout func) "timeout".
Proof.
  unfold memorySizeAndTimeoutObject. cbv zeta. intros H.
  bind_inv H as memorySize Hm. bind_inv H as timeout Ht.
  split; [ exact (chain_readable _ _ _ _ _ Hm)
         | exact (chain_readable _ _ _ _ _ Ht) ].
Qed.

(** X8. [logStat] hands a payload to [segment.track] only when the
    configuration was read, is not [null] or [undefined] and does not
    disable tracking; the provider is not [null] or [undefined] and its
    name is absent or a string; the [memorySize] and the [timeout] of
    every function can be read as numbers, with the provider of
    [this.serverless] at hand wherever the number of the function is [0]
    or [NaN]; every authorizer is well typed; and the date string has a
    time zone, which is the [timezone] of the payload. The promise is
    then fulfilled and that payload is the only one added. *)
Theorem logStat_emits_only_when :
  forall (host : Host.t) (this : Utils.t) (serverless : Serverless.t)
         (context : value) (tracked : list Data.t),
    let provider := Service.provider (Serverless.service serverless) in
    let functions := Service.functions (Serverless.service serverless) in
    let this_provider :=
      Service.provider (Serverless.service (Utils.serverless this)) in
    snd (logStat host this serverless context tracked) <> tracked ->
    exists (config : value) (data : Data.t),
      Host.getConfig host = Ok config
      /\ nullish config = false
      /\ truthy (prop config "trackingDisabled") = false
      /\ nullish provider = false
      /\ namedByString provider = true
      /\ (forall f, In f functions ->
                    readable this_provider
                      (FunctionSpec.memorySize (snd f)) "memorySize"
                    /\ readable this_provider
                         (FunctionSpec.timeout (snd f)) "timeout")
      /\ (forall event, In event (allEvents functions) ->
                        wellTyped (authorizerOf event) = true)
      /\ matchTimezone (Host.Date_toString host)
         = Some (General.timezone (Properties.general (Data.properties data)))
      /\ logStat host this serverless context tracked
         = (Fulfilled VUndefined, tracked ++ [data]).
Proof.
  intros host this serverless context tracked provider functions
    this_provider Hadded.
  unfold logStat in *.
  destruct (executor host this serverless context) as [ [ data | ] | e ]
    eqn:Hexec; try (exfalso; apply Hadded; reflexivity).
  clear Hadded.
  destruct (executor_Some_fields _ _ _ _ _ Hexec)
    as (config & timezone & customSyntax & Hconfig & Hnullish & Hflag
        & Hprovider & Htz & _ & _ & _ & _ & _ & _ & _ & _ & _ & Hgeneral).
  destruct (executor_Some _ _ _ _ _ Hexec)
    as (pairs & vars & inResources & isAws & Hpairs & Hvars & _ & Haws & _).
  exists config, data.
  repeat (split; [ assumption | ]).
  split; [ exact (isAwsProvider_named _ _ Haws) | ].
  split.
  { intros f Hin. apply memorySizeAndTimeoutPerFunction_Ok in Hpairs.
    fold functions in Hpairs. clear -Hpairs Hin.
    induction Hpairs as [ | g pair fs pairs Hg Hrest IH ]; [ destruct Hin | ].
    destruct Hin as [ <- | Hin ];
      [ exact (memorySizeAndTimeoutObject_readable _ _ _ Hg) | exact (IH Hin) ]. }
  split; [ exact (eventInformation_Ok_wellTyped _ _ Hvars) | ].
  split; [ rewrite Hgeneral; exact Htz | reflexivity ].
Qed.

End Requirements.

Lemma existsb_VStr (items : list value) (needle : string) :
  existsb (fun x => match x with VStr s => s =? needle | _ => false end) items
  = true
  <-> In (VStr needle) items.
Proof.
  rewrite existsb_exists. split.
  - intros (x & Hin & Hx). destruct x; try discriminate Hx.
    apply String.eqb_eq in Hx. subst. exact Hin.
  - intros Hin. exists (VStr needle). split; [ exact Hin | apply String.eqb_refl ].
Qed.

Lemma arnIncludes_spec (a : value) (needle : string) :
  arnIncludes a needle = true <-> arnHas a needle.
Proof.
  unfold arnIncludes, arnHas.
  destruct (prop a "arn") as [ | | b | n | s | items | props ];
    try (split; [ discriminate
                | intros [ (s' & H & _) | (l & H & _) ]; discriminate H ]).
  - rewrite includes_contains. split.
    + intros H. left. exists s. split; [ reflexivity | exact H ].
    + intros [ (s' & H & Hc) | (l & H & _) ]; [ | discriminate H ].
      injection H as <-. exact Hc.
  - rewrite existsb_VStr. split.
    + intros H. right. exists items. split; [ reflexivity | exact H ].
    + intros [ (s' & H & _) | (l & H & Hin) ]; [ discriminate H | ].
      injection H as <-. exact Hin.
Qed.

Lemma prop_object (a v : value) (k : string) :
  prop a k = v -> v <> VUndefined -> truthy a = true.
Proof.
  destruct a; simpl; intros H Hv; try reflexivity; congruence.
Qed.

Lemma arnHas_truthy (a : value) (needle : string) :
  arnHas a needle -> truthy a = true.
Proof.
  intros [ (s & H & _) | (l & H & _) ];
    apply (prop_object _ _ _ H); discriminate.
Qed.

Lemma cognitoTest_spec (a : value) :
  cognitoTest a = true <-> isCognitoAuthorizer a.
Proof.
  unfold cognitoTest, isCognitoAuthorizer.
  rewrite andb_true_iff, orb_true_iff, arnIncludes_spec. split.
  - intros (_ & [ H | H ]); [ left | right; exact H ].
    destruct a; try discriminate H. exists s.
    split; [ reflexivity | apply includes_contains, H ].
  - intros [ (s & -> & H) | H ].
    + split.
      * simpl. apply negb_true_iff, String.eqb_neq.
        apply (contains_nonempty _ _ H). discriminate.
      * left. apply includes_contains, H.
    + split; [ exact (arnHas_truthy _ _ H) | right; exact H ].
Qed.

Lemma customTest_spec (a : value) :
  customTest a = true <-> isCustomAuthorizer a.
Proof.
  unfold customTest, isCustomAuthorizer.
  rewrite andb_true_iff, !orb_true_iff, arnIncludes_spec. split.
  - intros (Ha & [ [ H | H ] | H ]); [ left | right; left; exact H
                                       | right; right; exact H ].
    destruct a; try discriminate H. exists s.
    apply andb_true_iff in H. destruct H as (Hiam & Hcog).
    apply negb_true_iff in Hiam, Hcog.
    split; [ reflexivity | ]. split.
    { simpl in Ha. apply negb_true_iff, String.eqb_neq in Ha. exact Ha. }
    split.
    + intros Heq. apply toUpperCase_AWS_IAM, String.eqb_eq in Heq. congruence.
    + intros Hc. apply includes_contains in Hc. congruence.
  - intros [ (s & -> & Hne & Hiam & Hcog) | [ H | H ] ].
    + split.
      * simpl. apply negb_true_iff, String.eqb_neq, Hne.
      * left; left. apply andb_true_iff. split; apply negb_true_iff.
        -- apply String.eqb_neq. intros Heq. apply Hiam, toUpperCase_AWS_IAM, Heq.
        -- destruct (includes s "arn:aws:cognito-idp") eqn:Hc;
             [ | reflexivity ].
           exfalso. apply Hcog, includes_contains, Hc.
    + split; [ | left; right; exact H ].
      apply (prop_object a _ "name" eq_refl). intros Hu. rewrite Hu in H.
      discriminate H.
    + split; [ exact (arnHas_truthy _ _ H) | right; exact H ].
Qed.

(** X2. When the event loop completes, [hasCustomAuthorizer] is true exactly
    when some event has an [http.authorizer] that is a non-empty string
    other than AWS_IAM (letter case ignored, as [toUpperCase] does: the
    dotless i and the long s count as small letters of I and S) without
    arn:aws:cognito-idp in it, or that has a truthy [name], or whose
    [arn] has arn:aws:lambda in it. *)
Theorem hasCustomAuthorizer_exactly :
  forall (functions : list (string * FunctionSpec.t)) (vars : Vars.t),
    eventInformation functions = Ok vars ->
    (Vars.hasCustomAuthorizer vars = true <->
     exists event,
       In event (allEvents functions)
       /\ isCustomAuthorizer (authorizerOf event)).
Proof.
  intros functions vars H. apply eventInformation_flags in H.
  destruct H as (_ & -> & _). rewrite existsb_exists.
  split; intros (event & Hin & Ha); exists event;
    (split; [ exact Hin | apply customTest_spec, Ha ]).
Qed.

(** X3. When the event loop completes, [hasCognitoAuthorizer] is true
    exactly when some event has an [http.authorizer] that is a string with
    arn:aws:cognito-idp in it, or whose [arn] has it. *)
Theorem hasCognitoAuthorizer_exactly :
  forall (functions : list (string * FunctionSpec.t)) (vars : Vars.t),
    eventInformation functions = Ok vars ->
    (Vars.hasCognitoAuthorizer vars = true <->
     exists event,
       In event (allEvents functions)
       /\ isCognitoAuthorizer (authorizerOf event)).
Proof.
  intros functions vars H. apply eventInformation_flags in H.
  destruct H as (_ & _ & ->). rewrite existsb_exists.
  split; intros (event & Hin & Ha); exists event;
    (split; [ exact Hin | apply cognitoTest_spec, Ha ]).
Qed.

(** ** Options *)

Lemma lookup_In (k : string) (options : list (string * value)) :
  In k (map fst options) -> In (k, lookup k options) options.
Proof.
  induction options as [ | (k', v) options IH ]; simpl; [ intros [] | ].
  destruct (k' =? k) eqn:Hk.
  - intros _. apply String.eqb_eq in Hk. subst. left; reflexivity.
  - intros [ H | H ]; [ apply String.eqb_neq in Hk; contradiction | ].
    right. apply IH, H.
Qed.

Lemma whitelisted_spec (key : string) :
  existsb (String.eqb key) whitelistedOptionKeys = true
  <-> key = "help" \/ key = "disable" \/ key = "enable".
Proof.
  unfold whitelistedOptionKeys. simpl. rewrite !orb_true_iff, !String.eqb_eq.
  intuition discriminate.
Qed.

Section MorePayload.

Context {E : Engine}.

(** X1. In the payload, every entry of [filteredOptions] has the key
    [help], [disable] or [enable] and is an option of the command with its
    value; and every option with one of these keys is in [filteredOptions]
    with its value. No other option reaches the payload. *)
Theorem filteredOptions_whitelist :
  forall (host : Host.t) (this : Utils.t) (serverless : Serverless.t)
         (context : value) (data : Data.t),
    executor host this serverless context = Ok (Some data) ->
    let options :=
      ProcessedInput.options (Serverless.processedInput serverless) in
    let filtered :=
      Command.filteredOptions (Properties.command (Data.properties data)) in
    (forall key v,
        In (key, v) filtered ->
        (key = "help" \/ key = "disable" \/ key = "enable")
        /\ In (key, v) options)
    /\ (forall key,
           In key (map fst options) ->
           key = "help" \/ key = "disable" \/ key = "enable" ->
           In (key, lookup key options) filtered).
Proof.
  intros host this serverless context data H options filtered.
  apply executor_Some_fields in H.
  destruct H as (config & timezone & customSyntax
                 & _ & _ & _ & _ & _ & _ & _ & _ & _ & Hcommand & _).
  subst filtered. rewrite Hcommand. cbn [Command.filteredOptions].
  fold options. unfold filteredOptions. split.
  - intros key v Hin. apply in_map_iff in Hin.
    destruct Hin as (k & Hkv & Hk). injection Hkv as -> <-.
    apply filter_In in Hk. destruct Hk as (Hk & Hw).
    split; [ apply whitelisted_spec, Hw | apply lookup_In, Hk ].
  - intros key Hk Hw.
    apply (in_map (fun key => (key, lookup key options))).
    apply filter_In. split; [ exact Hk | apply whitelisted_spec, Hw ].
Qed.

End MorePayload.

(** ** More on the tally *)

Lemma countEvent_sum (n : option string) (t : list EventCount.t) :
  list_sum (map EventCount.count (countEvent n t))
  = S (list_sum (map EventCount.count t)).
Proof.
  induction t as [ | e t IH ]; simpl; [ reflexivity | ].
  destruct (sameName (EventCount.name e) n); simpl; [ reflexivity | ].
  rewrite IH. lia.
Qed.

Lemma tallyOf_sum (names : list (option string)) :
  list_sum (map EventCount.count (tallyOf names)) = List.length names.
Proof.
  induction names as [ | n names IH ] using rev_ind; [ reflexivity | ].
  rewrite tallyOf_snoc, countEvent_sum, IH, length_app. simpl. lia.
Qed.

Lemma countEvent_name_order (n : option string) (t : list EventCount.t) :
  map EventCount.name (countEvent n t)
  = if in_dec name_eq_dec n (map EventCount.name t)
    then map EventCount.name t
    else map EventCount.name t ++ [n].
Proof.
  induction t as [ | e t IH ]; simpl; [ reflexivity | ].
  destruct (sameName (EventCount.name e) n) eqn:He; simpl.
  - apply sameName_eq in He.
    destruct (name_eq_dec (EventCount.name e) n) as [ Heq | Hne ];
      [ reflexivity | contradiction ].
  - apply sameName_neq in He. rewrite IH.
    destruct (name_eq_dec (EventCount.name e) n) as [ Heq | Hne ];
      [ contradiction | ].
    destruct (in_dec name_eq_dec n (map EventCount.name t)); reflexivity.
Qed.

Lemma tallyOf_name_order (names : list (option string)) :
  map EventCount.name (tallyOf names) = rev (nodup name_eq_dec (rev names)).
Proof.
  induction names as [ | n names IH ] using rev_ind; [ reflexivity | ].
  rewrite tallyOf_snoc, countEvent_name_order, rev_app_distr. simpl.
  destruct (in_dec name_eq_dec n (map EventCount.name (tallyOf names)))
    as [ Hin | Hnot ];
    destruct (in_dec name_eq_dec n (rev names)) as [ Hin' | Hnot' ].
  - exact IH.
  - exfalso. apply Hnot'. apply (proj1 (in_rev names n)).
    apply tallyOf_names, Hin.
  - exfalso. apply Hnot. apply tallyOf_names.
    apply (proj2 (in_rev names n)), Hin'.
  - simpl. rewrite IH. reflexivity.
Qed.

Lemma concat_eventArrays_names (functions : list (string * FunctionSpec.t)) :
  List.concat (map (map eventName) (eventArrays functions))
  = allEventNames functions.
Proof.
  unfold allEventNames, allEvents. rewrite concat_map. reflexivity.
Qed.

Section Tally.

Context {E : Engine}.

Lemma payload_events_fields (host : Host.t) (this : Utils.t)
  (serverless : Serverless.t) (context : value) (data : Data.t) :
  executor host this serverless context = Ok (Some data) ->
  let functions := Service.functions (Serverless.service serverless) in
  EventStats.numberOfEventsPerType (Properties.events (Data.properties data))
  = tallyOf (allEventNames functions)
  /\ EventStats.eventNamesPerFunction (Properties.events (Data.properties data))
     = map (map eventName) (eventArrays functions).
Proof.
  intros H. apply executor_Some in H.
  destruct H as (pairs & vars & inResources & isAws
                 & _ & Hvars & _ & _ & _ & -> & _).
  apply eventInformation_tally in Hvars. destruct Hvars as (-> & ->).
  split; reflexivity.
Qed.

(** X5. In the payload, the counts of [numberOfEventsPerType] add up to
    the number of events of the service, which is also the number of names
    in [eventNamesPerFunction]; and every count is at least one. *)
Theorem tally_counts_every_event :
  forall (host : Host.t) (this : Utils.t) (serverless : Serverless.t)
         (context : value) (data : Data.t),
    executor host this serverless context = Ok (Some data) ->
    let functions := Service.functions (Serverless.service serverless) in
    let events := Properties.events (Data.properties data) in
    list_sum (map EventCount.count (EventStats.numberOfEventsPerType events))
    = List.length (allEvents functions)
    /\ List.length (List.concat (EventStats.eventNamesPerFunction events))
       = List.length (allEvents functions)
    /\ (forall entry,
           In entry (EventStats.numberOfEventsPerType events) ->
           1 <= EventCount.count entry).
Proof.
  intros host this serverless context data H functions events.
  apply payload_events_fields in H. fold functions events in H.
  destruct H as (-> & ->).
  rewrite tallyOf_sum, concat_eventArrays_names.
  unfold allEventNames. rewrite length_map.
  split; [ reflexivity | ]. split; [ reflexivity | ].
  intros entry Hin. rewrite (tallyOf_count _ _ Hin). unfold occurrences.
  apply count_occ_In. apply tallyOf_names. apply in_map, Hin.
Qed.

(** X6. In the payload, the names of [numberOfEventsPerType] are the names
    of the events of the service, each once, in the order in which they
    first appear (the last occurrences in the reversed list, reversed). *)
Theorem tally_in_order_of_first_appearance :
  forall (host : Host.t) (this : Utils.t) (serverless : Serverless.t)
         (context : value) (data : Data.t),
    executor host this serverless context = Ok (Some data) ->
    let functions := Service.functions (Serverless.service serverless) in
    map EventCount.name
      (EventStats.numberOfEventsPerType (Properties.events (Data.properties data)))
    = rev (nodup name_eq_dec (rev (allEventNames functions))).
Proof.
  intros host this serverless context data H functions.
  apply payload_events_fields in H. destruct H as (-> & _).
  apply tallyOf_name_order.
Qed.

End Tally.

(** ** The time zone *)

Lemma span_spec (p : ascii -> bool) (s a b : string) :
  span p s = (a, b) ->
  s = (a ++ b)%string /\ allChars p a = true /\ notStartingWith p b = true.
Proof.
  revert a b. induction s as [ | c s IH ]; intros a b; simpl.
  - intros H; injection H as <- <-. repeat split.
  - destruct (p c) eqn:Hc.
    + destruct (span p s) as (a', b') eqn:Hs. intros H; injection H as <- <-.
      destruct (IH a' b' eq_refl) as (-> & Ha & Hb).
      simpl. rewrite Hc, Ha. repeat split. exact Hb.
    + intros H; injection H as <- <-. simpl. rewrite Hc. repeat split.
Qed.

Lemma matchTimezoneAt_spec (s m : string) :
  matchTimezoneAt s = Some m ->
  exists capitals sign digits rest,
    s = (capitals ++ String sign digits ++ rest)%string
    /\ m = (capitals ++ String sign digits)%string
    /\ capitals <> "" /\ allChars isCapital capitals = true
    /\ isSign sign = true
    /\ digits <> "" /\ allChars isDigit digits = true
    /\ notStartingWith isDigit rest = true.
Proof.
  unfold matchTimezoneAt.
  destruct (span isCapital s) as (capitals, r1) eqn:Hcap.
  apply span_spec in Hcap. destruct Hcap as (-> & Hcaps & _).
  destruct capitals as [ | c0 capitals ]; [ discriminate | ].
  destruct r1 as [ | sign r2 ]; [ discriminate | ].
  destruct (isSign sign) eqn:Hsign; [ | discriminate ].
  destruct (span isDigit r2) as (digits, rest) eqn:Hdig.
  apply span_spec in Hdig. destruct Hdig as (-> & Hdigits & Hrest).
  destruct digits as [ | d0 digits ]; [ discriminate | ].
  intros H; injection H as <-.
  exists (String c0 capitals), sign, (String d0 digits), rest.
  repeat split; try assumption; try discriminate.
Qed.

Lemma matchTimezone_spec (s m : string) :
  matchTimezone s = Some m ->
  exists before capitals sign digits rest,
    s = (before ++ capitals ++ String sign digits ++ rest)%string
    /\ m = (capitals ++ String sign digits)%string
    /\ capitals <> "" /\ allChars isCapital capitals = true
    /\ isSign sign = true
    /\ digits <> "" /\ allChars isDigit digits = true
    /\ notStartingWith isDigit rest = true.
Proof.
  induction s as [ | c s IH ]; cbn [matchTimezone].
  - destruct (matchTimezoneAt "") as [ m' | ] eqn:Hat; [ | discriminate ].
    intros H; injection H as ->. apply matchTimezoneAt_spec in Hat.
    destruct Hat as (capitals & sign & digits & rest & Hs & Hrest).
    exists "", capitals, sign, digits, rest. split; [ exact Hs | exact Hrest ].
  - destruct (matchTimezoneAt (String c s)) as [ m' | ] eqn:Hat.
    + intros H; injection H as ->. apply matchTimezoneAt_spec in Hat.
      destruct Hat as (capitals & sign & digits & rest & Hs & Hrest).
      exists "", capitals, sign, digits, rest. split; [ exact Hs | exact Hrest ].
    + intros H. apply IH in H.
      destruct H as (before & capitals & sign & digits & rest & -> & Hrest).
      exists (String c before), capitals, sign, digits, rest.
      split; [ reflexivity | exact Hrest ].
Qed.

Lemma strictNotEqualString_spec (v : value) (s : string) :
  strictNotEqualString v s = true <-> v <> VStr s.
Proof.
  destruct v; simpl; try (split; [ discriminate | reflexivity ]).
  rewrite negb_true_iff, String.eqb_neq. split; congruence.
Qed.

Lemma allEvents_flat_map (functions : list (string * FunctionSpec.t)) :
  allEvents functions
  = flat_map (fun f => match FunctionSpec.events (snd f) with
                       | Some events => events
                       | None => []
                       end) functions.
Proof.
  unfold allEvents, eventArrays.
  induction functions as [ | f functions IH ]; [ reflexivity | ].
  simpl. rewrite concat_app, IH.
  destruct (FunctionSpec.events (snd f)); simpl;
    [ rewrite app_nil_r | ]; reflexivity.
Qed.

Lemma existsb_Permutation {A : Type} (p : A -> bool) (l l' : list A) :
  Permutation l l' -> existsb p l = existsb p l'.
Proof.
  intros H. induction H; simpl.
  - reflexivity.
  - rewrite IHPermutation. reflexivity.
  - destruct (p x), (p y); reflexivity.
  - congruence.
Qed.

Lemma tallyOf_Permutation (names names' : list (option string)) :
  Permutation names names' -> Permutation (tallyOf names) (tallyOf names').
Proof.
  intros H. rewrite (tallyOf_entries names), (tallyOf_entries names').
  rewrite (map_ext (fun n => {| EventCount.name := n;
                                EventCount.count := occurrences n names |})
             (fun n => {| EventCount.name := n;
                          EventCount.count := occurrences n names' |})).
  - apply Permutation_map, NoDup_Permutation.
    + apply tallyOf_NoDup.
    + apply tallyOf_NoDup.
    + intros m. rewrite !tallyOf_names. split; apply Permutation_in;
        [ exact H | symmetry; exact H ].
  - intros n. unfold occurrences.
    rewrite (proj1 (Permutation_count_occ name_eq_dec _ _) H). reflexivity.
Qed.

(** X14. When the event loop completes on a list of functions, it completes
    on every reordering of the list, with the same three authorizer flags,
    the same tally entries and the same arrays of names, up to their
    order. *)
Theorem function_order_is_irrelevant :
  forall (functions functions' : list (string * FunctionSpec.t))
         (vars : Vars.t),
    Permutation functions functions' ->
    eventInformation functions = Ok vars ->
    exists vars',
      eventInformation functions' = Ok vars'
      /\ Vars.hasIAMAuthorizer vars' = Vars.hasIAMAuthorizer vars
      /\ Vars.hasCustomAuthorizer vars' = Vars.hasCustomAuthorizer vars
      /\ Vars.hasCognitoAuthorizer vars' = Vars.hasCognitoAuthorizer vars
      /\ Permutation (Vars.numberOfEventsPerType vars)
           (Vars.numberOfEventsPerType vars')
      /\ Permutation (Vars.eventNamesPerFunction vars)
           (Vars.eventNamesPerFunction vars').
Proof.
  intros functions functions' vars Hperm H.
  assert (Hevents : Permutation (allEvents functions) (allEvents functions')).
  { rewrite !allEvents_flat_map. apply Permutation_flat_map, Hperm. }
  destruct (eventInformation_total functions') as (vars' & H').
  { intros event Hin. apply (eventInformation_Ok_wellTyped _ _ H).
    apply (Permutation_in _ (Permutation_sym Hevents)), Hin. }
  exists vars'. split; [ exact H' | ].
  destruct (eventInformation_flags _ _ H) as (I & C & G).
  destruct (eventInformation_flags _ _ H') as (I' & C' & G').
  destruct (eventInformation_tally _ _ H) as (T & N).
  destruct (eventInformation_tally _ _ H') as (T' & N').
  rewrite I, C, G, I', C', G', T, N, T', N'.
  repeat split; try (symmetry; apply existsb_Permutation, Hevents).
  - apply tallyOf_Permutation. unfold allEventNames.
    apply Permutation_map, Hevents.
  - apply Permutation_map. unfold eventArrays.
    apply Permutation_flat_map, Hperm.
Qed.

Section Fields.

Context {E : Engine}.

(** X10. In the payload, [timezone] is a part of the date string made of
    one or more capitals, a sign, and one or more digits, with no digit
    after it in the date string. *)
Theorem timezone_shape :
  forall (host : Host.t) (this : Utils.t) (serverless : Serverless.t)
         (context : value) (data : Data.t),
    executor host this serverless context = Ok (Some data) ->
    exists before capitals sign digits rest,
      Host.Date_toString host
      = (before ++ capitals ++ String sign digits ++ rest)%string
      /\ General.timezone (Properties.general (Data.properties data))
         = (capitals ++ String sign digits)%string
      /\ capitals <> "" /\ allChars isCapital capitals = true
      /\ isSign sign = true
      /\ digits <> "" /\ allChars isDigit digits = true
      /\ notStartingWith isDigit rest = true.
Proof.
  intros host this serverless context data H.
  apply executor_Some_fields in H.
  destruct H as (config & timezone & customSyntax
                 & _ & _ & _ & _ & Htz & _ & _ & _ & _ & _ & _ & _ & _ & _
                 & Hgeneral).
  rewrite Hgeneral. cbn [General.timezone].
  exact (matchTimezone_spec _ _ Htz).
Qed.

(** X12. In the payload, [userId] and [general.userId] are the
    [frameworkId] of the configuration; [general.platformId] is present
    exactly when the configuration has a truthy [userId], and is that
    value; [general.context] is the context given when it is truthy and
    ["usage"] otherwise. *)
Theorem identity_and_context :
  forall (host : Host.t) (this : Utils.t) (serverless : Serverless.t)
         (context : value) (data : Data.t),
    executor host this serverless context = Ok (Some data) ->
    let general := Properties.general (Data.properties data) in
    exists config,
      Host.getConfig host = Ok config
      /\ Data.userId data = prop config "frameworkId"
      /\ General.userId general = prop config "frameworkId"
      /\ (forall id, General.platformId general = Some id
                     <-> prop config "userId" = id /\ truthy id = true)
      /\ (truthy context = true -> General.context general = context)
      /\ (truthy context = false -> General.context general = VStr "usage").
Proof.
  intros host this serverless context data H general.
  apply executor_Some_fields in H.
  destruct H as (config & timezone & customSyntax
                 & Hconfig & _ & _ & _ & _ & _ & HuserId & _ & _ & _ & _ & _
                 & _ & _ & Hgeneral).
  exists config. subst general. rewrite Hgeneral. cbn.
  split; [ exact Hconfig | ]. split; [ exact HuserId | ].
  split; [ reflexivity | ]. split.
  - intros id. destruct (truthy (prop config "userId")) eqn:Hid; split.
    + intros Hsome; injection Hsome as <-. split; [ reflexivity | exact Hid ].
    + intros (<- & _). reflexivity.
    + discriminate.
    + intros (<- & Ht). rewrite Hid in Ht. discriminate Ht.
  - split; intros ->; reflexivity.
Qed.

(** X13. In the payload, [hasCustomVariableSyntaxDefined] is true exactly
    when [provider.variableSyntax] is truthy and is not the default
    pattern. *)
Theorem hasCustomVariableSyntaxDefined_iff :
  forall (host : Host.t) (this : Utils.t) (serverless : Serverless.t)
         (context : value) (data : Data.t),
    executor host this serverless context = Ok (Some data) ->
    let variableSyntax :=
      prop (Service.provider (Serverless.service serverless)) "variableSyntax" in
    ServiceStats.hasCustomVariableSyntaxDefined
      (Properties.service (Data.properties data)) = true
    <-> truthy variableSyntax = true
        /\ variableSyntax <> VStr defaultVariableSyntax.
Proof.
  intros host this serverless context data H variableSyntax.
  apply executor_Some_fields in H.
  destruct H as (config & timezone & customSyntax
                 & _ & _ & _ & _ & _ & Hsyntax & _ & _ & _ & _ & _ & _
                 & -> & _).
  rewrite hasCustomVariableSyntaxDefined_Ok in Hsyntax.
  injection Hsyntax as <-. fold variableSyntax.
  rewrite andb_true_iff, strictNotEqualString_spec. tauto.
Qed.

(** X9. In the payload, [numberOfFunctions] is the number of functions,
    [memorySizeAndTimeoutPerFunction] has one pair for each of them, and
    [eventNamesPerFunction] has at most that many arrays. For a service
    without functions the lists are empty, [numberOfEvents] is 0 and the
    three flags of an [aws] section are false. *)
Theorem one_pair_per_function :
  forall (host : Host.t) (this : Utils.t) (serverless : Serverless.t)
         (context : value) (data : Data.t),
    executor host this serverless context = Ok (Some data) ->
    let functions := Service.functions (Serverless.service serverless) in
    let stats := Properties.functions (Data.properties data) in
    let events := Properties.events (Data.properties data) in
    FunctionStats.numberOfFunctions stats = List.length functions
    /\ List.length (FunctionStats.memorySizeAndTimeoutPerFunction stats)
       = List.length functions
    /\ List.length (EventStats.eventNamesPerFunction events)
       <= List.length functions
    /\ (functions = [] ->
        FunctionStats.memorySizeAndTimeoutPerFunction stats = []
        /\ EventStats.numberOfEvents events = 0
        /\ EventStats.numberOfEventsPerType events = []
        /\ EventStats.eventNamesPerFunction events = []
        /\ forall aws,
             Properties.aws (Data.properties data) = Some aws ->
             aws = {| Aws.hasIAMAuthorizer := false;
                      Aws.hasCustomAuthorizer := false;
                      Aws.hasCognitoAuthorizer := false |}).
Proof.
  intros host this serverless context data H functions stats events.
  apply executor_Some in H. fold functions in H.
  destruct H as (pairs & vars & inResources & isAws
                 & Hpairs & Hvars & _ & _ & Hstats & Hevents & _ & Haws).
  subst stats events. rewrite Hstats, Hevents. cbn.
  apply memorySizeAndTimeoutPerFunction_Ok in Hpairs.
  pose proof (Forall2_length Hpairs) as Hlen.
  destruct (eventInformation_tally _ _ Hvars) as (T & N).
  split; [ reflexivity | ]. split; [ symmetry; exact Hlen | ]. split.
  - rewrite N, length_map. unfold eventArrays.
    clear. induction functions as [ | f functions IH ]; simpl; [ lia | ].
    rewrite length_app.
    destruct (FunctionSpec.events (snd f)); simpl; lia.
  - intros Hnil. rewrite Hnil in *.
    destruct pairs; [ | discriminate Hlen ].
    rewrite T, N. cbn. repeat split.
    intros aws Hsome. rewrite Haws in Hsome.
    destruct isAws; [ injection Hsome as <- | discriminate Hsome ].
    destruct (eventInformation_flags _ _ Hvars) as (-> & -> & ->).
    reflexivity.
Qed.

End Fields.

(** ** Properties of the file functions *)

Lemma skip_append (p r : string) : skip (String.length p) (p ++ r) = r.
Proof. induction p as [ | c p IH ]; simpl; [ destruct r | ]; auto. Qed.

Lemma prefix_of_append (p r : string) : prefix p (p ++ r) = true.
Proof. apply prefix_append. exists r. reflexivity. Qed.

Lemma replace_found (s p r : string) :
  prefix p s = true ->
  replace s p r = (r ++ skip (String.length p) s)%string.
Proof. destruct s; cbn [replace]; intros ->; reflexivity. Qed.

Lemma replace_prefix (p r : string) : replace (p ++ r) p "" = r.
Proof.
  rewrite (replace_found _ _ _ (prefix_of_append p r)), skip_append.
  reflexivity.
Qed.

Lemma replace_absent (s p r : string) : ~ contains s p -> replace s p r = s.
Proof.
  induction s as [ | c s IH ]; intros Hno; cbn [replace].
  - destruct (prefix p "") eqn:Hp; [ | reflexivity ].
    exfalso. apply Hno. apply includes_contains. cbn [includes].
    rewrite Hp. reflexivity.
  - destruct (prefix p (String c s)) eqn:Hp.
    + exfalso. apply Hno. apply includes_contains. cbn [includes].
      rewrite Hp. reflexivity.
    + rewrite IH; [ reflexivity | ].
      intros (pre & post & ->). apply Hno.
      exists (String c pre), post. reflexivity.
Qed.

Section FileProperties.

Context {W : Type} {F : FileSystem W}.

Lemma forEachWriting_ext {A : Type} (f g : A -> W -> result value * W)
  (l : list A) (w : W) :
  (forall x, In x l -> forall w', f x w' = g x w') ->
  forEachWriting f l w = forEachWriting g l w.
Proof.
  revert w. induction l as [ | x l IH ]; intros w H; simpl; [ reflexivity | ].
  rewrite (H x (or_introl eq_refl)).
  destruct (g x w) as ([ v | e ], w'); [ | reflexivity ].
  apply IH. intros y Hy. apply H. right; exact Hy.
Qed.

Lemma forEachWriting_map {A B : Type} (h : A -> B)
  (f : B -> W -> result value * W) (l : list A) (w : W) :
  forEachWriting f (map h l) w = forEachWriting (fun x => f (h x)) l w.
Proof.
  revert w. induction l as [ | x l IH ]; intros w; simpl; [ reflexivity | ].
  destruct (f (h x) w) as ([ v | e ], w'); [ apply IH | reflexivity ].
Qed.

(** X16. [copyDirContentsSync] copies the files that [walkDirSync] lists,
    in their order and until a copy throws: a file at [srcDir] followed by
    a relative path goes to [destDir] joined with that relative path, and
    a file whose path has no [srcDir] in it goes to [destDir] joined with
    its whole path. When [walkDirSync] throws, nothing is copied and the
    exception is thrown on. *)
Theorem copyDirContentsSync_relative_paths :
  forall (srcDir destDir : string) (w : W),
    (forall relative : list string,
        walkDirSync srcDir w = Ok (map (append srcDir) relative) ->
        copyDirContentsSync srcDir destDir w
        = forEachWriting
            (fun path =>
               fse_copySync (srcDir ++ path) (path_join destDir path))
            relative w)
    /\ (forall paths : list string,
           walkDirSync srcDir w = Ok paths ->
           (forall path, In path paths -> ~ contains path srcDir) ->
           copyDirContentsSync srcDir destDir w
           = forEachWriting
               (fun path => fse_copySync path (path_join destDir path))
               paths w)
    /\ (forall e, walkDirSync srcDir w = Throw e ->
                  copyDirContentsSync srcDir destDir w = (Throw e, w)).
Proof.
  intros srcDir destDir w. unfold copyDirContentsSync.
  split; [ | split ].
  - intros relative ->. rewrite forEachWriting_map.
    apply forEachWriting_ext. intros path _ w'.
    cbv zeta. rewrite replace_prefix. reflexivity.
  - intros paths -> Hno. apply forEachWriting_ext. intros path Hin w'.
    cbv zeta. rewrite (replace_absent _ _ _ (Hno path Hin)). reflexivity.
  - intros e ->. reflexivity.
Qed.

(** X17. The promise of [writeFile] is fulfilled with [undefined] when
    [writeFileSync] returns and rejected with its exception when it
    throws, the later [resolve()] changing nothing; the promise of
    [readFile] is fulfilled with the contents read, and rejected with the
    exception of [readFileSync] when it throws. *)
Theorem promises_settle_as_the_operation_ends :
  forall (filePath : string) (contents : value) (w : W),
    (forall v w', writeFileSync filePath contents w = (Ok v, w') ->
                  writeFile filePath contents w
                  = (Settled (Fulfilled VUndefined), w'))
    /\ (forall e w', writeFileSync filePath contents w = (Throw e, w') ->
                     writeFile filePath contents w = (Settled (Rejected e), w'))
    /\ (forall v, readFileSync filePath w = Ok v ->
                  readFile filePath w = Settled (Fulfilled v))
    /\ (forall e, readFileSync filePath w = Throw e ->
                  readFile filePath w = Settled (Rejected e)).
Proof.
  intros filePath contents w. unfold writeFile, readFile.
  repeat split.
  - intros v w' ->. reflexivity.
  - intros e w' ->. reflexivity.
  - intros v ->. reflexivity.
  - intros e ->. reflexivity.
Qed.

(** X18. [appendFileSync] appends the empty string in place of falsy
    contents ([undefined], [null], [false], [0], [NaN], the empty string);
    its promise is fulfilled with [undefined] when [fs.appendFileSync]
    returns and rejected with its exception when it throws. *)
Theorem appendFileSync_contents :
  forall (filePath : string) (conts : value) (w : W),
    let contents := if truthy conts then conts else VStr "" in
    (truthy conts = false ->
     appendFileSync filePath conts w = appendFileSync filePath (VStr "") w)
    /\ (forall v w', fs_appendFileSync filePath contents w = (Ok v, w') ->
                     appendFileSync filePath conts w
                     = (Settled (Fulfilled VUndefined), w'))
    /\ (forall e w', fs_appendFileSync filePath contents w = (Throw e, w') ->
                     appendFileSync filePath conts w
                     = (Settled (Rejected e), w')).
Proof.
  intros filePath conts w contents. unfold appendFileSync. fold contents.
  repeat split.
  - intros Hfalsy. subst contents. rewrite Hfalsy. reflexivity.
  - intros v w' ->. reflexivity.
  - intros e w' ->. reflexivity.
Qed.

(** X19. When [findServicePath] returns, the result is the current
    directory and one of [serverless.yml], [serverless.yaml],
    [serverless.json] was found there, or it is [null] and none of the
    three was found. *)
Theorem findServicePath_result :
  forall (w : W) (servicePath : value),
    findServicePath w = Ok servicePath ->
    let found name :=
      exists v,
        fileExistsSync (path_join (process_cwd w) name) w = Ok v
        /\ truthy v = true in
    let absent name :=
      exists v,
        fileExistsSync (path_join (process_cwd w) name) w = Ok v
        /\ truthy v = false in
    (servicePath = VStr (process_cwd w)
     /\ (found "serverless.yml" \/ found "serverless.yaml"
         \/ found "serverless.json"))
    \/ (servicePath = VNull
        /\ absent "serverless.yml" /\ absent "serverless.yaml"
        /\ absent "serverless.json").
Proof.
  intros w servicePath. unfold findServicePath. cbv zeta. intros H.
  bind_inv H as yml Hyml. destruct (truthy yml) eqn:Tyml.
  { injection H as <-. left. split; [ reflexivity | ].
    left. exists yml. split; assumption. }
  bind_inv H as yaml Hyaml. destruct (truthy yaml) eqn:Tyaml.
  { injection H as <-. left. split; [ reflexivity | ].
    right; left. exists yaml. split; assumption. }
  bind_inv H as json Hjson. destruct (truthy json) eqn:Tjson.
  { injection H as <-. left. split; [ reflexivity | ].
    right; right. exists json. split; assumption. }
  injection H as <-. right. split; [ reflexivity | ].
  repeat split; eexists; split; eassumption.
Qed.

End FileProperties.

(** ** The zone is found whenever the string has one *)

Lemma span_all (p : ascii -> bool) (a b : string) :
  allChars p a = true -> notStartingWith p b = true -> span p (a ++ b) = (a, b).
Proof.
  induction a as [ | c a IH ]; simpl; intros Ha Hb.
  - destruct b as [ | c b ]; [ reflexivity | ].
    simpl in *. apply negb_true_iff in Hb. rewrite Hb. reflexivity.
  - apply andb_true_iff in Ha. destruct Ha as (Hc & Ha).
    rewrite Hc, (IH Ha Hb). reflexivity.
Qed.

Lemma span_nonempty (p : ascii -> bool) (a b : string) :
  allChars p a = true -> a <> "" -> fst (span p (a ++ b)) <> "".
Proof.
  destruct a as [ | c a ]; [ intros _ H; contradiction | ].
  simpl. intros Ha _. apply andb_true_iff in Ha. destruct Ha as (Hc & _).
  rewrite Hc. destruct (span p (a ++ b)). discriminate.
Qed.

Lemma sign_is_no_capital (c : ascii) : isSign c = true -> isCapital c = false.
Proof.
  unfold isSign. rewrite orb_true_iff, !Ascii.eqb_eq.
  intros [ -> | -> ]; reflexivity.
Qed.

Lemma matchTimezoneAt_complete (capitals digits rest : string) (sign : ascii) :
  capitals <> "" -> allChars isCapital capitals = true ->
  isSign sign = true ->
  digits <> "" -> allChars isDigit digits = true ->
  matchTimezoneAt (capitals ++ String sign digits ++ rest) <> None.
Proof.
  intros Hne Hcaps Hsign Hdne Hdigits. unfold matchTimezoneAt.
  change (String sign digits ++ rest)%string
    with (String sign (digits ++ rest)).
  rewrite (span_all isCapital capitals (String sign (digits ++ rest)) Hcaps).
  - destruct capitals as [ | c capitals ]; [ contradiction | ].
    rewrite Hsign.
    pose proof (span_nonempty isDigit digits rest Hdigits Hdne) as Hd.
    destruct (span isDigit (digits ++ rest)) as ([ | d ds ], r); simpl in Hd;
      [ contradiction | discriminate ].
  - simpl. rewrite (sign_is_no_capital _ Hsign). reflexivity.
Qed.

Lemma matchTimezone_here (s : string) :
  matchTimezoneAt s <> None -> matchTimezone s <> None.
Proof.
  destruct s; cbn [matchTimezone]; destruct (matchTimezoneAt _);
    intros H H'; first [ discriminate H' | apply H; reflexivity ].
Qed.

(** X11. Whenever the date string has capitals followed by a sign and
    digits somewhere, the match for the zone succeeds, so that the
    [TypeError] of a failed match arises only for a string without such a
    part. *)
Theorem matchTimezone_finds_a_zone :
  forall before capitals digits rest : string, forall sign : ascii,
    capitals <> "" -> allChars isCapital capitals = true ->
    isSign sign = true ->
    digits <> "" -> allChars isDigit digits = true ->
    matchTimezone (before ++ capitals ++ String sign digits ++ rest) <> None.
Proof.
  intros before capitals digits rest sign Hne Hcaps Hsign Hdne Hdigits.
  pose proof (matchTimezoneAt_complete capitals digits rest sign
                Hne Hcaps Hsign Hdne Hdigits) as Hat.
  induction before as [ | c before IH ].
  - apply matchTimezone_here, Hat.
  - clear Hat. simpl append. cbn [matchTimezone].
    destruct (matchTimezoneAt _); cbv beta iota;
      [ intros H; discriminate H | exact IH ].
Qed.

Section Shadowing.

Context {E : Engine}.

(** X15. When [Number] of the [memorySize] and of the [timeout] of a
    function are both numbers other than [0] and [NaN], the pair holds
    these two numbers and the provider is not read: the computation
    succeeds even without a provider section. *)
Theorem function_values_shadow_the_provider :
  forall (this : Utils.t) (func : FunctionSpec.t) (memorySize timeout : float),
    Number (FunctionSpec.memorySize func) = Ok memorySize ->
    truthyNumber memorySize = true ->
    Number (FunctionSpec.timeout func) = Ok timeout ->
    truthyNumber timeout = true ->
    memorySizeAndTimeoutObject this func
    = Ok {| MemorySizeAndTimeout.memorySize := memorySize;
            MemorySizeAndTimeout.timeout := timeout |}.
Proof.
  intros this func memorySize timeout Hm Tm Ht Tt.
  unfold memorySizeAndTimeoutObject, orNumber. cbv zeta.
  rewrite Hm. cbn [bind]. rewrite Tm. cbn [bind].
  rewrite Ht. cbn [bind]. rewrite Tt. reflexivity.
Qed.

End Shadowing.

(** ** The further properties on the example inputs *)

Lemma filteredOptions_whitelist_witness :
  exists data,
    executor (E := exampleEngine) trackingHost (utilsOf mediaService)
      mediaService VUndefined = Ok (Some data)
    /\ In ("help", VBool true)
         (Command.filteredOptions (Properties.command (Data.properties data))).
Proof.
  eexists. split; [ reflexivity | ].
  apply (proj2 (@filteredOptions_whitelist exampleEngine trackingHost
                  (utilsOf mediaService) mediaService VUndefined _ eq_refl)
           "help").
  - right; left; reflexivity.
  - left; reflexivity.
Defined.

Lemma hasCustomAuthorizer_exactly_witness :
  (exists vars,
      eventInformation
        (Service.functions
           (Serverless.service (serviceWithAuthorizer (VStr "authorizerFunc"))))
      = Ok vars
      /\ Vars.hasCustomAuthorizer vars = true)
  /\ (exists vars,
         eventInformation
           (Service.functions
              (Serverless.service (serviceWithAuthorizer (VStr "aws_ıam"))))
         = Ok vars
         /\ Vars.hasCustomAuthorizer vars = false).
Proof.
  split.
  - eexists. split; [ reflexivity | ].
    apply (proj2 (hasCustomAuthorizer_exactly
                    (Service.functions
                       (Serverless.service
                          (serviceWithAuthorizer (VStr "authorizerFunc"))))
                    _ eq_refl)).
    exists (httpEvent (VStr "authorizerFunc")).
    split; [ left; reflexivity | ].
    left. exists "authorizerFunc". split; [ reflexivity | ].
    split; [ discriminate | ]. split.
    + intros H. apply toUpperCase_AWS_IAM in H. vm_compute in H.
      discriminate H.
    + intros H. apply includes_contains in H. vm_compute in H.
      discriminate H.
  - eexists. split; [ reflexivity | ].
    apply not_true_is_false. intros H.
    apply (proj1 (hasCustomAuthorizer_exactly
                    (Service.functions
                       (Serverless.service
                          (serviceWithAuthorizer (VStr "aws_ıam"))))
                    _ eq_refl)) in H.
    destruct H as (event & [ <- | [] ] & [ (s & Hs & _ & Hno & _) | [ H | H ] ]).
    + injection Hs as <-. apply Hno, toUpperCase_AWS_IAM. reflexivity.
    + discriminate H.
    + destruct H as [ (s & H & _) | (items & H & _) ]; discriminate H.
Defined.

Lemma hasCognitoAuthorizer_exactly_witness :
  exists vars,
    eventInformation
      (Service.functions
         (Serverless.service
            (serviceWithAuthorizer poolAuthorizer)))
    = Ok vars
    /\ Vars.hasCognitoAuthorizer vars = true.
Proof.
  eexists. split; [ reflexivity | ].
  apply (proj2 (hasCognitoAuthorizer_exactly
                  (Service.functions
                     (Serverless.service (serviceWithAuthorizer poolAuthorizer)))
                  _ eq_refl)).
  exists (httpEvent poolAuthorizer).
  split; [ left; reflexivity | ].
  right. left. exists "arn:aws:cognito-idp:eu-west-1:1:userpool/p".
  split; [ reflexivity | ].
  exists "", ":eu-west-1:1:userpool/p". reflexivity.
Defined.

Lemma ill_typed_authorizer_rejects_witness :
  logStat (E := exampleEngine) trackingHost
    (utilsOf (serviceWithAuthorizer numberTypedAuthorizer))
    (serviceWithAuthorizer numberTypedAuthorizer) VUndefined []
  = (Rejected TypeError, []).
Proof.
  apply (proj2 (proj2 (@ill_typed_authorizer_rejects exampleEngine
                  (Service.functions
                     (Serverless.service
                        (serviceWithAuthorizer numberTypedAuthorizer)))))
           trackingHost _ _ VUndefined []
           (VObj [("frameworkId", VStr "f1a2b3");
                  ("trackingDisabled", VBool false)])
           (httpEvent numberTypedAuthorizer));
    try reflexivity.
  left; reflexivity.
Defined.

Lemma tally_counts_every_event_witness :
  exists data,
    executor (E := exampleEngine) trackingHost (utilsOf mediaService)
      mediaService VUndefined = Ok (Some data)
    /\ list_sum
         (map EventCount.count
            (EventStats.numberOfEventsPerType
               (Properties.events (Data.properties data))))
       = 4.
Proof.
  eexists. split; [ reflexivity | ].
  apply (proj1 (@tally_counts_every_event exampleEngine trackingHost
                  (utilsOf mediaService) mediaService VUndefined _ eq_refl)).
Defined.

Lemma tally_in_order_of_first_appearance_witness :
  exists data,
    executor (E := exampleEngine) trackingHost (utilsOf mediaService)
      mediaService VUndefined = Ok (Some data)
    /\ map EventCount.name
         (EventStats.numberOfEventsPerType
            (Properties.events (Data.properties data)))
       = [Some "http"; Some "s3"].
Proof.
  eexists. split; [ reflexivity | ].
  apply (@tally_in_order_of_first_appearance exampleEngine trackingHost
           (utilsOf mediaService) mediaService VUndefined _ eq_refl).
Defined.

Lemma logStat_outcome_witness :
  exists config,
    Host.getConfig optedOutHost = Ok config
    /\ truthy (prop config "trackingDisabled") = true.
Proof.
  apply (proj2 (proj2 (proj2
           (@logStat_outcome exampleEngine optedOutHost (utilsOf mediaService)
              mediaService VUndefined [])))).
  split; reflexivity.
Defined.

Lemma logStat_emits_only_when_witness :
  exists (config : value) (data : Data.t),
    Host.getConfig trackingHost = Ok config
    /\ truthy (prop config "trackingDisabled") = false
    /\ matchTimezone (Host.Date_toString trackingHost)
       = Some (General.timezone (Properties.general (Data.properties data)))
    /\ logStat (E := exampleEngine) trackingHost (utilsOf mediaService)
         mediaService VUndefined []
       = (Fulfilled VUndefined, [] ++ [data]).
Proof.
  destruct (@logStat_emits_only_when exampleEngine trackingHost
              (utilsOf mediaService) mediaService VUndefined [])
    as (config & data & Hconfig & _ & Hflag & _ & _ & _ & _ & Htz & Hout).
  - vm_compute. discriminate.
  - exists config, data. repeat split; assumption.
Defined.

Lemma one_pair_per_function_witness :
  exists data,
    executor (E := exampleEngine) trackingHost (utilsOf azureService)
      azureService VUndefined = Ok (Some data)
    /\ FunctionStats.memorySizeAndTimeoutPerFunction
         (Properties.functions (Data.properties data)) = [].
Proof.
  eexists. split; [ reflexivity | ].
  apply (proj2 (proj2 (proj2
           (@one_pair_per_function exampleEngine trackingHost
              (utilsOf azureService) azureService VUndefined _ eq_refl)))).
  reflexivity.
Defined.

Lemma timezone_shape_witness :
  exists data,
    executor (E := exampleEngine) trackingHost (utilsOf azureService)
      azureService VUndefined = Ok (Some data)
    /\ exists before capitals sign digits rest,
         Host.Date_toString trackingHost
         = (before ++ capitals ++ String sign digits ++ rest)%string
         /\ General.timezone (Properties.general (Data.properties data))
            = (capitals ++ String sign digits)%string
         /\ capitals <> "" /\ allChars isCapital capitals = true
         /\ isSign sign = true
         /\ digits <> "" /\ allChars isDigit digits = true
         /\ notStartingWith isDigit rest = true.
Proof.
  eexists. split; [ reflexivity | ].
  apply (@timezone_shape exampleEngine trackingHost (utilsOf azureService)
           azureService VUndefined _ eq_refl).
Defined.

Lemma matchTimezone_finds_a_zone_witness :
  matchTimezone "Mon Nov 02 2026 16:26:00 GMT+0000 (Coordinated Universal Time)"
  <> None
  /\ allChars isCapital "GMT" = true /\ allChars isDigit "0000" = true.
Proof.
  split; [ | split; reflexivity ].
  apply (matchTimezone_finds_a_zone "Mon Nov 02 2026 16:26:00 " "GMT" "0000"
           " (Coordinated Universal Time)" "+"%char);
    first [ reflexivity | discriminate ].
Defined.

Lemma identity_and_context_witness :
  exists data,
    executor (E := exampleEngine) trackingHost (utilsOf azureService)
      azureService VUndefined = Ok (Some data)
    /\ General.context (Properties.general (Data.properties data))
       = VStr "usage".
Proof.
  eexists. split; [ reflexivity | ].
  destruct (@identity_and_context exampleEngine trackingHost
              (utilsOf azureService) azureService VUndefined _ eq_refl)
    as (config & _ & _ & _ & _ & _ & Hdefault).
  apply Hdefault. reflexivity.
Defined.

Lemma hasCustomVariableSyntaxDefined_iff_witness :
  exists data,
    executor (E := exampleEngine) trackingHost
      (utilsOf bracketsService) bracketsService VUndefined = Ok (Some data)
    /\ ServiceStats.hasCustomVariableSyntaxDefined
         (Properties.service (Data.properties data)) = true.
Proof.
  eexists. split; [ reflexivity | ].
  apply (proj2 (@hasCustomVariableSyntaxDefined_iff exampleEngine trackingHost
                  (utilsOf bracketsService) bracketsService VUndefined _
                  eq_refl)).
  split; [ reflexivity | discriminate ].
Defined.

Lemma function_order_is_irrelevant_witness :
  exists vars',
    eventInformation
      (rev (Service.functions (Serverless.service mediaService))) = Ok vars'
    /\ Vars.hasIAMAuthorizer vars' = false
    /\ Vars.hasCustomAuthorizer vars' = false
    /\ Vars.hasCognitoAuthorizer vars' = false
    /\ Permutation
         [ {| EventCount.name := Some "http"; EventCount.count := 2 |};
           {| EventCount.name := Some "s3"; EventCount.count := 2 |} ]
         (Vars.numberOfEventsPerType vars')
    /\ Permutation [[Some "http"; Some "s3"]; [Some "s3"; Some "http"]]
         (Vars.eventNamesPerFunction vars').
Proof.
  apply (function_order_is_irrelevant
           (Service.functions (Serverless.service mediaService))
           (rev (Service.functions (Serverless.service mediaService)))
           {| Vars.numberOfEventsPerType :=
                [ {| EventCount.name := Some "http"; EventCount.count := 2 |};
                  {| EventCount.name := Some "s3"; EventCount.count := 2 |} ];
              Vars.eventNamesPerFunction :=
                [[Some "http"; Some "s3"]; [Some "s3"; Some "http"]];
              Vars.hasIAMAuthorizer := false;
              Vars.hasCustomAuthorizer := false;
              Vars.hasCognitoAuthorizer := false |}).
  - apply Permutation_rev.
  - reflexivity.
Defined.

Lemma function_values_shadow_the_provider_witness :
  memorySizeAndTimeoutObject (E := exampleEngine)
    (utilsOf (serverlessWith VUndefined VUndefined []))
    (functionWith (VNum 512%float) (VStr "30") None)
  = Ok {| MemorySizeAndTimeout.memorySize := 512;
          MemorySizeAndTimeout.timeout := 30 |}.
Proof.
  apply (@function_values_shadow_the_provider exampleEngine); reflexivity.
Defined.

Lemma copyDirContentsSync_relative_paths_witness :
  copyDirContentsSync (F := exampleFileSystem) "/srv/app" "/tmp/copy"
    projectFiles
  = forEachWriting
      (fun path =>
         fse_copySync ("/srv/app" ++ path)%string
           (path_join "/tmp/copy" path))
      ["/serverless.yml"; "/handler.js"] projectFiles.
Proof.
  apply (proj1 (@copyDirContentsSync_relative_paths exampleFiles
                  exampleFileSystem "/srv/app" "/tmp/copy" projectFiles)
           ["/serverless.yml"; "/handler.js"]).
  reflexivity.
Defined.

Lemma promises_settle_as_the_operation_ends_witness :
  writeFile (F := exampleFileSystem) "" (VStr "x") projectFiles
  = (Settled (Rejected (missing "")), projectFiles).
Proof.
  apply (proj1 (proj2 (@promises_settle_as_the_operation_ends exampleFiles
                         exampleFileSystem "" (VStr "x") projectFiles))).
  reflexivity.
Defined.

Lemma appendFileSync_contents_witness :
  appendFileSync (F := exampleFileSystem) "/srv/app/log" (VNum 0%float)
    projectFiles
  = appendFileSync (F := exampleFileSystem) "/srv/app/log" (VStr "")
      projectFiles.
Proof.
  apply (proj1 (@appendFileSync_contents exampleFiles exampleFileSystem
                  "/srv/app/log" (VNum 0%float) projectFiles)).
  reflexivity.
Defined.

Lemma findServicePath_result_witness :
  (VStr "/srv/app" = VStr (process_cwd
                             projectFiles)
   /\ ((exists v,
          fileExistsSync (F := exampleFileSystem)
            (path_join (process_cwd projectFiles) "serverless.yml")
            projectFiles = Ok v
          /\ truthy v = true)
       \/ (exists v,
             fileExistsSync (F := exampleFileSystem)
               (path_join (process_cwd projectFiles) "serverless.yaml")
               projectFiles = Ok v
             /\ truthy v = true)
       \/ (exists v,
             fileExistsSync (F := exampleFileSystem)
               (path_join (process_cwd projectFiles) "serverless.json")
               projectFiles = Ok v
             /\ truthy v = true)))
  \/ (VStr "/srv/app" = VNull
      /\ (exists v,
            fileExistsSync (F := exampleFileSystem)
              (path_join (process_cwd projectFiles) "serverless.yml")
              projectFiles = Ok v
            /\ truthy v = false)
      /\ (exists v,
            fileExistsSync (F := exampleFileSystem)
              (path_join (process_cwd projectFiles) "serverless.yaml")
              projectFiles = Ok v
            /\ truthy v = false)
      /\ (exists v,
            fileExistsSync (F := exampleFileSystem)
              (path_join (process_cwd projectFiles) "serverless.json")
              projectFiles = Ok v
            /\ truthy v = false)).
Proof.
  apply (@findServicePath_result exampleFiles exampleFileSystem projectFiles
           (VStr "/srv/app")).
  reflexivity.
Defined.
